(** * voice-local-ai: the turn-taking engine of the voice-chat scripts

    A shallow embedding of the conversation loops, reply dispatchers,
    synthesis pipelines and shutdown handling of

      - examples/voice_chat.py            (class VoiceChat)
      - examples/push_to_talk_chat.py     (class PushToTalkChat)
      - examples/ultra_fast_voice_chat.py (class UltraFastVoiceChat)
      - examples/smart_edge_voice_chat.py (class SmartEdgeVoiceChat)
      - examples/clean_exit_voice_chat.py (class CleanExitVoiceChat)

    Conventions of the embedding.
      - Python [str] is [string]; transcripts are taken to be ASCII, so
        [str.lower] only moves 'A'..'Z' and bytes above 127 are left alone.
      - Waveform samples are exact rationals ([Q]): rounding of the
        floating-point samples is outside the model.
      - Everything a method obtains from a collaborator (microphone, speech
        recogniser, TTS engine, player process, clock, random generator,
        uuid generator, signal delivery) is read from an explicit oracle
        record, one per call.
      - A method is a state transformer that either returns a value or
        raises; [try]/[except]/[finally] are combinators of that monad. *)

From Stdlib Require Import String Ascii List ZArith QArith Qabs Bool Lia Lqa.
From Stdlib Require Import DecimalString DecimalZ.
From stdpp Require Import base decidable option list gmap strings.

Import ListNotations.
Local Open Scope string_scope.
Local Open Scope list_scope.

(** ** Python string primitives *)

Module Py.

(** [c.lower()] on one ASCII character. *)
Definition lower_ascii (c : ascii) : ascii :=
  let n := nat_of_ascii c in
  if (65 <=? n)%nat && (n <=? 90)%nat then ascii_of_nat (n + 32) else c.

(** [s.lower()] *)
Fixpoint lower (s : string) : string :=
  match s with
  | EmptyString => EmptyString
  | String c s' => String (lower_ascii c) (lower s')
  end.

(** [s.startswith(p)] *)
Fixpoint startswith (p s : string) : bool :=
  match p, s with
  | EmptyString, _ => true
  | String a p', String b s' => Ascii.eqb a b && startswith p' s'
  | String _ _, EmptyString => false
  end.

(** [sub in s] for two strings: substring test. *)
Fixpoint contains (sub s : string) : bool :=
  startswith sub s ||
  match s with
  | EmptyString => false
  | String _ s' => contains sub s'
  end.

(** [any(w in s for w in words)] *)
Definition any_in (words : list string) (s : string) : bool :=
  existsb (fun w => contains w s) words.

(** [x in words] for a string and a list of strings: list membership. *)
Definition elem (x : string) (words : list string) : bool :=
  existsb (String.eqb x) words.

Fixpoint rev_onto (s acc : string) : string :=
  match s with
  | EmptyString => acc
  | String c s' => rev_onto s' (String c acc)
  end.

Definition rev (s : string) : string := rev_onto s EmptyString.

(** [s.endswith(p)] *)
Definition endswith (p s : string) : bool := startswith (rev p) (rev s).

(** The ASCII characters [str.split()] and [str.strip()] treat as
    white space: tab, LF, VT, FF, CR, FS, GS, RS, US and space. *)
Definition isspace (c : ascii) : bool :=
  let n := nat_of_ascii c in
  ((9 <=? n)%nat && (n <=? 13)%nat) || ((28 <=? n)%nat && (n <=? 32)%nat).

Definition mem_ascii (c : ascii) (chars : string) : bool :=
  existsb (Ascii.eqb c) (list_ascii_of_string chars).

Fixpoint lstrip_by (drop : ascii -> bool) (s : string) : string :=
  match s with
  | EmptyString => EmptyString
  | String c s' => if drop c then lstrip_by drop s' else s
  end.

Definition strip_by (drop : ascii -> bool) (s : string) : string :=
  rev (lstrip_by drop (rev (lstrip_by drop s))).

(** [s.strip(chars)] *)
Definition strip_chars (chars s : string) : string :=
  strip_by (fun c => mem_ascii c chars) s.

(** [s.strip()] *)
Definition strip (s : string) : string := strip_by isspace s.

(** [s.split()]: the maximal runs of non-space characters, in order.
    [cur] is the run being read, reversed. *)
Fixpoint split_from (cur : string) (s : string) : list string :=
  match s with
  | EmptyString =>
      match cur with EmptyString => [] | _ => [rev cur] end
  | String c s' =>
      if isspace c then
        match cur with
        | EmptyString => split_from EmptyString s'
        | _ => rev cur :: split_from EmptyString s'
        end
      else split_from (String c cur) s'
  end.

Definition split (s : string) : list string := split_from EmptyString s.

(** [sep.join(parts)] *)
Fixpoint join (sep : string) (parts : list string) : string :=
  match parts with
  | [] => EmptyString
  | [p] => p
  | p :: rest => p ++ sep ++ join sep rest
  end.

(** Truth value of an attribute that is [None] or a [str]. *)
Definition truthy (o : option string) : bool :=
  match o with
  | Some (String _ _) => true
  | _ => false
  end.

(** [random.choice(pool)] when the generator draws [draw]. *)
Definition choice (draw : nat) (pool : list string) : string :=
  nth (draw mod length pool) pool EmptyString.

(** [str(n)] for an integer. *)
Definition str_of_Z (n : Z) : string := NilZero.string_of_int (Z.to_int n).

End Py.
(** ** Exceptions, outcomes and the method monad *)

(** The exceptions the scripts meet.  The first four are subclasses of
    [Exception]; [KeyboardInterrupt] and [SystemExit] derive from
    [BaseException] only, so [except Exception] lets them through. *)
Inductive exn : Type :=
  | WaitTimeoutError
  | UnknownValueError
  | RequestError
  | OtherException (what : string)
  | KeyboardInterrupt
  | SystemExit (code : Z).

Definition is_Exception (e : exn) : bool :=
  match e with
  | KeyboardInterrupt | SystemExit _ => false
  | _ => true
  end.

Inductive outcome (A : Type) : Type :=
  | Ret (a : A)
  | Raise (e : exn).
Arguments Ret {A} a.
Arguments Raise {A} e.

(** A method body over a state [S]. *)
Definition M (S A : Type) : Type := S -> S * outcome A.

Definition ret {S A} (a : A) : M S A := fun s => (s, Ret a).
Definition raise {S A} (e : exn) : M S A := fun s => (s, Raise e).
Definition bind {S A B} (m : M S A) (k : A -> M S B) : M S B :=
  fun s => match m s with
           | (s', Ret a) => k a s'
           | (s', Raise e) => (s', Raise e)
           end.
Definition gets {S A} (f : S -> A) : M S A := fun s => (s, Ret (f s)).
Definition modify {S} (f : S -> S) : M S unit := fun s => (f s, Ret tt).

(** A call of a collaborator: it returns or raises as its oracle says. *)
Definition oracle {S A} (r : outcome A) : M S A := fun s => (s, r).

#[global] Instance M_ret {S} : MRet (M S) := @ret S.
#[global] Instance M_bind {S} : MBind (M S) := fun A B k m => bind m k.

(** [try: m  except ...:]. The clauses are a partial function: the handler
    of the first clause that matches the exception, if any.  An exception
    raised by a handler is not handled again. *)
Definition try_except {S A} (m : M S A) (clauses : exn -> option (M S A))
    : M S A :=
  fun s => match m s with
           | (s', Raise e) =>
               match clauses e with
               | Some handler => handler s'
               | None => (s', Raise e)
               end
           | r => r
           end.

(** [except Exception as e: handler] *)
Definition except_Exception {S A} (handler : exn -> M S A)
    : exn -> option (M S A) :=
  fun e => if is_Exception e then Some (handler e) else None.

(** A bare [except: handler] catches every exception. *)
Definition except_all {S A} (handler : M S A) : exn -> option (M S A) :=
  fun _ => Some handler.

(** [try: m  finally: fin] *)
Definition try_finally {S A} (m : M S A) (fin : M S unit) : M S A :=
  fun s => match m s with
           | (s1, r) =>
               match fin s1 with
               | (s2, Ret _) => (s2, r)
               | (s2, Raise e) => (s2, Raise e)
               end
           end.

(** ** The world outside the object: files and an event log *)

Definition waveform : Type := list Q.

(** Raw audio with its metadata ([speech_recognition.AudioData]). *)
Record AudioData : Type := {
  raw_data : string;
  sample_rate : Z;
  sample_width : Z
}.

Inductive event : Type :=
  | Listen                              (* a capture begins *)
  | Synthesize (text : string)          (* synthesize_response is entered *)
  | Infer (text : string)               (* tts.infer *)
  | Write (path : string) (wav : waveform)  (* sf.write *)
  | Play (path : string)                (* subprocess.run(["afplay", path]) *)
  | Remove (path : string)              (* os.remove / os.unlink *)
  | Combine (chunks : nat)              (* b''.join over that many chunks *)
  | Cleanup.                            (* cleanup() is entered *)

Record world : Type := {
  fs : gset string;        (* the paths that exist *)
  trace : list event       (* what happened, oldest first *)
}.

Definition emit (e : event) : M world unit :=
  modify (fun w => {| fs := fs w; trace := trace w ++ [e] |}).

Definition create (path : string) : M world unit :=
  modify (fun w => {| fs := {[path]} ∪ fs w; trace := trace w |}).

Definition unlink (path : string) : M world unit :=
  modify (fun w => {| fs := fs w ∖ {[path]}; trace := trace w |}).

(** [os.path.exists(path)] *)
Definition os_path_exists (path : string) : M world bool :=
  gets (fun w => bool_decide (path ∈ fs w)).

(** [sf.write(path, wav, 24000)] opens the file, which creates it, and then
    writes the samples.  When the call raises, [created] tells whether it had
    got as far as creating the file: a write that fails on the data leaves
    the file behind, one that cannot open the path does not. *)
Definition sf_write (res : outcome unit) (created : bool) (path : string)
    (wav : waveform) : M world unit :=
  emit (Write path wav);;
  match res with
  | Ret _ => create path
  | Raise ex => (if created then create path else mret tt);; raise ex
  end.

(** [os.remove(path)]: fails on a missing file, else as the oracle says. *)
Definition os_remove (res : outcome unit) (path : string) : M world unit :=
  emit (Remove path);;
  present ← os_path_exists path;
  if present : bool then oracle res;; unlink path
  else raise (OtherException "FileNotFoundError").

(** [subprocess.run(["afplay", path], ...)]: the return code of the player,
    or the exception raised when the process cannot be started. *)
Definition subprocess_run (res : outcome Z) (path : string) : M world Z :=
  emit (Play path);; oracle res.

(** [os.path.join(dir, name)] for a plain file name. *)
Definition path_join (dir name : string) : string :=
  if Py.endswith "/" dir then dir ++ name else dir ++ "/" ++ name.

(** [os.path.abspath(name)] in working directory [cwd], for a plain file
    name. *)
Definition abspath (cwd name : string) : string := path_join cwd name.

(** [s] without its prefix [p], if it starts with [p]. *)
Fixpoint strip_prefix (p s : string) : option string :=
  match p, s with
  | EmptyString, _ => Some s
  | String a p', String b s' =>
      if Ascii.eqb a b then strip_prefix p' s' else None
  | String _ _, EmptyString => None
  end.

(** The [name] with [path = os.path.join(dir, name)], if [path] lies
    directly in [dir]: the entry of [os.listdir(dir)] that [path] is. *)
Definition name_in_dir (dir path : string) : option string :=
  match strip_prefix (path_join dir "") path with
  | Some name => if Py.contains "/" name then None else Some name
  | None => None
  end.

(** Methods of an object with attributes [T] run over the attributes and
    the world. *)
Definition os {T A} (m : M world A) : M (T * world) A :=
  fun s => match m (snd s) with (w', r) => ((fst s, w'), r) end.

Definition self_gets {T A} (f : T -> A) : M (T * world) A :=
  gets (fun s => f (fst s)).

Definition self_modify {T} (f : T -> T) : M (T * world) unit :=
  modify (fun s => (f (fst s), snd s)).

(** ** Counting in event logs *)

Definition is_Synthesize (e : event) : bool :=
  match e with Synthesize _ => true | _ => false end.
Definition is_Listen (e : event) : bool :=
  match e with Listen => true | _ => false end.
Definition is_Cleanup (e : event) : bool :=
  match e with Cleanup => true | _ => false end.
Definition is_Combine (e : event) : bool :=
  match e with Combine _ => true | _ => false end.

Definition count (p : event -> bool) (t : list event) : nat :=
  length (filter (fun e => p e = true) t).

(** The paths handed to [sf.write], in order. *)
Fixpoint written_paths (t : list event) : list string :=
  match t with
  | [] => []
  | Write p _ :: t' => p :: written_paths t'
  | _ :: t' => written_paths t'
  end.

(** ** What one call of [synthesize_response] gets from its collaborators *)

Record synth_env : Type := {
  tts_infer : string -> outcome waveform;  (* self.tts.infer(text, codes, ref) *)
  getcwd : string;                         (* the working directory *)
  uuid4 : string;                          (* str(uuid.uuid4()) *)
  time_ms : Z;                             (* int(time.time() * 1000) *)
  sf_write_result : outcome unit;          (* does sf.write succeed *)
  sf_write_creates : bool;                 (* a failing sf.write leaves the file *)
  afplay : outcome Z;                      (* return code of the player *)
  os_remove_result : outcome unit          (* does os.remove succeed *)
}.

(** How a run of a conversation loop over finitely many scripted turns
    ends: the loop has been left, or it is back at its head with the script
    used up, ready to capture again. *)
Inductive loop_end : Type :=
  | Stopped
  | Listening.

(** ** examples/voice_chat.py *)

Module VoiceChat.

Record t : Type := {
  conversation_history : list (string * string)
}.

Definition init : t := {| conversation_history := [] |}.

Definition append_history (entry : string * string) (self : t) : t :=
  {| conversation_history := conversation_history self ++ [entry] |}.

Record listen_env : Type := {
  recognizer_listen : outcome AudioData;
  recognize_google : AudioData -> outcome string
}.

Definition listen_for_speech (e : listen_env) : M (t * world) (option string) :=
  try_except
    (os (emit Listen);;
     audio ← oracle (recognizer_listen e);
     text ← oracle (recognize_google e audio);
     mret (Some text))
    (fun ex =>
       match ex with
       | WaitTimeoutError => Some (mret None)
       | UnknownValueError => Some (mret None)
       | RequestError => Some (mret None)
       | _ => None
       end).

Definition default_responses : list string :=
  [ "That's really interesting! Tell me more about that.";
    "I understand what you're saying. Can you elaborate on that?";
    "That sounds fascinating! I'd love to hear more.";
    "Thanks for sharing that with me. What else is on your mind?";
    "I appreciate you telling me that. How do you feel about it?";
    "That's a great point. What made you think of that?";
    "I'm listening and learning from our conversation. Please continue." ].

(** [now] is [time.strftime("%I:%M %p")], [draw] what [random] draws. *)
Definition generate_response (now : string) (draw : nat)
    (user_input : string) : string :=
  let user_input_lower := Py.lower user_input in
  if Py.any_in ["hello"; "hi"; "hey"; "good morning"; "good afternoon"]
       user_input_lower then
    "Hello! Nice to meet you. How are you doing today?"
  else if Py.any_in ["how are you"; "how do you do"; "how's it going"]
       user_input_lower then
    "I'm doing great, thank you for asking! I'm excited to have this conversation with you."
  else if Py.any_in ["what"; "who"; "where"; "when"; "why"; "how"]
       user_input_lower then
    "That's an interesting question. I'm still learning, but I'd be happy to discuss it with you."
  else if Py.any_in ["thank"; "thanks"] user_input_lower then
    "You're very welcome! I'm glad I could help."
  else if Py.any_in ["goodbye"; "bye"; "see you"; "farewell"]
       user_input_lower then
    "Goodbye! It was great talking with you. Have a wonderful day!"
  else if Py.any_in ["name"; "call"] user_input_lower then
    "I'm an AI assistant powered by NeuTTS Air. You can call me whatever you'd like!"
  else if Py.any_in ["weather"; "sunny"; "rainy"; "cloudy"]
       user_input_lower then
    "I don't have access to real-time weather data, but I hope you're having a nice day regardless!"
  else if Py.any_in ["time"; "clock"; "hour"; "minute"] user_input_lower then
    "The current time is " ++ now ++ ". How can I help you with your day?"
  else Py.choice draw default_responses.

Definition output_path (e : synth_env) : string :=
  abspath (getcwd e) "temp_response.wav".

Definition synthesize_response (e : synth_env) (response_text : string)
    : M (t * world) unit :=
  os (emit (Synthesize response_text));;
  try_except
    (os (emit (Infer response_text));;
     wav ← oracle (tts_infer e response_text);
     let output_path := output_path e in
     os (sf_write (sf_write_result e) (sf_write_creates e) output_path wav);;
     returncode ← os (subprocess_run (afplay e) output_path);
     present ← os (os_path_exists output_path);
     if present : bool then os (os_remove (os_remove_result e) output_path)
     else mret tt)
    (except_Exception (fun _ => mret tt)).

Record turn_env : Type := {
  ear : listen_env;
  clock : string;
  draw : nat;
  voice : synth_env
}.

Definition exit_words : list string := ["goodbye"; "quit"; "exit"; "stop"].

Fixpoint run_conversation (turns : list turn_env) : M (t * world) loop_end :=
  match turns with
  | [] => mret Listening
  | e :: rest =>
      user_input ← listen_for_speech (ear e);
      match user_input with
      | None => run_conversation rest
      | Some user_input =>
          if Py.any_in exit_words (Py.lower user_input) then
            synthesize_response (voice e)
              "Goodbye! It was great talking with you. Have a wonderful day!";;
            mret Stopped
          else
            self_modify (append_history ("user", user_input));;
            let response := generate_response (clock e) (draw e) user_input in
            self_modify (append_history ("assistant", response));;
            synthesize_response (voice e) response;;
            run_conversation rest
      end
  end.

End VoiceChat.

(** ** examples/push_to_talk_chat.py *)

(** The name-extraction loop shared by [PushToTalkChat.generate_response]
    and [SmartEdgeVoiceChat.generate_smart_response]:

      for i, word in enumerate(words):
          if word.lower() in ['name', 'is', 'am', 'i\'m'] and i + 1 < len(words):
              self.user_name = words[i + 1].strip('.,!?')
              break

    [None] when the loop ends without assigning. *)
Fixpoint name_after_cue (words : list string) : option string :=
  match words with
  | word :: ((next :: _) as rest) =>
      if Py.elem (Py.lower word) ["name"; "is"; "am"; "i'm"]
      then Some (Py.strip_chars ".,!?" next)
      else name_after_cue rest
  | _ => None
  end.

(** The whole "Extract name if mentioned" block, as the new value of
    [self.user_name]. *)
Definition extract_name (user_name : option string) (user_input : string)
    : option string :=
  if negb (Py.truthy user_name)
     && Py.any_in ["my name is"; "i am"; "i'm"] (Py.lower user_input)
  then
    match name_after_cue (Py.split user_input) with
    | Some name => Some name
    | None => user_name
    end
  else user_name.

(** The normalisation step of [synthesize_response]:

      if np.max(np.abs(wav)) > 0:
          wav = wav / np.max(np.abs(wav)) * target

    [np.max] of an empty array raises [ValueError]. *)
Fixpoint np_max (l : list Q) : option Q :=
  match l with
  | [] => None
  | x :: l' =>
      match np_max l' with
      | None => Some x
      | Some m => Some (if Qle_bool m x then x else m)
      end
  end.

Definition peak (wav : waveform) : option Q := np_max (map Qabs wav).

Definition normalize (target : Q) (wav : waveform) : outcome waveform :=
  match peak wav with
  | None => Raise (OtherException "ValueError")
  | Some p =>
      if Qlt_le_dec 0 p
      then Ret (map (fun x => (x / p * target)%Q) wav)
      else Ret wav
  end.

Module PushToTalkChat.

Record t : Type := {
  is_recording : bool;
  audio_data : list AudioData;
  use_whisper : bool;
  conversation_history : list (string * string);
  user_name : option string;
  response_count : nat
}.

(** The attributes [__init__] sets, for either recogniser. *)
Definition init (whisper : bool) : t :=
  {| is_recording := false; audio_data := []; use_whisper := whisper;
     conversation_history := []; user_name := None; response_count := 0 |}.

Definition set_is_recording (b : bool) (self : t) : t :=
  {| is_recording := b; audio_data := audio_data self;
     use_whisper := use_whisper self;
     conversation_history := conversation_history self;
     user_name := user_name self; response_count := response_count self |}.

Definition set_audio_data (l : list AudioData) (self : t) : t :=
  {| is_recording := is_recording self; audio_data := l;
     use_whisper := use_whisper self;
     conversation_history := conversation_history self;
     user_name := user_name self; response_count := response_count self |}.

Record capture_env : Type := {
  (* what recognizer.listen gives the worker, call after call, in the
     calls that end before the key is released *)
  microphone : list (outcome AudioData);
  (* the call of recognizer.listen that is in progress when the key is
     released, if the worker is still in its loop then: what it gives *)
  in_flight : option (outcome AudioData);
  keyboard_wait : outcome unit;               (* keyboard.wait('space') *)
  named_temporary_file : outcome string;      (* the path of the temp file *)
  whisper_transcribe : AudioData -> outcome string;   (* result["text"] *)
  os_unlink_result : outcome unit;
  recognize_google : AudioData -> outcome string
}.

(** The body of the [while self.is_recording] loop, once per answer of
    [recognizer.listen] before the flag is cleared.  An [AudioData]
    object is always true, so every chunk obtained is appended; the
    first exception ends the loop. *)
Fixpoint record_chunks (mic : list (outcome AudioData)) : M (t * world) unit :=
  match mic with
  | [] => mret tt
  | r :: rest =>
      audio_chunk ← oracle r;
      self_modify (fun self =>
        set_audio_data (audio_data self ++ [audio_chunk]) self);;
      record_chunks rest
  end.

Definition record_audio (mic : list (outcome AudioData)) : M (t * world) unit :=
  try_except (record_chunks mic) (except_Exception (fun _ => mret tt)).

(** A stretch of the worker thread, run to its end: whatever it raises
    dies with the thread.  The worker of a capture runs in two stretches,
    up to the release of the key and during the join; the model does not
    interleave it with the main thread any finer. *)
Definition run_thread {S} (body : M S unit) : M S unit :=
  fun s => (fst (body s), Ret tt).

(** The worker is still in its loop after these answers: none of them
    was an exception. *)
Definition still_recording (mic : list (outcome AudioData)) : bool :=
  forallb (fun r => match r with Ret _ => true | Raise _ => false end) mic.

(** [recording_thread.join(timeout=1)].  The worker tests [is_recording]
    at the head of its loop only: a call of [recognizer.listen] that is in
    progress when the flag is cleared runs to its end, and its chunk is
    appended, before the worker leaves the loop.  Such a call lasts about
    0.6 s at most (timeout=0.1, phrase_time_limit=0.5), within the second
    that [join] waits. *)
Definition join_worker (e : capture_env) : M (t * world) unit :=
  if still_recording (microphone e) then
    match in_flight e with
    | Some r => run_thread (record_audio [r])
    | None => mret tt
    end
  else mret tt.

Definition process_with_whisper (e : capture_env) (audio : AudioData)
    : M (t * world) (option string) :=
  try_except
    (tmp_file_path ← oracle (named_temporary_file e);
     os (create tmp_file_path);;
     try_finally
       (result ← oracle (whisper_transcribe e audio);
        let text := Py.strip result in
        match text with
        | EmptyString => mret None
        | _ => mret (Some text)
        end)
       (os (os_remove (os_unlink_result e) tmp_file_path)))
    (except_Exception (fun _ => mret None)).

Definition process_with_google (e : capture_env) (audio : AudioData)
    : M (t * world) (option string) :=
  try_except
    (text ← oracle (recognize_google e audio);
     mret (Some text))
    (fun ex =>
       match ex with
       | UnknownValueError => Some (mret None)
       | RequestError => Some (mret None)
       | _ => None
       end).

(** [sr.AudioData(b''.join(...), chunks[0].sample_rate, chunks[0].sample_width)] *)
Definition combine (first : AudioData) (chunks : list AudioData) : AudioData :=
  {| raw_data := String.concat "" (map raw_data chunks);
     sample_rate := sample_rate first;
     sample_width := sample_width first |}.

Definition listen_with_push_to_talk (e : capture_env)
    : M (t * world) (option string) :=
  try_except
    (os (emit Listen);;
     self_modify (set_is_recording true);;
     self_modify (set_audio_data []);;
     run_thread (record_audio (microphone e));;
     oracle (keyboard_wait e);;
     self_modify (set_is_recording false);;
     join_worker e;;
     chunks ← self_gets audio_data;
     match chunks with
     | [] => mret None
     | first :: _ =>
         os (emit (Combine (length chunks)));;
         let combined_audio := combine first chunks in
         whisper ← self_gets use_whisper;
         if whisper : bool then process_with_whisper e combined_audio
         else process_with_google e combined_audio
     end)
    (except_Exception (fun _ => mret None)).

Definition responses : list string :=
  [ "That's really interesting! Tell me more about that.";
    "I see what you mean. Can you elaborate on that?";
    "That sounds fascinating! What else can you tell me?";
    "Thanks for sharing that. What's your take on it?";
    "I appreciate you telling me that. How do you feel about it?";
    "That's a good point. What made you think of that?";
    "I'm listening! Please continue.";
    "That's something worth discussing. Tell me more.";
    "I find that interesting. What's your perspective?";
    "Thanks for bringing that up. It's definitely worth talking about." ].

(** The reply, computed from the attributes as they are after the
    bookkeeping and the name extraction.  [now] is
    [time.strftime("%I:%M %p")]. *)
Definition reply (now : string) (self : t) (user_input_lower : string) : string :=
  if Py.any_in ["hello"; "hi"; "hey"; "good morning"] user_input_lower then
    match user_name self with
    | Some (String _ _ as name) => "Hey " ++ name ++ "! How's it going today?"
    | _ => "Hi there! Nice to meet you. What's your name?"
    end
  else if Py.any_in ["how are you"; "how's it going"] user_input_lower then
    "I'm doing great! No more audio feedback issues with push-to-talk. How about you?"
  else if Py.any_in ["work"; "job"; "career"] user_input_lower then
    "Work sounds interesting! What do you do for a living?"
  else if Py.any_in ["family"; "parents"; "kids"] user_input_lower then
    "Family is so important! Tell me about yours if you'd like."
  else if Py.any_in ["hobby"; "sport"; "music"; "gaming"] user_input_lower then
    "That sounds fun! What kind of hobbies do you enjoy?"
  else if Py.any_in ["food"; "eat"; "restaurant"] user_input_lower then
    "Food is great! What's your favorite type of cuisine?"
  else if Py.any_in ["time"; "clock"] user_input_lower then
    "It's " ++ now ++ ". How's your day going?"
  else if Py.any_in ["thank"; "thanks"] user_input_lower then
    "You're welcome! I'm happy to help. What else would you like to talk about?"
  else if Py.any_in ["goodbye"; "bye"; "quit"; "exit"] user_input_lower then
    match user_name self with
    | Some (String _ _ as name) =>
        "Goodbye " ++ name ++ "! It was great chatting without audio feedback!"
    | _ => "Goodbye! Thanks for the conversation!"
    end
  else nth (response_count self mod length responses) responses "".

Definition generate_response (now : string) (user_input : string) (self : t)
    : t * string :=
  let user_input_lower := Py.lower user_input in
  let self' :=
    {| is_recording := is_recording self;
       audio_data := audio_data self;
       use_whisper := use_whisper self;
       conversation_history :=
         conversation_history self ++ [("user", user_input)];
       user_name := extract_name (user_name self) user_input;
       response_count := response_count self + 1 |} in
  (self', reply now self' user_input_lower).

(** [str(uuid.uuid4())[:8]] *)
Definition unique_id (e : synth_env) : string := String.substring 0 8 (uuid4 e).

Definition output_path (e : synth_env) : string :=
  abspath (getcwd e) ("temp_response_" ++ unique_id e ++ ".wav").

Definition synthesize_response (e : synth_env) (response_text : string)
    : M (t * world) unit :=
  os (emit (Synthesize response_text));;
  try_except
    (os (emit (Infer response_text));;
     wav ← oracle (tts_infer e response_text);
     wav ← oracle (normalize (8 # 10) wav);
     let output_path := output_path e in
     os (sf_write (sf_write_result e) (sf_write_creates e) output_path wav);;
     returncode ← os (subprocess_run (afplay e) output_path);
     present ← os (os_path_exists output_path);
     if present : bool then os (os_remove (os_remove_result e) output_path)
     else mret tt)
    (except_Exception (fun _ => mret tt)).

Record turn_env : Type := {
  ear : capture_env;
  clock : string;
  voice : synth_env
}.

Definition exit_words : list string :=
  ["goodbye"; "quit"; "exit"; "stop"; "bye"].

(** A method that only touches the attributes, as a method. *)
Definition on_self {A} (f : t -> t * A) : M (t * world) A :=
  fun s => match f (fst s) with (self', a) => ((self', snd s), Ret a) end.

Fixpoint run_conversation (turns : list turn_env) : M (t * world) loop_end :=
  match turns with
  | [] => mret Listening
  | e :: rest =>
      user_input ← listen_with_push_to_talk (ear e);
      match user_input with
      | None => run_conversation rest
      | Some user_input =>
          if Py.any_in exit_words (Py.lower user_input) then
            response ← on_self (generate_response (clock e) user_input);
            synthesize_response (voice e) response;;
            mret Stopped
          else
            response ← on_self (generate_response (clock e) user_input);
            synthesize_response (voice e) response;;
            run_conversation rest
      end
  end.

End PushToTalkChat.

(** ** examples/ultra_fast_voice_chat.py: the synthesis step *)

Module UltraFastVoiceChat.

(** The class keeps no attribute that changes after [__init__]. *)
Definition t : Type := unit.

Definition output_path (e : synth_env) : string :=
  abspath (getcwd e) "temp_response.wav".

Definition synthesize_response (e : synth_env) (response_text : string)
    : M (t * world) unit :=
  os (emit (Synthesize response_text));;
  try_except
    (os (emit (Infer response_text));;
     wav ← oracle (tts_infer e response_text);
     wav ← oracle (normalize (7 # 10) wav);
     let output_path := output_path e in
     os (sf_write (sf_write_result e) (sf_write_creates e) output_path wav);;
     os (subprocess_run (afplay e) output_path);;
     present ← os (os_path_exists output_path);
     if present : bool then os (os_remove (os_remove_result e) output_path)
     else mret tt)
    (except_Exception (fun _ => mret tt)).

(** The capture, the reply rules and the loop of the same class. *)

Record listen_env : Type := {
  recognizer_listen : outcome AudioData;
  recognize_google : AudioData -> outcome string
}.

Definition listen_for_speech (e : listen_env) : M (t * world) (option string) :=
  try_except
    (os (emit Listen);;
     audio ← oracle (recognizer_listen e);
     text ← oracle (recognize_google e audio);
     mret (Some text))
    (fun ex =>
       match ex with
       | WaitTimeoutError => Some (mret None)
       | UnknownValueError => Some (mret None)
       | RequestError => Some (mret None)
       | _ => None
       end).

Definition responses : list string :=
  [ "Interesting!"; "Tell me more."; "I see."; "Thanks!"; "Go on.";
    "Okay."; "Right." ].

(** [now] is [time.strftime("%I:%M")], [draw] what [random] draws. *)
Definition generate_response (now : string) (draw : nat)
    (user_input : string) : string :=
  let user_input_lower := Py.lower user_input in
  if Py.any_in ["hello"; "hi"; "hey"] user_input_lower then
    "Hi! How are you?"
  else if Py.any_in ["how are you"] user_input_lower then
    "I'm good! You?"
  else if Py.any_in ["thank"; "thanks"] user_input_lower then
    "You're welcome!"
  else if Py.any_in ["goodbye"; "bye"; "quit"; "exit"] user_input_lower then
    "Bye! See you later!"
  else if Py.any_in ["time"] user_input_lower then
    "It's " ++ now ++ "."
  else Py.choice draw responses.

Record turn_env : Type := {
  ear : listen_env;
  clock : string;
  draw : nat;
  voice : synth_env
}.

Definition exit_words : list string := ["goodbye"; "bye"; "quit"; "exit"].

Fixpoint run_conversation (turns : list turn_env) : M (t * world) loop_end :=
  match turns with
  | [] => mret Listening
  | e :: rest =>
      user_input ← listen_for_speech (ear e);
      match user_input with
      | None => run_conversation rest
      | Some user_input =>
          if Py.any_in exit_words (Py.lower user_input) then
            synthesize_response (voice e) "Bye! See you later!";;
            mret Stopped
          else
            let response := generate_response (clock e) (draw e) user_input in
            synthesize_response (voice e) response;;
            run_conversation rest
      end
  end.

End UltraFastVoiceChat.

(** ** examples/smart_edge_voice_chat.py: the reply dispatcher *)

Module SmartEdgeVoiceChat.

Record t : Type := {
  conversation_history : list (string * string);
  user_name : option string;
  topics_discussed : gset string;
  response_count : nat
}.

Definition init : t :=
  {| conversation_history := []; user_name := None;
     topics_discussed := ∅; response_count := 0 |}.

(** What one call of [generate_smart_response] reads from outside. *)
Record reply_env : Type := {
  now : string;                 (* time.strftime("%I:%M %p") *)
  day_name : string;            (* time.strftime("%A") *)
  draw : nat;                   (* the draw of random.choice *)
  list_of_set : gset string -> list string
                                (* the order in which list(s) walks a set *)
}.

Definition topics : list (string * list string) :=
  [ ("work", ["work"; "job"; "career"; "office"; "business"; "company"]);
    ("family", ["family"; "parents"; "mother"; "father"; "sister";
                "brother"; "children"; "kids"]);
    ("hobbies", ["hobby"; "hobbies"; "sport"; "music"; "art"; "reading";
                 "gaming"; "travel"]);
    ("food", ["food"; "eat"; "restaurant"; "cooking"; "recipe"; "meal";
              "hungry"]);
    ("weather", ["weather"; "rain"; "sunny"; "cloudy"; "hot"; "cold";
                 "temperature"]);
    ("technology", ["computer"; "phone"; "internet"; "ai"; "technology";
                    "software"; "app"]);
    ("emotions", ["happy"; "sad"; "angry"; "excited"; "tired"; "worried";
                  "nervous"; "calm"]);
    ("time", ["time"; "clock"; "hour"; "minute"; "today"; "tomorrow";
              "yesterday"; "weekend"]);
    ("location", ["home"; "work"; "school"; "store"; "park"; "city";
                  "country"; "travel"]) ].

Definition extract_keywords (text : string) : list string :=
  let text_lower := Py.lower text in
  map fst (filter (fun tw => Py.any_in (snd tw) text_lower = true) topics).

(** [l[-3:]] *)
Definition last3 {A} (l : list A) : list A := skipn (length l - 3) l.

(** [l[0] if l else dflt] *)
Definition first_or (dflt : string) (l : list string) : string :=
  match l with
  | [] => dflt
  | x :: _ => x
  end.

(** The pool of candidate replies the [if]/[elif] chain selects, read
    with the attributes as they are after the bookkeeping. *)
Definition candidates (e : reply_env) (self : t) (keywords : list string)
    (user_input_lower : string) : list string :=
  if Py.any_in ["hello"; "hi"; "hey"; "good morning"; "good afternoon";
                "good evening"] user_input_lower then
    match user_name self with
    | Some (String _ _ as name) =>
        [ ("Hello " ++ name ++ "! Great to see you again. How are you doing today?")%string;
          ("Hi there " ++ name ++ "! I'm doing well, thanks for asking. What's on your mind?")%string;
          ("Hey " ++ name ++ "! Good to chat with you. How has your day been so far?")%string ]
    | _ =>
        [ "Hello! Nice to meet you. I'm an AI assistant running completely offline on your device. What's your name?";
          "Hi there! Great to meet you. I'm processing everything locally for your privacy. What should I call you?";
          "Hey! I'm excited to chat with you. Everything we discuss stays on your device. What's your name?" ]
    end
  else if Py.any_in ["how are you"; "how do you do"; "how's it going";
                     "what's up"] user_input_lower then
    [ "I'm doing great! I love running completely offline on your device. How about you?";
      "I'm fantastic! It's so cool that we can chat with complete privacy. What's going on with you?";
      "I'm wonderful! Being able to process everything locally means your data stays safe. How are you feeling today?";
      "I'm excellent! This edge computing setup is really impressive. What's new with you?";
      "I'm doing really well! I appreciate that we can have this conversation without any cloud processing. How's your day going?" ]
  else if Py.any_in ["what is your name"; "who are you"; "what's your name"]
                    user_input_lower then
    [ "I'm an AI assistant powered by Whisper for speech recognition and NeuTTS Air for voice synthesis. Everything runs locally on your device!";
      "I'm your local AI companion! I use Whisper to understand your speech and NeuTTS Air to respond with this cloned voice, all running offline.";
      "I'm an edge AI assistant! I'm designed to run completely on your device using Whisper and NeuTTS Air for privacy and speed.";
      "I'm your private AI assistant! I use cutting-edge local speech recognition and voice cloning technology, all running on your laptop." ]
  else if Py.any_in ["time"; "clock"; "hour"] user_input_lower then
    [ ("The current time is " ++ now e ++ " on " ++ day_name e ++ ". How's your day going?")%string;
      ("It's " ++ now e ++ " right now. What do you have planned for today?")%string;
      ("The time is " ++ now e ++ ". Is there anything special you'd like to do today?")%string;
      ("It's currently " ++ now e ++ ". How has your " ++ day_name e ++ " been treating you?")%string ]
  else if Py.any_in ["offline"; "local"; "edge"; "privacy"; "private"]
                    user_input_lower then
    [ "Yes! I'm running completely offline. Your voice data never leaves your device, ensuring complete privacy and security.";
      "Absolutely! Everything is processed locally on your device. No cloud, no internet required after setup - just pure privacy.";
      "That's right! I'm an edge AI assistant. All speech recognition and voice synthesis happens on your laptop for maximum privacy.";
      "Exactly! I'm designed for edge computing. Your conversations stay private and secure on your device." ]
  else if Py.elem "technology" keywords
          || Py.any_in ["whisper"; "speech recognition"; "neutts"; "ai"]
                       user_input_lower then
    [ "I'm using Whisper for speech recognition and NeuTTS Air for voice synthesis, both running locally on your device!";
      "The technology is amazing! Whisper handles speech-to-text and NeuTTS Air creates this natural voice, all offline.";
      "It's pretty cool! Whisper understands your speech and NeuTTS Air generates my responses in this cloned voice.";
      "I'm powered by cutting-edge local AI! Whisper for listening and NeuTTS Air for speaking, all on your device." ]
  else if Py.elem "work" keywords then
    [ "Work can be both challenging and rewarding. What kind of work do you do?";
      "I find work discussions really interesting. What's your profession?";
      "Work is such an important part of life. Tell me about your job or career.";
      "I'd love to hear about your work! What field are you in?" ]
  else if Py.elem "family" keywords then
    [ "Family is so important! Tell me about your family if you'd like to share.";
      "I love hearing about families! What's your family like?";
      "Family relationships are so meaningful. I'd be happy to listen if you want to talk about yours.";
      "Family is wonderful! Feel free to share whatever you'd like about your family." ]
  else if Py.elem "hobbies" keywords then
    [ "Hobbies make life so much more interesting! What are your favorite hobbies?";
      "I love talking about hobbies! What do you enjoy doing in your free time?";
      "Hobbies are great for relaxation and fun. What activities do you love?";
      "Personal interests are fascinating! What hobbies do you have?" ]
  else if Py.elem "food" keywords then
    [ "Food brings people together! What kind of cuisine do you enjoy?";
      "I love food discussions! What's your favorite type of food?";
      "Food is such a universal topic! What do you like to eat?";
      "Cooking and eating are such pleasures! What are your food preferences?" ]
  else if Py.elem "emotions" keywords then
    if Py.any_in ["happy"; "excited"; "joyful"; "great"; "wonderful"]
                 user_input_lower then
      [ "That's fantastic! I'm so glad you're feeling positive. What's making you happy?";
        "Wonderful! It's great to hear you're in a good mood. Tell me more!";
        "That's wonderful news! I love hearing when people are happy. What's the good news?";
        "Excellent! Positive emotions are so uplifting. What's going well for you?" ]
    else if Py.any_in ["sad"; "upset"; "disappointed"; "worried"]
                      user_input_lower then
      [ "I'm sorry to hear you're feeling that way. Sometimes it helps to talk about what's bothering you.";
        "I understand that can be difficult. I'm here to listen if you want to share more.";
        "That sounds challenging. Remember that it's okay to feel this way, and talking can help.";
        "I'm sorry you're going through a tough time. Would you like to talk about what's on your mind?" ]
    else
      [ "Emotions are such an important part of being human. How are you feeling about everything?";
        "Feelings can be complex sometimes. I'm here to listen if you want to share.";
        "Emotional well-being is so important. How are you doing emotionally?" ]
  else if Py.any_in ["what"; "who"; "where"; "when"; "why"; "how"]
                    user_input_lower then
    [ "That's an interesting question! I'm still learning, but I'd be happy to discuss it with you.";
      "Great question! While I'm running locally on your device, I'd love to explore that topic together.";
      "That's a thoughtful question! I'm processing everything offline, but let's talk about it.";
      "Interesting point! I'm designed for privacy and local processing, but I enjoy these conversations." ]
  else if Py.any_in ["thank"; "thanks"; "thank you"] user_input_lower then
    [ "You're very welcome! I'm glad I could help. Is there anything else you'd like to discuss?";
      "My pleasure! I love having these conversations while keeping everything private on your device.";
      "You're welcome! It's great that we can chat with complete privacy. What else is on your mind?";
      "Happy to help! I appreciate that we can have this conversation locally. Anything else you'd like to talk about?" ]
  else if Py.any_in ["goodbye"; "bye"; "see you"; "farewell"; "quit"; "exit"]
                    user_input_lower then
    match user_name self with
    | Some (String _ _ as name) =>
        [ ("Goodbye " ++ name ++ "! It was great talking with you. Thanks for using our private edge chat system!")%string;
          ("See you later " ++ name ++ "! I enjoyed our conversation. Everything stayed private on your device.")%string;
          ("Bye " ++ name ++ "! Thanks for the chat. Your privacy was completely protected throughout our conversation.")%string;
          ("Farewell " ++ name ++ "! It was wonderful talking with you using this local AI system.")%string ]
    | _ =>
        [ "Goodbye! It was great talking with you. Thanks for using the edge voice chat system!";
          "See you later! I enjoyed our conversation. Everything stayed private on your device.";
          "Bye! Thanks for the chat. Your privacy was completely protected throughout our conversation.";
          "Farewell! It was wonderful talking with you using this local AI system." ]
    end
  else if (2 <? length (conversation_history self))%nat then
    let recent_topics := last3 (list_of_set e (topics_discussed self)) in
    match recent_topics with
    | _ :: _ =>
        [ ("That's interesting! Building on what we were discussing about " ++ Py.join ", " recent_topics ++ ", I'd love to hear more.")%string;
          ("Great point! This relates to our earlier conversation about " ++ first_or "things" recent_topics ++ ". Tell me more.")%string;
          ("I see what you mean! This connects to our discussion about " ++ first_or "topics" recent_topics ++ ". What else can you share?")%string;
          ("That's a good perspective! It reminds me of what we talked about regarding " ++ first_or "various topics" recent_topics ++ ". Continue!")%string ]
    | [] =>
        [ "That's really interesting! I'm learning a lot from our conversation. Please continue.";
          "I find that fascinating! Our conversation is getting quite engaging. Tell me more.";
          "That's a great point! I'm enjoying our chat. What else would you like to share?";
          "Interesting perspective! I'm processing everything locally and learning from our discussion. Go on!" ]
    end
  else
    [ "That's really interesting! I'm processing this completely offline on your device. Tell me more about that.";
      "I understand what you're saying. All my responses are generated locally for your privacy. Can you elaborate?";
      "Thanks for sharing that with me. Your data stays on your device. What else is on your mind?";
      "That's fascinating! I'm running entirely offline. I'd love to hear more about your thoughts.";
      "I appreciate you telling me that. Everything is processed locally. How do you feel about it?";
      "That's a great point. All processing happens on your device for privacy. What made you think of that?";
      "I'm listening and learning, all while keeping your data private and local. Please continue.";
      "That's something I hadn't thought about. Can you tell me more? I'm processing everything offline.";
      "I find that really interesting. What's your perspective on this? Everything stays on your device.";
      "Thanks for bringing that up. It's definitely worth discussing, and our conversation stays private.";
      "That's a thoughtful comment. What else would you like to share? I'm here to listen.";
      "I appreciate your input. This is a great conversation, and it's all happening locally on your device.";
      "That's an interesting way to look at it. Tell me more about your thoughts on this.";
      "I'm enjoying our chat. What other topics interest you? Everything we discuss stays private.";
      "That's worth thinking about. What are your thoughts on this? I'm processing everything offline." ].

Definition generate_smart_response (e : reply_env) (user_input : string)
    (self : t) : t * string :=
  let user_input_lower := Py.lower user_input in
  let keywords := extract_keywords user_input in
  let self' :=
    {| conversation_history :=
         conversation_history self ++ [("user", user_input)];
       user_name := extract_name (user_name self) user_input;
       topics_discussed := topics_discussed self ∪ list_to_set keywords;
       response_count := response_count self + 1 |} in
  (self', Py.choice (draw e) (candidates e self' keywords user_input_lower)).

(** The capture with either recogniser, the synthesis step and the loop
    of the same class. *)

Record listen_env : Type := {
  recognizer_listen : outcome AudioData;
  named_temporary_file : outcome string;      (* the path of the temp file *)
  whisper_transcribe : AudioData -> outcome string;   (* result["text"] *)
  os_unlink_result : outcome unit;
  recognize_google : AudioData -> outcome string
}.

Definition listen_for_speech_whisper (e : listen_env)
    : M (t * world) (option string) :=
  try_except
    (os (emit Listen);;
     audio ← oracle (recognizer_listen e);
     tmp_file_path ← oracle (named_temporary_file e);
     os (create tmp_file_path);;
     try_finally
       (result ← oracle (whisper_transcribe e audio);
        let text := Py.strip result in
        match text with
        | EmptyString => mret None
        | _ => mret (Some text)
        end)
       (os (os_remove (os_unlink_result e) tmp_file_path)))
    (except_Exception (fun _ => mret None)).

Definition listen_for_speech_google (e : listen_env)
    : M (t * world) (option string) :=
  try_except
    (os (emit Listen);;
     audio ← oracle (recognizer_listen e);
     text ← oracle (recognize_google e audio);
     mret (Some text))
    (fun ex =>
       match ex with
       | WaitTimeoutError => Some (mret None)
       | UnknownValueError => Some (mret None)
       | RequestError => Some (mret None)
       | _ => None
       end).

(** [use_whisper] is fixed by [__init__]; it is a parameter here. *)
Definition listen_for_speech (use_whisper : bool) (e : listen_env)
    : M (t * world) (option string) :=
  if use_whisper then listen_for_speech_whisper e
  else listen_for_speech_google e.

Definition output_path (e : synth_env) : string :=
  abspath (getcwd e) "temp_response.wav".

Definition synthesize_response (e : synth_env) (response_text : string)
    : M (t * world) unit :=
  os (emit (Synthesize response_text));;
  try_except
    (os (emit (Infer response_text));;
     wav ← oracle (tts_infer e response_text);
     wav ← oracle (normalize (8 # 10) wav);
     let output_path := output_path e in
     os (sf_write (sf_write_result e) (sf_write_creates e) output_path wav);;
     returncode ← os (subprocess_run (afplay e) output_path);
     present ← os (os_path_exists output_path);
     if present : bool then os (os_remove (os_remove_result e) output_path)
     else mret tt)
    (except_Exception (fun _ => mret tt)).

Record turn_env : Type := {
  ear : listen_env;
  mind : reply_env;
  voice : synth_env
}.

Definition exit_words : list string :=
  ["goodbye"; "quit"; "exit"; "stop"; "bye"].

Definition on_self {A} (f : t -> t * A) : M (t * world) A :=
  fun s => match f (fst s) with (self', a) => ((self', snd s), Ret a) end.

Fixpoint run_conversation (use_whisper : bool) (turns : list turn_env)
    : M (t * world) loop_end :=
  match turns with
  | [] => mret Listening
  | e :: rest =>
      user_input ← listen_for_speech use_whisper (ear e);
      match user_input with
      | None => run_conversation use_whisper rest
      | Some user_input =>
          if Py.any_in exit_words (Py.lower user_input) then
            response ← on_self (generate_smart_response (mind e) user_input);
            synthesize_response (voice e) response;;
            mret Stopped
          else
            response ← on_self (generate_smart_response (mind e) user_input);
            synthesize_response (voice e) response;;
            run_conversation use_whisper rest
      end
  end.

End SmartEdgeVoiceChat.

(** ** examples/clean_exit_voice_chat.py *)

Module CleanExitVoiceChat.

Record t : Type := {
  running : bool;
  use_whisper : bool;
  conversation_history : list (string * string)
}.

(** The attributes after [__init__], which also installs
    [signal_handler] for SIGINT and SIGTERM. *)
Definition init : t :=
  {| running := true; use_whisper := true; conversation_history := [] |}.

Definition set_running (b : bool) (self : t) : t :=
  {| running := b; use_whisper := use_whisper self;
     conversation_history := conversation_history self |}.

Definition append_history (entry : string * string) (self : t) : t :=
  {| running := running self; use_whisper := use_whisper self;
     conversation_history := conversation_history self ++ [entry] |}.

(** What [cleanup] reads from outside. *)
Record cleanup_env : Type := {
  gettempdir : string;                  (* tempfile.gettempdir() *)
  listdir_error : option string;        (* the OSError of os.listdir, if any *)
  remove_fails : string -> bool         (* does os.remove(path) raise *)
}.

(** [file.startswith("temp_response_") and file.endswith(".wav")] for the
    entry of [temp_dir] that [path] is. *)
Definition is_temp_response (temp_dir path : string) : bool :=
  match name_in_dir temp_dir path with
  | Some file =>
      Py.startswith "temp_response_" file && Py.endswith ".wav" file
  | None => false
  end.

(** [os.listdir(temp_dir)]: the names of the files directly in
    [temp_dir], or an [OSError].  Python lists them in no particular
    order; here they come in the order of [elements]. *)
Definition os_listdir (c : cleanup_env) : M world (list string) :=
  match listdir_error c with
  | Some what => raise (OtherException what)
  | None =>
      gets (fun w => omap (name_in_dir (gettempdir c)) (elements (fs w)))
  end.

(** [os.remove(path)] on a listed file. *)
Definition remove_listed (c : cleanup_env) (path : string) : M world unit :=
  os_remove
    (if remove_fails c path then Raise (OtherException "OSError")
     else Ret tt)
    path.

(** The loop over the listing: every matching entry is removed; a
    failure is swallowed by the bare [except]. *)
Fixpoint sweep (c : cleanup_env) (listing : list string) : M world unit :=
  match listing with
  | [] => mret tt
  | file :: rest =>
      (if Py.startswith "temp_response_" file && Py.endswith ".wav" file
       then try_except
              (remove_listed c (path_join (gettempdir c) file))
              (except_all (mret tt))
       else mret tt);;
      sweep c rest
  end.

(** "Clean up temporary files": the listing, then the loop. *)
Definition remove_temp_files (c : cleanup_env) : M world unit :=
  listing ← os_listdir c;
  sweep c listing.

(** [cleanup], and the signal handler that may interrupt it.  Signals are
    delivered at two points of the program: while [recognizer.listen]
    blocks, and while [cleanup] runs its [pkill] commands.  [signals]
    lists the signals that arrive during this call of [cleanup] and during
    the calls nested in it: the head arrives during this call, the next
    one during the call made by the handler of the head, and so on. *)
Fixpoint cleanup (c : cleanup_env) (signals : list Z) : M (t * world) unit :=
  os (emit Cleanup);;
  try_except
    (match signals with
     | [] => mret tt
     | signum :: later =>
         (* signal_handler(signum, frame), between the two pkill calls *)
         self_modify (set_running false);;
         cleanup c later;;
         raise (SystemExit 0)
     end;;
     os (remove_temp_files c))
    (except_Exception (fun _ => mret tt)).

(** [signals]: the signals that arrive while the handler cleans up. *)
Definition signal_handler (c : cleanup_env) (signals : list Z) (signum : Z)
    : M (t * world) unit :=
  self_modify (set_running false);;
  cleanup c signals;;
  raise (SystemExit 0).

Record listen_env : Type := {
  (* a signal delivered while recognizer.listen blocks, and the signals
     that follow it during the cleanup it starts *)
  signal : option (Z * list Z);
  recognizer_listen : outcome AudioData;
  named_temporary_file : outcome string;
  whisper_transcribe : AudioData -> outcome string;   (* result["text"] *)
  os_unlink_result : outcome unit;
  recognize_google : AudioData -> outcome string
}.

Definition process_with_whisper (e : listen_env) (audio : AudioData)
    : M (t * world) (option string) :=
  try_except
    (tmp_file_path ← oracle (named_temporary_file e);
     os (create tmp_file_path);;
     try_finally
       (still_running ← self_gets running;
        if negb still_running then mret None
        else
          result ← oracle (whisper_transcribe e audio);
          let text := Py.strip result in
          still_running ← self_gets running;
          match text with
          | String _ _ => if still_running : bool then mret (Some text)
                          else mret None
          | EmptyString => mret None
          end)
       (try_except
          (os (os_remove (os_unlink_result e) tmp_file_path))
          (except_all (mret tt))))
    (except_Exception (fun _ => mret None)).

Definition process_with_google (e : listen_env) (audio : AudioData)
    : M (t * world) (option string) :=
  try_except
    (text ← oracle (recognize_google e audio);
     still_running ← self_gets running;
     match text with
     | String _ _ => if still_running : bool then mret (Some text)
                     else mret None
     | EmptyString => mret None
     end)
    (fun ex =>
       match ex with
       | UnknownValueError => Some (mret None)
       | RequestError => Some (mret None)
       | _ => None
       end).

Definition listen_for_speech (c : cleanup_env) (e : listen_env)
    : M (t * world) (option string) :=
  is_running ← self_gets running;
  if negb is_running then mret None
  else
    try_except
      (os (emit Listen);;
       audio ←
         match signal e with
         | Some (signum, later) =>
             signal_handler c later signum;; oracle (recognizer_listen e)
         | None => oracle (recognizer_listen e)
         end;
       is_running ← self_gets running;
       if negb is_running then mret None
       else
         whisper ← self_gets use_whisper;
         if whisper : bool then process_with_whisper e audio
         else process_with_google e audio)
      (fun ex =>
         match ex with
         | WaitTimeoutError => Some (mret None)
         | KeyboardInterrupt =>
             Some (self_modify (set_running false);; mret None)
         | SystemExit _ => None
         | _ => Some (mret None)
         end).

Definition greetings : list string :=
  [ "Hello! Great to meet you! I'm your local AI assistant.";
    "Hi there! I'm running completely offline on your device.";
    "Hey! Nice to chat with you. What would you like to talk about?" ].

Definition general (user_input : string) : list string :=
  [ ("That's interesting! Tell me more about "
       ++ List.last (Py.split user_input) "that" ++ ".")%string;
    "I understand. From a privacy perspective, that's really important.";
    "Thanks for sharing that with me. What else would you like to discuss?";
    "That's a great point. Since we're talking locally, I can be completely honest with you.";
    "Fascinating! I'm processing this entirely on your device, so our conversation is completely private." ].

(** [responses[len(self.conversation_history) % len(responses)]] *)
Definition rotate (history : list (string * string)) (pool : list string)
    : string :=
  nth (length history mod length pool) pool "".

Definition generate_response (user_input : string) (self : t) : t * string :=
  let self1 := append_history ("user", user_input) self in
  let user_lower := Py.lower user_input in
  let response :=
    if Py.any_in ["hello"; "hi"; "hey"; "good morning"; "good afternoon";
                  "good evening"] user_lower then
      rotate (conversation_history self1) greetings
    else if Py.any_in ["what can you do"; "capabilities"; "help";
                       "what are you"] user_lower then
      "I'm a privacy-focused voice assistant running entirely on your device. I can have conversations, answer questions, and help with various tasks - all while keeping your data completely private!"
    else if Py.any_in ["privacy"; "data"; "cloud"; "offline"] user_lower then
      "That's my specialty! Everything we discuss stays right here on your device. No data goes to the cloud, no companies can access our conversation. It's complete privacy!"
    else if Py.any_in ["how"; "technology"; "whisper"; "neutts"; "voice"]
                      user_lower then
      "I use OpenAI Whisper for speech recognition and NeuTTS Air for voice synthesis. Both run locally on your device, giving you powerful AI without compromising your privacy."
    else if Py.any_in ["goodbye"; "bye"; "see you"; "farewell"] user_lower then
      "Goodbye! It was wonderful talking with you. Remember, everything we discussed stayed private on your device. Take care!"
    else rotate (conversation_history self1) (general user_input) in
  (append_history ("assistant", response) self1, response).

Definition output_path (e : synth_env) : string :=
  abspath (getcwd e) ("temp_response_" ++ Py.str_of_Z (time_ms e) ++ ".wav").

Definition synthesize_response (e : synth_env) (response_text : string)
    : M (t * world) unit :=
  os (emit (Synthesize response_text));;
  is_running ← self_gets running;
  if negb is_running then mret tt
  else
    try_except
      (os (emit (Infer response_text));;
       wav ← oracle (tts_infer e response_text);
       let output_path := output_path e in
       os (sf_write (sf_write_result e) (sf_write_creates e) output_path wav);;
       is_running ← self_gets running;
       if negb is_running then mret tt
       else
         returncode ← os (subprocess_run (afplay e) output_path);
         try_except
           (present ← os (os_path_exists output_path);
            if present : bool
            then os (os_remove (os_remove_result e) output_path)
            else mret tt)
           (except_all (mret tt)))
      (except_Exception (fun _ => mret tt)).

Record turn_env : Type := {
  ear : listen_env;
  voice : synth_env
}.

Definition exit_words : list string :=
  ["goodbye"; "quit"; "exit"; "stop"; "bye"].

Definition on_self {A} (f : t -> t * A) : M (t * world) A :=
  fun s => match f (fst s) with (self', a) => ((self', snd s), Ret a) end.

(** The [while self.running] loop. *)
Fixpoint conversation_loop (c : cleanup_env) (turns : list turn_env)
    : M (t * world) loop_end :=
  is_running ← self_gets running;
  if negb is_running then mret Stopped
  else
    match turns with
    | [] => mret Listening
    | e :: rest =>
        user_input ← listen_for_speech c (ear e);
        is_running ← self_gets running;
        if negb is_running then mret Stopped
        else
          match user_input with
          | None => conversation_loop c rest
          | Some user_input =>
              if Py.any_in exit_words (Py.lower user_input) then
                synthesize_response (voice e)
                  "Goodbye! Thanks for using the clean exit voice chat. Everything processed locally for your privacy!";;
                mret Stopped
              else
                response ← on_self (generate_response user_input);
                synthesize_response (voice e) response;;
                conversation_loop c rest
          end
    end.

(** [run_conversation]: the loop inside [try] ... [except
    KeyboardInterrupt] ... [finally: self.cleanup()].  While the loop is
    still waiting for input nothing after it has run.  [final_signals]
    are the signals that arrive during the [cleanup] of the [finally]
    block. *)
Definition run_conversation (c : cleanup_env) (turns : list turn_env)
    (final_signals : list Z) : M (t * world) loop_end :=
  fun s =>
    match conversation_loop c turns s with
    | (s', Ret Listening) => (s', Ret Listening)
    | (s', r) =>
        try_finally
          (try_except (oracle r)
             (fun ex =>
                match ex with
                | KeyboardInterrupt => Some (mret Stopped)
                | _ => None
                end))
          (cleanup c final_signals) s'
    end.

(** [main], from the call of [run_conversation] on. *)
Definition main (c : cleanup_env) (turns : list turn_env)
    (final_signals : list Z) : M (t * world) loop_end :=
  try_finally
    (try_except (run_conversation c turns final_signals)
       (except_Exception (fun _ => mret Stopped)))
    (mret tt).

(** The exit status of the interpreter when [main] ends that way; [None]
    while the loop is still waiting for input. *)
Definition exit_status (r : outcome loop_end) : option Z :=
  match r with
  | Ret Listening => None
  | Ret Stopped => Some 0%Z
  | Raise (SystemExit code) => Some code
  | Raise KeyboardInterrupt => Some 130%Z
  | Raise _ => Some 1%Z
  end.

End CleanExitVoiceChat.

(** * Vocabulary of the properties *)

(** [w] occurs in [s]. *)
Definition is_substring (w s : string) : Prop :=
  exists pre post : string, s = (pre ++ w ++ post)%string.

(** The transcript contains one of [words], case-insensitively. *)
Definition says_one_of (words : list string) (transcript : string) : Prop :=
  exists w, In w words /\ is_substring w (Py.lower transcript).

(** An oracle answer that is not an interrupt: a value, or an exception
    that [except Exception] catches. *)
Definition calm {A} (r : outcome A) : Prop :=
  match r with
  | Raise ex => is_Exception ex = true
  | Ret _ => True
  end.

(** No [KeyboardInterrupt] or [SystemExit] hits the synthesis step. *)
Record no_interrupt (e : synth_env) : Prop := {
  calm_infer : forall text, calm (tts_infer e text);
  calm_write : calm (sf_write_result e);
  calm_play : calm (afplay e);
  calm_remove : calm (os_remove_result e)
}.

(** Events among which nothing is captured and nothing is synthesised. *)
Definition quiet (tail : list event) : Prop :=
  count is_Synthesize tail = 0%nat /\ count is_Listen tail = 0%nat.

(** The waveforms handed to [sf.write], in order. *)
Fixpoint written_waves (t : list event) : list waveform :=
  match t with
  | [] => []
  | Write _ wav :: t' => wav :: written_waves t'
  | _ :: t' => written_waves t'
  end.

(** How often [cleanup] has been entered. *)
Definition cleanups {T} (s : T * world) : nat :=
  count is_Cleanup (trace (snd s)).

(** A world in which nothing has happened yet. *)
Definition fresh_world (files : gset string) : world :=
  {| fs := files; trace := [] |}.

Module VoiceChatSpec.
Import VoiceChat.

(** What the recogniser makes of the turn's audio, if anything. *)
Definition heard (e : listen_env) : option string :=
  match recognizer_listen e with
  | Ret audio =>
      match recognize_google e audio with
      | Ret text => Some text
      | Raise _ => None
      end
  | Raise _ => None
  end.

(** The capture of the turn succeeds or fails with one of the per-turn
    capture errors: time-out, unintelligible speech, service failure. *)
Definition capture_errors_only (e : listen_env) : Prop :=
  match recognizer_listen e with
  | Ret audio =>
      match recognize_google e audio with
      | Ret _ => True
      | Raise ex => ex = UnknownValueError \/ ex = RequestError
      end
  | Raise ex => ex = WaitTimeoutError
  end.

(** The turn ends in a capture time-out or in unintelligible speech. *)
Definition nothing_understood (e : listen_env) : Prop :=
  recognizer_listen e = Raise WaitTimeoutError \/
  exists audio, recognizer_listen e = Ret audio /\
                recognize_google e audio = Raise UnknownValueError.

(** Every failure of the turn is local to it: a capture error as above,
    a synthesis or playback failure that is an [Exception]. *)
Definition per_turn_errors_only (e : turn_env) : Prop :=
  capture_errors_only (ear e) /\ no_interrupt (voice e).

(** The state after a capture attempt: one more [Listen] in the log. *)
Definition listened (s : t * world) : t * world :=
  (fst s, {| fs := fs (snd s); trace := trace (snd s) ++ [Listen] |}).

(** The transcript of the turn matches an exit word of the script. *)
Definition asks_to_exit (e : turn_env) : Prop :=
  exists transcript,
    heard (ear e) = Some transcript /\ says_one_of exit_words transcript.
End VoiceChatSpec.

Module PushToTalkSpec.
Import PushToTalkChat.

(** The chunks the worker appends: those the microphone delivers before
    its first failure. *)
Fixpoint appended (mic : list (outcome AudioData)) : list AudioData :=
  match mic with
  | Ret chunk :: rest => chunk :: appended rest
  | _ => []
  end.

(** The attributes when the key has been released, with the chunks the
    worker has left. *)
Definition released (self : t) (chunks : list AudioData) : t :=
  set_is_recording false
    (set_audio_data chunks (set_is_recording true self)).

(** The dispatcher run over a sequence of utterances, each with the
    reading of the clock at that call: the replies, and the attributes at
    the end. *)
Fixpoint replies (calls : list (string * string)) (self : t) : list string :=
  match calls with
  | [] => []
  | (utterance, now) :: rest =>
      let (self', r) := generate_response now utterance self in
      r :: replies rest self'
  end.

Fixpoint after (calls : list (string * string)) (self : t) : t :=
  match calls with
  | [] => self
  | (utterance, now) :: rest =>
      after rest (fst (generate_response now utterance self))
  end.
End PushToTalkSpec.

Module SmartEdgeSpec.
Import SmartEdgeVoiceChat.

Fixpoint replies (calls : list (string * reply_env)) (self : t) : list string :=
  match calls with
  | [] => []
  | (utterance, e) :: rest =>
      let (self', r) := generate_smart_response e utterance self in
      r :: replies rest self'
  end.

Fixpoint after (calls : list (string * reply_env)) (self : t) : t :=
  match calls with
  | [] => self
  | (utterance, e) :: rest =>
      after rest (fst (generate_smart_response e utterance self))
  end.
End SmartEdgeSpec.

(** ** Concrete sessions *)

Module Scenario.

Definition chunk : AudioData :=
  {| raw_data := "RIFF"; sample_rate := 16000%Z; sample_width := 2%Z |}.

(** A synthesis step in which every collaborator works. *)
Definition studio : synth_env :=
  {| tts_infer := fun _ => Ret [1 # 2; - (1 # 4)];
     getcwd := "/home/user/voice";
     uuid4 := "123e4567-e89b-12d3-a456-426614174000";
     time_ms := 1730000000123;
     sf_write_result := Ret tt;
     sf_write_creates := false;
     afplay := Ret 0%Z;
     os_remove_result := Ret tt |}.

(** The same on a machine without the [afplay] program:
    [subprocess.run] raises [FileNotFoundError]. *)
Definition no_player : synth_env :=
  {| tts_infer := tts_infer studio;
     getcwd := getcwd studio;
     uuid4 := uuid4 studio;
     time_ms := time_ms studio;
     sf_write_result := Ret tt;
     sf_write_creates := false;
     afplay := Raise (OtherException "FileNotFoundError");
     os_remove_result := Ret tt |}.

(** The same a little later, with the next uuid. *)
Definition studio_again : synth_env :=
  {| tts_infer := tts_infer studio;
     getcwd := getcwd studio;
     uuid4 := "9b2d1c3a-0f4e-4c6b-8a7d-5e6f7a8b9c0d";
     time_ms := 1730000004567;
     sf_write_result := Ret tt;
     sf_write_creates := false;
     afplay := Ret 0%Z;
     os_remove_result := Ret tt |}.

(** Another synthesis step whose uuid starts with the same eight
    characters as the uuid of [studio]. *)
Definition studio_twin : synth_env :=
  {| tts_infer := tts_infer studio;
     getcwd := getcwd studio;
     uuid4 := "123e4567-77aa-4f0b-9c1d-0a1b2c3d4e5f";
     time_ms := 1730000009876;
     sf_write_result := Ret tt;
     sf_write_creates := false;
     afplay := Ret 0%Z;
     os_remove_result := Ret tt |}.

(** The same with a TTS engine that fails. *)
Definition broken_tts : synth_env :=
  {| tts_infer := fun _ => Raise (OtherException "RuntimeError");
     getcwd := getcwd studio;
     uuid4 := uuid4 studio;
     time_ms := time_ms studio;
     sf_write_result := Ret tt;
     sf_write_creates := false;
     afplay := Ret 0%Z;
     os_remove_result := Ret tt |}.

(** A [VoiceChat] turn in which the user is understood to say [text],
    answered through [voice]. *)
Definition voice_chat_turn (voice : synth_env) (text : string)
    : VoiceChat.turn_env :=
  {| VoiceChat.ear :=
       {| VoiceChat.recognizer_listen := Ret chunk;
          VoiceChat.recognize_google := fun _ => Ret text |};
     VoiceChat.clock := "09:00 AM";
     VoiceChat.draw := 3;
     VoiceChat.voice := voice |}.

Definition voice_chat_says (text : string) : VoiceChat.turn_env :=
  voice_chat_turn studio text.

(** A [VoiceChat] turn in which the speech is not understood. *)
Definition voice_chat_mumble : VoiceChat.turn_env :=
  {| VoiceChat.ear :=
       {| VoiceChat.recognizer_listen := Ret chunk;
          VoiceChat.recognize_google := fun _ => Raise UnknownValueError |};
     VoiceChat.clock := "09:00 AM";
     VoiceChat.draw := 3;
     VoiceChat.voice := studio |}.

(** A [VoiceChat] turn in which nobody speaks. *)
Definition voice_chat_silence : VoiceChat.turn_env :=
  {| VoiceChat.ear :=
       {| VoiceChat.recognizer_listen := Raise WaitTimeoutError;
          VoiceChat.recognize_google := fun _ => Raise UnknownValueError |};
     VoiceChat.clock := "09:00 AM";
     VoiceChat.draw := 3;
     VoiceChat.voice := studio |}.

(** A push-to-talk capture: the worker gets [chunks] from the microphone,
    the key is released, Whisper hears [text]. *)
Definition held_key (chunks : list (outcome AudioData)) (text : string)
    : PushToTalkChat.capture_env :=
  {| PushToTalkChat.microphone := chunks;
     PushToTalkChat.in_flight := None;
     PushToTalkChat.keyboard_wait := Ret tt;
     PushToTalkChat.named_temporary_file := Ret "/tmp/tmpk3v9x2.wav";
     PushToTalkChat.whisper_transcribe := fun _ => Ret (" " ++ text)%string;
     PushToTalkChat.os_unlink_result := Ret tt;
     PushToTalkChat.recognize_google := fun _ => Ret text |}.

Definition push_to_talk_turn (voice : synth_env) (text : string)
    : PushToTalkChat.turn_env :=
  {| PushToTalkChat.ear := held_key [Ret chunk; Ret chunk] text;
     PushToTalkChat.clock := "09:00 AM";
     PushToTalkChat.voice := voice |}.

Definition push_to_talk_says (text : string) : PushToTalkChat.turn_env :=
  push_to_talk_turn studio text.

Definition voice_chat_start : VoiceChat.t * world :=
  (VoiceChat.init, fresh_world ∅).

Definition push_to_talk_start : PushToTalkChat.t * world :=
  (PushToTalkChat.init true, fresh_world ∅).

Definition ultra_fast_start : UltraFastVoiceChat.t * world :=
  (tt, fresh_world ∅).

(** The temp directory of a machine on which every deletion works. *)
Definition temp_dir : CleanExitVoiceChat.cleanup_env :=
  {| CleanExitVoiceChat.gettempdir := "/tmp";
     CleanExitVoiceChat.listdir_error := None;
     CleanExitVoiceChat.remove_fails := fun _ => false |}.

(** A [CleanExitVoiceChat] turn: [signals] arrive during the capture, if
    any; otherwise Whisper hears [text]. *)
Definition clean_exit_turn (signals : option (Z * list Z)) (text : string)
    : CleanExitVoiceChat.turn_env :=
  {| CleanExitVoiceChat.ear :=
       {| CleanExitVoiceChat.signal := signals;
          CleanExitVoiceChat.recognizer_listen := Ret chunk;
          CleanExitVoiceChat.named_temporary_file :=
            Ret "/tmp/tmpk3v9x2.wav";
          CleanExitVoiceChat.whisper_transcribe := fun _ => Ret text;
          CleanExitVoiceChat.os_unlink_result := Ret tt;
          CleanExitVoiceChat.recognize_google := fun _ => Ret text |};
     CleanExitVoiceChat.voice := studio |}.

Definition clean_exit_start : CleanExitVoiceChat.t * world :=
  (CleanExitVoiceChat.init,
   fresh_world {[ "/tmp/temp_response_1729999999000.wav" ]}).

(** A Monday morning on which [random] draws [n]. *)
Definition monday (n : nat) : SmartEdgeVoiceChat.reply_env :=
  {| SmartEdgeVoiceChat.now := "09:00 AM";
     SmartEdgeVoiceChat.day_name := "Monday";
     SmartEdgeVoiceChat.draw := n;
     SmartEdgeVoiceChat.list_of_set := elements |}.

(** Profiles in which the user has already given a name. *)
Definition push_to_talk_knows (name : string) : PushToTalkChat.t :=
  {| PushToTalkChat.is_recording := false;
     PushToTalkChat.audio_data := [];
     PushToTalkChat.use_whisper := true;
     PushToTalkChat.conversation_history := [("user", "call me " ++ name)%string];
     PushToTalkChat.user_name := Some name;
     PushToTalkChat.response_count := 1 |}.

Definition smart_edge_knows (name : string) : SmartEdgeVoiceChat.t :=
  {| SmartEdgeVoiceChat.conversation_history :=
       [("user", "call me " ++ name)%string];
     SmartEdgeVoiceChat.user_name := Some name;
     SmartEdgeVoiceChat.topics_discussed := ∅;
     SmartEdgeVoiceChat.response_count := 1 |}.

End Scenario.

(** ** Proof tools *)

(** Unfold the monad of a method body. *)
Ltac run_monad :=
  cbv [mbind mret M_bind M_ret bind ret raise gets modify oracle try_except
       try_finally except_Exception except_all os self_gets self_modify emit
       create unlink os_path_exists sf_write os_remove subprocess_run];
  cbn [fst snd fs trace].

(** Split on the innermost scrutinee left in the goal. *)
Ltac split_cases :=
  repeat match goal with
         | |- context [match ?x with _ => _ end] =>
             lazymatch x with
             | context [match _ with _ => _ end] => fail
             | _ => destruct x eqn:?; cbn [fst snd fs trace]
             end
         end.

(** Use [calm] hypotheses against the case at hand. *)
Ltac use_calm :=
  repeat match goal with
         | H : ?x = Raise _, H' : calm ?x |- _ => rewrite H in H'; cbn in H'
         end;
  try congruence.

(** ** Vocabulary of the further properties *)

(** No character of [s] is white space. *)
Fixpoint spaceless (s : string) : bool :=
  match s with
  | EmptyString => true
  | String c s' => negb (Py.isspace c) && spaceless s'
  end.

(** [s] begins, or ends, with one of the characters [chars]. *)
Definition begins_with_one_of (chars s : string) : Prop :=
  exists c rest, s = String c rest /\ Py.mem_ascii c chars = true.

Definition ends_with_one_of (chars s : string) : Prop :=
  exists front c,
    s = (front ++ String c "")%string /\ Py.mem_ascii c chars = true.

(** What is left of an utterance after a word: nothing, or white space and
    more. *)
Definition word_boundary (tail : string) : Prop :=
  match tail with
  | EmptyString => True
  | String c _ => Py.isspace c = true
  end.


(** The files of [w'] are those of [w], except possibly for [paths]. *)
Definition same_files_but (paths : list string) (w w' : world) : Prop :=
  forall p, ~ In p paths -> (p ∈ fs w' <-> p ∈ fs w).

(** [sf.write] succeeds, or fails before it has created the file. *)
Definition write_leaves_nothing (e : synth_env) : Prop :=
  match sf_write_result e with
  | Ret _ => True
  | Raise _ => sf_write_creates e = false
  end.

(** The events of a log that hand a file to the player or write one. *)
Definition is_Write (e : event) : bool :=
  match e with Write _ _ => true | _ => false end.
Definition is_Play (e : event) : bool :=
  match e with Play _ => true | _ => false end.

Module UltraFastSpec.
Import UltraFastVoiceChat.

(** What the recogniser makes of the turn's audio, if anything. *)
Definition heard (e : listen_env) : option string :=
  match recognizer_listen e with
  | Ret audio =>
      match recognize_google e audio with
      | Ret text => Some text
      | Raise _ => None
      end
  | Raise _ => None
  end.

(** The state after a capture attempt: one more [Listen] in the log. *)
Definition listened (s : t * world) : t * world :=
  (fst s, {| fs := fs (snd s); trace := trace (snd s) ++ [Listen] |}).
End UltraFastSpec.

Module PushToTalkCapture.
Import PushToTalkChat PushToTalkSpec.

(** What the call of [recognizer.listen] in progress at the release
    gives, as a sequence of answers. *)
Definition in_flight_answers (e : capture_env) : list (outcome AudioData) :=
  match in_flight e with
  | Some r => [r]
  | None => []
  end.

(** Everything the microphone gives the worker before the join returns:
    the answers before the release, then the one in flight. *)
Definition answers (e : capture_env) : list (outcome AudioData) :=
  microphone e ++ in_flight_answers e.

(** The chunks appended during the join. *)
Definition joined (e : capture_env) : list AudioData :=
  if still_recording (microphone e) then appended (in_flight_answers e)
  else [].
End PushToTalkCapture.

Module ExitReplies.
Import PushToTalkChat.

(** The keywords of the rules of [PushToTalkChat.generate_response] that
    come before the goodbye rule, in the order of the [if]/[elif]
    chain. *)
Definition earlier_rule_words : list string :=
  [ "hello"; "hi"; "hey"; "good morning";
    "how are you"; "how's it going";
    "work"; "job"; "career";
    "family"; "parents"; "kids";
    "hobby"; "sport"; "music"; "gaming";
    "food"; "eat"; "restaurant";
    "time"; "clock";
    "thank"; "thanks" ].

(** The keywords of the goodbye rule. *)
Definition goodbye_words : list string := ["goodbye"; "bye"; "quit"; "exit"].

(** The reply of the goodbye rule. *)
Definition farewell (self : t) : string :=
  match user_name self with
  | Some (String _ _ as name) =>
      "Goodbye " ++ name ++ "! It was great chatting without audio feedback!"
  | _ => "Goodbye! Thanks for the conversation!"
  end.
End ExitReplies.

Module VoiceChatCapture.
Import VoiceChat.

(** The capture fails with [ex]: the microphone or the recogniser raises
    it. *)
Definition fails_with (e : listen_env) (ex : exn) : Prop :=
  recognizer_listen e = Raise ex \/
  exists audio,
    recognizer_listen e = Ret audio /\ recognize_google e audio = Raise ex.

(** An exception that [listen_for_speech] has no clause for. *)
Definition unhandled (ex : exn) : Prop :=
  ex <> WaitTimeoutError /\ ex <> UnknownValueError /\ ex <> RequestError.

(** No interrupt arrives in the turn: every collaborator returns or
    fails with an [Exception]. *)
Definition calm_turn (e : turn_env) : Prop :=
  calm (recognizer_listen (ear e)) /\
  (forall audio, calm (recognize_google (ear e) audio)) /\
  no_interrupt (voice e).
End VoiceChatCapture.

Module PushToTalkRules.
(** The keywords of the rules of [PushToTalkChat.generate_response], in
    the order of the [if]/[elif] chain. *)
Definition rule_words : list string :=
  [ "hello"; "hi"; "hey"; "good morning";
    "how are you"; "how's it going";
    "work"; "job"; "career";
    "family"; "parents"; "kids";
    "hobby"; "sport"; "music"; "gaming";
    "food"; "eat"; "restaurant";
    "time"; "clock";
    "thank"; "thanks";
    "goodbye"; "bye"; "quit"; "exit" ].

(** No rule matches the utterance: the rotating fallback answers. *)
Definition falls_through (user_input : string) : Prop :=
  Py.any_in rule_words (Py.lower user_input) = false.

(** Every collaborator of a capture returns or fails with an
    [Exception]. *)
Record calm_capture (e : PushToTalkChat.capture_env) : Prop := {
  calm_wait : calm (PushToTalkChat.keyboard_wait e);
  calm_temp : calm (PushToTalkChat.named_temporary_file e);
  calm_whisper : forall audio, calm (PushToTalkChat.whisper_transcribe e audio);
  calm_unlink : calm (PushToTalkChat.os_unlink_result e);
  calm_google : forall audio, calm (PushToTalkChat.recognize_google e audio)
}.
End PushToTalkRules.

Module SmartEdgeCapture.
Import SmartEdgeVoiceChat.

(** Every collaborator of a capture returns or fails with an
    [Exception]. *)
Definition calm_ear (e : listen_env) : Prop :=
  calm (recognizer_listen e) /\ calm (named_temporary_file e) /\
  (forall audio, calm (whisper_transcribe e audio)) /\
  calm (os_unlink_result e) /\
  (forall audio, calm (recognize_google e audio)).
End SmartEdgeCapture.

Module CleanExitSpec.
Import CleanExitVoiceChat.

(** No signal arrives during the captures of these turns. *)
Definition undisturbed (turns : list turn_env) : Prop :=
  Forall (fun e => signal (ear e) = None) turns.

(** No [KeyboardInterrupt] or [SystemExit] is raised by a collaborator of
    the capture. *)
Record calm_ear (e : listen_env) : Prop := {
  calm_listen : calm (recognizer_listen e);
  calm_temp : calm (named_temporary_file e);
  calm_whisper : forall audio, calm (whisper_transcribe e audio);
  calm_unlink : calm (os_unlink_result e);
  calm_google : forall audio, calm (recognize_google e audio)
}.

Definition calm_turn (e : turn_env) : Prop :=
  signal (ear e) = None /\ calm_ear (ear e) /\ no_interrupt (voice e).


(** The paths on which the sweep calls [os.remove], in the order of the
    listing: the files named [temp_response_*.wav] directly in the temp
    directory, and none when [os.listdir] fails. *)
Definition sweep_calls (c : cleanup_env) (files : gset string)
    : list string :=
  match listdir_error c with
  | Some _ => []
  | None => List.filter (is_temp_response (gettempdir c)) (elements files)
  end.

(** The entry [file] of the listing makes the sweep remove [path]. *)
Definition swept (c : cleanup_env) (file path : string) : Prop :=
  Py.startswith "temp_response_" file && Py.endswith ".wav" file = true /\
  path = path_join (gettempdir c) file /\
  remove_fails c path = false.
End CleanExitSpec.

Module CleanExitOffline.
Import CleanExitVoiceChat.

(** The same capture, and the same turn, with another Google
    recogniser. *)
Definition with_google (google : AudioData -> outcome string)
    (e : listen_env) : listen_env :=
  {| signal := signal e;
     recognizer_listen := recognizer_listen e;
     named_temporary_file := named_temporary_file e;
     whisper_transcribe := whisper_transcribe e;
     os_unlink_result := os_unlink_result e;
     recognize_google := google |}.

Definition turn_with_google (google : AudioData -> outcome string)
    (e : turn_env) : turn_env :=
  {| ear := with_google google (ear e); voice := voice e |}.
End CleanExitOffline.

Module Scenario2.
Import Scenario.

Definition ultra_fast_turn (text : string) : UltraFastVoiceChat.turn_env :=
  {| UltraFastVoiceChat.ear :=
       {| UltraFastVoiceChat.recognizer_listen := Ret chunk;
          UltraFastVoiceChat.recognize_google := fun _ => Ret text |};
     UltraFastVoiceChat.clock := "09:00";
     UltraFastVoiceChat.draw := 3;
     UltraFastVoiceChat.voice := studio |}.

(** A recogniser that breaks in a way the script does not expect. *)
Definition ultra_fast_broken_ear : UltraFastVoiceChat.turn_env :=
  {| UltraFastVoiceChat.ear :=
       {| UltraFastVoiceChat.recognizer_listen :=
            Raise (OtherException "OSError");
          UltraFastVoiceChat.recognize_google := fun _ => Ret "hello" |};
     UltraFastVoiceChat.clock := "09:00";
     UltraFastVoiceChat.draw := 3;
     UltraFastVoiceChat.voice := studio |}.

Definition voice_chat_broken_ear : VoiceChat.turn_env :=
  {| VoiceChat.ear :=
       {| VoiceChat.recognizer_listen := Raise (OtherException "OSError");
          VoiceChat.recognize_google := fun _ => Ret "hello" |};
     VoiceChat.clock := "09:00 AM";
     VoiceChat.draw := 3;
     VoiceChat.voice := studio |}.

(** A [SmartEdgeVoiceChat] capture in which Whisper, or Google, hears
    [text]. *)
Definition smart_edge_ear (text : string) : SmartEdgeVoiceChat.listen_env :=
  {| SmartEdgeVoiceChat.recognizer_listen := Ret chunk;
     SmartEdgeVoiceChat.named_temporary_file := Ret "/tmp/tmpk3v9x2.wav";
     SmartEdgeVoiceChat.whisper_transcribe := fun _ => Ret (" " ++ text)%string;
     SmartEdgeVoiceChat.os_unlink_result := Ret tt;
     SmartEdgeVoiceChat.recognize_google := fun _ => Ret text |}.

(** The same on a system where the temp file cannot be deleted. *)
Definition smart_edge_locked_ear (text : string)
    : SmartEdgeVoiceChat.listen_env :=
  {| SmartEdgeVoiceChat.recognizer_listen := Ret chunk;
     SmartEdgeVoiceChat.named_temporary_file := Ret "/tmp/tmpk3v9x2.wav";
     SmartEdgeVoiceChat.whisper_transcribe := fun _ => Ret (" " ++ text)%string;
     SmartEdgeVoiceChat.os_unlink_result :=
       Raise (OtherException "PermissionError");
     SmartEdgeVoiceChat.recognize_google := fun _ => Ret text |}.

(** A capture in which the microphone breaks. *)
Definition smart_edge_broken_ear : SmartEdgeVoiceChat.listen_env :=
  {| SmartEdgeVoiceChat.recognizer_listen := Raise (OtherException "OSError");
     SmartEdgeVoiceChat.named_temporary_file := Ret "/tmp/tmpk3v9x2.wav";
     SmartEdgeVoiceChat.whisper_transcribe := fun _ => Ret "hello";
     SmartEdgeVoiceChat.os_unlink_result := Ret tt;
     SmartEdgeVoiceChat.recognize_google := fun _ => Ret "hello" |}.

(** A capture during which the user presses Ctrl-C. *)
Definition smart_edge_interrupted_ear : SmartEdgeVoiceChat.listen_env :=
  {| SmartEdgeVoiceChat.recognizer_listen := Raise KeyboardInterrupt;
     SmartEdgeVoiceChat.named_temporary_file := Ret "/tmp/tmpk3v9x2.wav";
     SmartEdgeVoiceChat.whisper_transcribe := fun _ => Ret "hello";
     SmartEdgeVoiceChat.os_unlink_result := Ret tt;
     SmartEdgeVoiceChat.recognize_google := fun _ => Ret "hello" |}.

Definition smart_edge_turn (ear : SmartEdgeVoiceChat.listen_env)
    : SmartEdgeVoiceChat.turn_env :=
  {| SmartEdgeVoiceChat.ear := ear;
     SmartEdgeVoiceChat.mind := monday 3;
     SmartEdgeVoiceChat.voice := studio |}.

Definition smart_edge_start : SmartEdgeVoiceChat.t * world :=
  (SmartEdgeVoiceChat.init, fresh_world ∅).

(** A TTS engine that returns no samples. *)
Definition mute_tts : synth_env :=
  {| tts_infer := fun _ => Ret [];
     getcwd := getcwd studio;
     uuid4 := uuid4 studio;
     time_ms := time_ms studio;
     sf_write_result := Ret tt;
     sf_write_creates := false;
     afplay := Ret 0%Z;
     os_remove_result := Ret tt |}.

(** A disk that fills up while [sf.write] writes: the file has been
    created when the call fails. *)
Definition full_disk : synth_env :=
  {| tts_infer := tts_infer studio;
     getcwd := getcwd studio;
     uuid4 := uuid4 studio;
     time_ms := time_ms studio;
     sf_write_result := Raise (OtherException "LibsndfileError");
     sf_write_creates := true;
     afplay := Ret 0%Z;
     os_remove_result := Ret tt |}.


(** A push-to-talk capture on a system where the temp file cannot be
    deleted. *)
Definition held_key_locked (text : string) : PushToTalkChat.capture_env :=
  {| PushToTalkChat.microphone := [Ret chunk];
     PushToTalkChat.in_flight := None;
     PushToTalkChat.keyboard_wait := Ret tt;
     PushToTalkChat.named_temporary_file := Ret "/tmp/tmpk3v9x2.wav";
     PushToTalkChat.whisper_transcribe := fun _ => Ret text;
     PushToTalkChat.os_unlink_result :=
       Raise (OtherException "PermissionError");
     PushToTalkChat.recognize_google := fun _ => Ret text |}.

(** A push-to-talk turn in which Ctrl-C arrives while the key is held. *)
Definition push_to_talk_interrupted : PushToTalkChat.turn_env :=
  {| PushToTalkChat.ear :=
       {| PushToTalkChat.microphone := [Ret chunk];
          PushToTalkChat.in_flight := None;
          PushToTalkChat.keyboard_wait := Raise KeyboardInterrupt;
          PushToTalkChat.named_temporary_file := Ret "/tmp/tmpk3v9x2.wav";
          PushToTalkChat.whisper_transcribe := fun _ => Ret "hello";
          PushToTalkChat.os_unlink_result := Ret tt;
          PushToTalkChat.recognize_google := fun _ => Ret "hello" |};
     PushToTalkChat.clock := "09:00 AM";
     PushToTalkChat.voice := studio |}.

(** A push-to-talk capture in which the key is released before any chunk
    has been appended, while the first call of [recognizer.listen] is
    still in progress: that call delivers [chunk] during the join. *)
Definition released_mid_chunk (text : string) : PushToTalkChat.capture_env :=
  {| PushToTalkChat.microphone := [];
     PushToTalkChat.in_flight := Some (Ret chunk);
     PushToTalkChat.keyboard_wait := Ret tt;
     PushToTalkChat.named_temporary_file := Ret "/tmp/tmpk3v9x2.wav";
     PushToTalkChat.whisper_transcribe := fun _ => Ret text;
     PushToTalkChat.os_unlink_result := Ret tt;
     PushToTalkChat.recognize_google := fun _ => Ret text |}.

(** A [CleanExitVoiceChat] capture on such a system. *)
Definition clean_exit_locked_ear (text : string)
    : CleanExitVoiceChat.listen_env :=
  {| CleanExitVoiceChat.signal := None;
     CleanExitVoiceChat.recognizer_listen := Ret chunk;
     CleanExitVoiceChat.named_temporary_file := Ret "/tmp/tmpk3v9x2.wav";
     CleanExitVoiceChat.whisper_transcribe := fun _ => Ret text;
     CleanExitVoiceChat.os_unlink_result :=
       Raise (OtherException "PermissionError");
     CleanExitVoiceChat.recognize_google := fun _ => Ret text |}.

(** A capture that ends in a [KeyboardInterrupt] raised in the main
    thread. *)
Definition clean_exit_ctrl_c : CleanExitVoiceChat.turn_env :=
  {| CleanExitVoiceChat.ear :=
       {| CleanExitVoiceChat.signal := None;
          CleanExitVoiceChat.recognizer_listen := Raise KeyboardInterrupt;
          CleanExitVoiceChat.named_temporary_file :=
            Ret "/tmp/tmpk3v9x2.wav";
          CleanExitVoiceChat.whisper_transcribe := fun _ => Ret "hello";
          CleanExitVoiceChat.os_unlink_result := Ret tt;
          CleanExitVoiceChat.recognize_google := fun _ => Ret "hello" |};
     CleanExitVoiceChat.voice := studio |}.

End Scenario2.

(** * Properties *)

(** ** The string primitives on examples *)

Example split_ex : Py.split " Hi,  my name" = ["Hi,"; "my"; "name"].
Proof. reflexivity. Qed.
Example strip_ex : Py.strip_chars ".,!?" "..Dave!?" = "Dave".
Proof. reflexivity. Qed.
Example lower_ex : Py.lower "Hi, My NAME" = "hi, my name".
Proof. reflexivity. Qed.
Example contains_ex : Py.contains "bye" "goodbye now" = true.
Proof. reflexivity. Qed.
Example str_ex : Py.str_of_Z 1730000000123 = "1730000000123".
Proof. reflexivity. Qed.

(** ** Substring tests *)

Section Substrings.

Lemma startswith_spec (p s : string) :
  Py.startswith p s = true <-> exists post : string, s = (p ++ post)%string.
Proof.
  revert s. induction p as [|a p IH]; intros s; simpl.
  - split; [intros _; by exists s | done].
  - destruct s as [|b s].
    + split; [done | intros [post Hpost]; discriminate].
    + rewrite andb_true_iff, Ascii.eqb_eq, IH. split.
      * intros [-> [post ->]]. by exists post.
      * intros [post [= -> ->]]. split; [done | by exists post].
Qed.

Lemma contains_spec (w s : string) :
  Py.contains w s = true <-> is_substring w s.
Proof.
  unfold is_substring. induction s as [|c s IH]; simpl.
  - rewrite orb_false_r, startswith_spec. split.
    + intros [post Hpost]. by exists ""%string, post.
    + intros [pre [post Heq]]. destruct pre; [by exists post | discriminate].
  - rewrite orb_true_iff, startswith_spec, IH. split.
    + intros [[post Hpost] | [pre [post Heq]]].
      * by exists ""%string, post.
      * exists (String c pre), post. simpl. by rewrite Heq.
    + intros [pre [post Heq]]. destruct pre as [|c' pre]; simpl in Heq.
      * left. by exists post.
      * right. injection Heq as _ Heq. by exists pre, post.
Qed.

Lemma any_in_spec (words : list string) (s : string) :
  Py.any_in words s = true <-> exists w, In w words /\ is_substring w s.
Proof.
  unfold Py.any_in. rewrite existsb_exists.
  split; intros [w [Hin Hw]]; exists w; split; try done;
    by apply contains_spec.
Qed.

(** The test of the conversation loops is the exit-phrase match. *)
Lemma exit_test_spec (words : list string) (transcript : string) :
  Py.any_in words (Py.lower transcript) = true <->
  says_one_of words transcript.
Proof. apply any_in_spec. Qed.

End Substrings.

(** ** Stepping through a method body *)

Section Monad.
Context {S A B : Type}.

Lemma bind_Ret (m : M S A) (k : A -> M S B) s s1 a :
  m s = (s1, Ret a) -> (m ≫= k) s = k a s1.
Proof. intros H. unfold mbind, M_bind, bind. by rewrite H. Qed.

End Monad.

Lemma self_modify_run {T} (f : T -> T) (s : T * world) :
  self_modify f s = ((f (fst s), snd s), Ret tt).
Proof. reflexivity. Qed.

Section EventLogs.

Lemma count_nil p : count p [] = 0%nat.
Proof. reflexivity. Qed.

Lemma count_app p (t1 t2 : list event) :
  count p (t1 ++ t2) = (count p t1 + count p t2)%nat.
Proof. unfold count. by rewrite filter_app, length_app. Qed.

Lemma count_cons p e (t : list event) :
  count p (e :: t) = ((if p e then 1 else 0) + count p t)%nat.
Proof.
  unfold count. rewrite filter_cons.
  destruct (p e); case_decide; simpl; congruence.
Qed.

Lemma quiet_nil : quiet [].
Proof. by split. Qed.

Lemma quiet_cons e t :
  is_Synthesize e = false -> is_Listen e = false -> quiet t -> quiet (e :: t).
Proof.
  intros Hs Hl [Ht1 Ht2]. split; rewrite count_cons.
  - by rewrite Hs.
  - by rewrite Hl.
Qed.

Lemma written_paths_app t1 t2 :
  written_paths (t1 ++ t2) = written_paths t1 ++ written_paths t2.
Proof.
  induction t1 as [|e t1 IH]; [done|].
  destruct e; simpl; by rewrite ?IH.
Qed.

End EventLogs.

Create HintDb events.
#[local] Hint Resolve quiet_nil quiet_cons : events.

(** Close a goal [exists tail, t ++ e1 :: ... = t ++ ?hd :: tail /\ quiet tail]. *)
Ltac trace_tail :=
  eexists; split;
  [ rewrite <- ?app_assoc; cbn [app]; reflexivity
  | auto 12 with events ].

(** ** The synthesis step: what it logs and how it ends *)

Section SynthesisStep.

(** The normalisation raises nothing but the [ValueError] of [np.max]. *)
Lemma normalize_calm target wav : calm (normalize target wav).
Proof.
  unfold normalize. destruct (peak wav); [|done].
  by destruct (Qlt_le_dec 0 q).
Qed.

(** [VoiceChat.synthesize_response] leaves the attributes alone, logs its
    call once and nothing that is a capture or another call, and returns
    normally unless an interrupt hits it. *)
Lemma voice_chat_synthesize e text s s' r :
  VoiceChat.synthesize_response e text s = (s', r) ->
  fst s' = fst s /\
  (exists tail,
      trace (snd s') = trace (snd s) ++ Synthesize text :: tail /\
      quiet tail) /\
  (no_interrupt e -> r = Ret tt).
Proof.
  destruct s as [self w]. unfold VoiceChat.synthesize_response.
  run_monad. split_cases; intros [= <- <-]; cbn [fst snd fs trace];
    (split; [done | split; [trace_tail |]]).
  all: intros [Hi Hw Hp Hr]; try done.
  all: specialize (Hi text); use_calm.
Qed.

Lemma push_to_talk_synthesize e text s s' r :
  PushToTalkChat.synthesize_response e text s = (s', r) ->
  fst s' = fst s /\
  (exists tail,
      trace (snd s') = trace (snd s) ++ Synthesize text :: tail /\
      quiet tail) /\
  (no_interrupt e -> r = Ret tt).
Proof.
  destruct s as [self w]. unfold PushToTalkChat.synthesize_response.
  run_monad. split_cases; intros [= <- <-]; cbn [fst snd fs trace];
    (split; [done | split; [trace_tail |]]).
  all: intros [Hi Hw Hp Hr]; try done.
  all: specialize (Hi text);
    match goal with
    | H : normalize ?t ?a = Raise _ |- _ =>
        pose proof (normalize_calm t a)
    | _ => idtac
    end; use_calm.
Qed.

End SynthesisStep.

(** ** C1: an exit phrase ends the conversation *)

Section ExitPhrase.

Lemma push_to_talk_exit_turn (e : PushToTalkChat.turn_env) rest s transcript :
  let capture :=
    PushToTalkChat.listen_with_push_to_talk (PushToTalkChat.ear e) s in
  snd capture = Ret (Some transcript) ->
  says_one_of PushToTalkChat.exit_words transcript ->
  no_interrupt (PushToTalkChat.voice e) ->
  exists s2 response tail,
    PushToTalkChat.run_conversation (e :: rest) s = (s2, Ret Stopped) /\
    trace (snd s2)
      = trace (snd (fst capture)) ++ Synthesize response :: tail /\
    quiet tail.
Proof.
  intros capture Hlisten Hexit%exit_test_spec Hcalm. subst capture.
  destruct (PushToTalkChat.listen_with_push_to_talk _ s) as [s1 r1]
    eqn:Hcap.
  cbn [fst snd] in *. subst r1. rename Hcap into Hlisten.
  cbn [PushToTalkChat.run_conversation].
  rewrite (bind_Ret _ _ _ _ _ Hlisten), Hexit.
  destruct (PushToTalkChat.generate_response (PushToTalkChat.clock e)
              transcript (fst s1)) as [self' response] eqn:Hgen.
  assert (Hon : PushToTalkChat.on_self
            (PushToTalkChat.generate_response (PushToTalkChat.clock e)
               transcript) s1 = ((self', snd s1), Ret response)).
  { unfold PushToTalkChat.on_self. by rewrite Hgen. }
  rewrite (bind_Ret _ _ _ _ _ Hon).
  destruct (PushToTalkChat.synthesize_response (PushToTalkChat.voice e)
              response (self', snd s1)) as [s2 r] eqn:Hsyn.
  destruct (push_to_talk_synthesize _ _ _ _ _ Hsyn) as (_ & Htail & Hr).
  rewrite (Hr Hcalm) in Hsyn.
  exists s2, response. destruct Htail as [tail [Htrace Hq]]. exists tail.
  split; [by rewrite (bind_Ret _ _ _ _ _ Hsyn) | done].
Qed.

Lemma voice_chat_exit_turn (e : VoiceChat.turn_env) rest s transcript :
  let capture := VoiceChat.listen_for_speech (VoiceChat.ear e) s in
  snd capture = Ret (Some transcript) ->
  says_one_of VoiceChat.exit_words transcript ->
  no_interrupt (VoiceChat.voice e) ->
  exists s2 response tail,
    VoiceChat.run_conversation (e :: rest) s = (s2, Ret Stopped) /\
    trace (snd s2)
      = trace (snd (fst capture)) ++ Synthesize response :: tail /\
    quiet tail.
Proof.
  intros capture Hlisten Hexit%exit_test_spec Hcalm. subst capture.
  destruct (VoiceChat.listen_for_speech _ s) as [s1 r1] eqn:Hcap.
  cbn [fst snd] in *. subst r1. rename Hcap into Hlisten.
  cbn [VoiceChat.run_conversation].
  rewrite (bind_Ret _ _ _ _ _ Hlisten), Hexit.
  match goal with
  | |- context [VoiceChat.synthesize_response ?v ?txt] =>
      destruct (VoiceChat.synthesize_response v txt s1) as [s2 r] eqn:Hsyn;
      exists s2, txt
  end.
  destruct (voice_chat_synthesize _ _ _ _ _ Hsyn) as (_ & Htail & Hr).
  rewrite (Hr Hcalm) in Hsyn.
  destruct Htail as [tail [Htrace Hq]]. exists tail.
  split; [by rewrite (bind_Ret _ _ _ _ _ Hsyn) | done].
Qed.

End ExitPhrase.
Section ExitPhraseClaim.

(** The goodbye rule of [PushToTalkChat.generate_response] answers when
    one of its words occurs and no earlier rule matches. *)
Lemma goodbye_rule_reply now transcript self :
  says_one_of ExitReplies.goodbye_words transcript ->
  ~ says_one_of ExitReplies.earlier_rule_words transcript ->
  snd (PushToTalkChat.generate_response now transcript self)
    = ExitReplies.farewell
        (fst (PushToTalkChat.generate_response now transcript self)).
Proof.
  intros Hbye%exit_test_spec Hnot. rewrite <- exit_test_spec in Hnot.
  apply not_true_is_false in Hnot.
  unfold ExitReplies.earlier_rule_words, Py.any_in in Hnot.
  cbn [existsb] in Hnot.
  repeat match type of Hnot with
         | (_ || _) = false => apply orb_false_elim in Hnot as [? Hnot]
         end.
  unfold ExitReplies.goodbye_words, Py.any_in in Hbye.
  cbn [existsb] in Hbye.
  unfold PushToTalkChat.generate_response, PushToTalkChat.reply, Py.any_in.
  cbn [snd fst existsb].
  repeat match goal with
         | Hw : Py.contains ?w ?s = false |- context [Py.contains ?w ?s] =>
             rewrite Hw
         end.
  cbn [orb]. rewrite Hbye. reflexivity.
Qed.

Lemma push_to_talk_exit_turn_reply (e : PushToTalkChat.turn_env) rest s
    transcript :
  let capture :=
    PushToTalkChat.listen_with_push_to_talk (PushToTalkChat.ear e) s in
  snd capture = Ret (Some transcript) ->
  says_one_of PushToTalkChat.exit_words transcript ->
  no_interrupt (PushToTalkChat.voice e) ->
  let answered :=
    PushToTalkChat.generate_response (PushToTalkChat.clock e) transcript
      (fst (fst capture)) in
  exists s2 tail,
    PushToTalkChat.run_conversation (e :: rest) s = (s2, Ret Stopped) /\
    fst s2 = fst answered /\
    trace (snd s2)
      = trace (snd (fst capture)) ++ Synthesize (snd answered) :: tail /\
    quiet tail.
Proof.
  intros capture Hlisten Hexit%exit_test_spec Hcalm. subst capture.
  destruct (PushToTalkChat.listen_with_push_to_talk _ s) as [s1 r1]
    eqn:Hcap.
  cbn [fst snd] in *. subst r1. rename Hcap into Hlisten.
  cbn [PushToTalkChat.run_conversation].
  rewrite (bind_Ret _ _ _ _ _ Hlisten), Hexit.
  destruct (PushToTalkChat.generate_response (PushToTalkChat.clock e)
              transcript (fst s1)) as [self' response] eqn:Hgen.
  assert (Hon : PushToTalkChat.on_self
            (PushToTalkChat.generate_response (PushToTalkChat.clock e)
               transcript) s1 = ((self', snd s1), Ret response)).
  { unfold PushToTalkChat.on_self. by rewrite Hgen. }
  rewrite (bind_Ret _ _ _ _ _ Hon).
  destruct (PushToTalkChat.synthesize_response (PushToTalkChat.voice e)
              response (self', snd s1)) as [s2 r] eqn:Hsyn.
  destruct (push_to_talk_synthesize _ _ _ _ _ Hsyn) as (Hself & Htail & Hr).
  rewrite (Hr Hcalm) in Hsyn.
  exists s2. destruct Htail as [tail [Htrace Hq]]. exists tail.
  cbn [fst snd] in *.
  split; [by rewrite (bind_Ret _ _ _ _ _ Hsyn) | done].
Qed.

Lemma voice_chat_exit_turn_farewell (e : VoiceChat.turn_env) rest s
    transcript :
  let capture := VoiceChat.listen_for_speech (VoiceChat.ear e) s in
  snd capture = Ret (Some transcript) ->
  says_one_of VoiceChat.exit_words transcript ->
  no_interrupt (VoiceChat.voice e) ->
  exists s2 tail,
    VoiceChat.run_conversation (e :: rest) s = (s2, Ret Stopped) /\
    fst s2 = fst (fst capture) /\
    trace (snd s2)
      = trace (snd (fst capture))
          ++ Synthesize
               "Goodbye! It was great talking with you. Have a wonderful day!"
             :: tail /\
    quiet tail.
Proof.
  intros capture Hlisten Hexit%exit_test_spec Hcalm. subst capture.
  destruct (VoiceChat.listen_for_speech _ s) as [s1 r1] eqn:Hcap.
  cbn [fst snd] in *. subst r1. rename Hcap into Hlisten.
  cbn [VoiceChat.run_conversation].
  rewrite (bind_Ret _ _ _ _ _ Hlisten), Hexit.
  match goal with
  | |- context [VoiceChat.synthesize_response ?v ?txt] =>
      destruct (VoiceChat.synthesize_response v txt s1) as [s2 r] eqn:Hsyn;
      exists s2
  end.
  destruct (voice_chat_synthesize _ _ _ _ _ Hsyn) as (Hself & Htail & Hr).
  rewrite (Hr Hcalm) in Hsyn.
  destruct Htail as [tail [Htrace Hq]]. exists tail.
  split; [by rewrite (bind_Ret _ _ _ _ _ Hsyn) | done].
Qed.

(** C1 (as the code has it).  When the capture of a turn yields a
    transcript that contains, case-insensitively, one of the exit words of
    the script running the loop - goodbye, quit, exit, stop, bye in
    [PushToTalkChat]; goodbye, quit, exit, stop in [VoiceChat] - and no
    interrupt hits the synthesis, the loop calls [synthesize_response]
    exactly once after the capture and is then left: nothing is captured
    or synthesised after that call, whatever turns were still to come.
    In [VoiceChat] the text synthesised is the fixed farewell, and the
    attributes are left alone.  In [PushToTalkChat] the transcript goes
    through [generate_response]: its bookkeeping is done and its reply is
    the text synthesised; that reply is the farewell of the goodbye rule
    when the transcript contains goodbye, bye, quit or exit and no
    keyword of an earlier rule. *)
Theorem C1_exit_phrase_one_synthesis_then_stop :
  (forall (e : PushToTalkChat.turn_env) rest s transcript,
      let capture :=
        PushToTalkChat.listen_with_push_to_talk (PushToTalkChat.ear e) s in
      snd capture = Ret (Some transcript) ->
      says_one_of ["goodbye"; "quit"; "exit"; "stop"; "bye"] transcript ->
      no_interrupt (PushToTalkChat.voice e) ->
      let answered :=
        PushToTalkChat.generate_response (PushToTalkChat.clock e)
          transcript (fst (fst capture)) in
      exists s2 tail,
        PushToTalkChat.run_conversation (e :: rest) s = (s2, Ret Stopped) /\
        fst s2 = fst answered /\
        trace (snd s2)
          = trace (snd (fst capture)) ++ Synthesize (snd answered) :: tail /\
        quiet tail /\
        (says_one_of ["goodbye"; "bye"; "quit"; "exit"] transcript ->
         ~ says_one_of ExitReplies.earlier_rule_words transcript ->
         snd answered = ExitReplies.farewell (fst answered)))
  /\
  (forall (e : VoiceChat.turn_env) rest s transcript,
      let capture := VoiceChat.listen_for_speech (VoiceChat.ear e) s in
      snd capture = Ret (Some transcript) ->
      says_one_of ["goodbye"; "quit"; "exit"; "stop"] transcript ->
      no_interrupt (VoiceChat.voice e) ->
      exists s2 tail,
        VoiceChat.run_conversation (e :: rest) s = (s2, Ret Stopped) /\
        fst s2 = fst (fst capture) /\
        trace (snd s2)
          = trace (snd (fst capture))
              ++ Synthesize
                   "Goodbye! It was great talking with you. Have a wonderful day!"
                 :: tail /\
        quiet tail).
Proof.
  split.
  - intros e rest s transcript capture Hcap Hexit Hcalm answered.
    destruct (push_to_talk_exit_turn_reply e rest s transcript Hcap Hexit
                Hcalm) as (s2 & tail & Hrun & Hself & Htrace & Hq).
    exists s2, tail. repeat (split; [done|]).
    apply goodbye_rule_reply.
  - intros e rest s transcript. apply voice_chat_exit_turn_farewell.
Qed.

End ExitPhraseClaim.

Lemma C1_exit_phrase_witness :
  (let e := Scenario.push_to_talk_says "Bye for now" in
   let capture :=
     PushToTalkChat.listen_with_push_to_talk (PushToTalkChat.ear e)
       Scenario.push_to_talk_start in
   let answered :=
     PushToTalkChat.generate_response "09:00 AM" "Bye for now"
       (fst (fst capture)) in
   snd capture = Ret (Some "Bye for now") /\
   says_one_of ["goodbye"; "quit"; "exit"; "stop"; "bye"] "Bye for now" /\
   no_interrupt Scenario.studio /\
   exists s2 tail,
     PushToTalkChat.run_conversation
       [e; Scenario.push_to_talk_says "hello"] Scenario.push_to_talk_start
       = (s2, Ret Stopped) /\
     fst s2 = fst answered /\
     trace (snd s2)
       = trace (snd (fst capture)) ++ Synthesize (snd answered) :: tail /\
     quiet tail /\
     (says_one_of ["goodbye"; "bye"; "quit"; "exit"] "Bye for now" ->
      ~ says_one_of ExitReplies.earlier_rule_words "Bye for now" ->
      snd answered = ExitReplies.farewell (fst answered)))
  /\
  (let e := Scenario.voice_chat_says "Goodbye" in
   let capture :=
     VoiceChat.listen_for_speech (VoiceChat.ear e) Scenario.voice_chat_start in
   snd capture = Ret (Some "Goodbye") /\
   says_one_of ["goodbye"; "quit"; "exit"; "stop"] "Goodbye" /\
   no_interrupt Scenario.studio /\
   exists s2 tail,
     VoiceChat.run_conversation
       [e; Scenario.voice_chat_says "hello"] Scenario.voice_chat_start
       = (s2, Ret Stopped) /\
     fst s2 = fst (fst capture) /\
     trace (snd s2)
       = trace (snd (fst capture))
           ++ Synthesize
                "Goodbye! It was great talking with you. Have a wonderful day!"
              :: tail /\
     quiet tail).
Proof.
  assert (H1 : snd (PushToTalkChat.listen_with_push_to_talk
          (PushToTalkChat.ear (Scenario.push_to_talk_says "Bye for now"))
          Scenario.push_to_talk_start) = Ret (Some "Bye for now"))
    by (vm_compute; reflexivity).
  assert (H2 : says_one_of ["goodbye"; "quit"; "exit"; "stop"; "bye"]
                 "Bye for now")
    by (apply exit_test_spec; vm_compute; reflexivity).
  assert (H3 : no_interrupt Scenario.studio)
    by (constructor; simpl; auto).
  assert (H4 : snd (VoiceChat.listen_for_speech
          (VoiceChat.ear (Scenario.voice_chat_says "Goodbye"))
          Scenario.voice_chat_start) = Ret (Some "Goodbye"))
    by (vm_compute; reflexivity).
  assert (H5 : says_one_of ["goodbye"; "quit"; "exit"; "stop"] "Goodbye")
    by (apply exit_test_spec; vm_compute; reflexivity).
  split.
  - cbv zeta. split; [exact H1 | split; [exact H2 | split; [exact H3 |]]].
    exact (proj1 C1_exit_phrase_one_synthesis_then_stop
             (Scenario.push_to_talk_says "Bye for now")
             [Scenario.push_to_talk_says "hello"]
             Scenario.push_to_talk_start "Bye for now" H1 H2 H3).
  - cbv zeta. split; [exact H4 | split; [exact H5 | split; [exact H3 |]]].
    exact (proj2 C1_exit_phrase_one_synthesis_then_stop
             (Scenario.voice_chat_says "Goodbye")
             [Scenario.voice_chat_says "hello"]
             Scenario.voice_chat_start "Goodbye" H4 H5 H3).
Defined.

(** C1 as stated fails, in two ways.  On [VoiceChat] the transcript "bye"
    contains the exit phrase bye, yet the loop answers it and goes on: it
    captures again and synthesises a second time, and is still listening
    when the two scripted turns are used up.  On [PushToTalkChat] the
    transcript "OK, stop now." contains the exit phrase stop and the loop
    is left after one synthesis, but what is synthesised is the reply of
    [generate_response], whose goodbye rule does not know the word: a line
    of the fallback list, not a farewell. *)
Lemma C1_counterexample_bye_goes_on_and_stop_gets_no_farewell :
  (says_one_of ["goodbye"; "quit"; "exit"; "stop"; "bye"] "bye" /\
   let run :=
     VoiceChat.run_conversation
       [Scenario.voice_chat_says "bye"; Scenario.voice_chat_says "hello"]
       Scenario.voice_chat_start in
   snd run = Ret Listening /\
   filter (fun ev => is_Synthesize ev || is_Listen ev = true)
          (trace (snd (fst run)))
     = [ Listen;
         Synthesize "Goodbye! It was great talking with you. Have a wonderful day!";
         Listen;
         Synthesize "Hello! Nice to meet you. How are you doing today?" ]) /\
  (says_one_of ["goodbye"; "quit"; "exit"; "stop"; "bye"] "OK, stop now." /\
   let run :=
     PushToTalkChat.run_conversation
       [Scenario.push_to_talk_says "OK, stop now."]
       Scenario.push_to_talk_start in
   snd run = Ret Stopped /\
   filter (fun ev => is_Synthesize ev = true) (trace (snd (fst run)))
     = [ Synthesize "I see what you mean. Can you elaborate on that?" ]).
Proof.
  split.
  - split; [by apply exit_test_spec |].
    vm_compute. split; reflexivity.
  - split; [by apply exit_test_spec |].
    vm_compute. split; reflexivity.
Qed.

(** ** C8: errors local to a turn do not end the conversation *)

Section PerTurnErrors.
Import VoiceChat VoiceChatSpec.

Lemma voice_chat_listen (e : listen_env) s :
  capture_errors_only e ->
  listen_for_speech e s = (listened s, Ret (heard e)).
Proof.
  unfold capture_errors_only, heard, listen_for_speech, listened.
  destruct s as [self w]. run_monad.
  destruct (recognizer_listen e) as [audio|ex].
  - destruct (recognize_google e audio) as [text|ex]; [done|].
    by intros [-> | ->].
  - by intros ->.
Qed.

Lemma asks_to_exit_test (e : turn_env) transcript :
  heard (ear e) = Some transcript ->
  Py.any_in exit_words (Py.lower transcript) = true <-> asks_to_exit e.
Proof.
  intros Hheard. rewrite exit_test_spec. unfold asks_to_exit. split.
  - intros Hsays. by exists transcript.
  - intros [t' [Ht' Hsays]]. congruence.
Qed.

(** A turn that hears nothing only logs the attempt. *)
Lemma voice_chat_turn_unheard (e : turn_env) rest s :
  capture_errors_only (ear e) ->
  heard (ear e) = None ->
  run_conversation (e :: rest) s = run_conversation rest (listened s).
Proof.
  intros Hcap Hheard. cbn [run_conversation].
  by rewrite (bind_Ret _ _ _ _ _ (voice_chat_listen _ s Hcap)), Hheard.
Qed.

(** A turn that fails in any per-turn way, or does not fail, and is not a
    request to leave, hands over to the next turn. *)
Lemma voice_chat_turn_goes_on (e : turn_env) rest s :
  per_turn_errors_only e ->
  ~ asks_to_exit e ->
  exists s1, run_conversation (e :: rest) s = run_conversation rest s1.
Proof.
  intros [Hcap Hcalm] Hstay.
  destruct (heard (ear e)) as [transcript|] eqn:Hheard.
  - cbn [run_conversation].
    rewrite (bind_Ret _ _ _ _ _ (voice_chat_listen _ s Hcap)), Hheard.
    destruct (Py.any_in exit_words (Py.lower transcript)) eqn:Htest.
    { exfalso. apply Hstay. by apply (asks_to_exit_test e transcript). }
    rewrite (bind_Ret _ _ _ _ _ (self_modify_run _ _)).
    rewrite (bind_Ret _ _ _ _ _ (self_modify_run _ _)).
    match goal with
    | |- context [(synthesize_response ?v ?r ≫= _) ?s0] =>
        destruct (synthesize_response v r s0) as [s1 r1] eqn:Hsyn
    end.
    destruct (voice_chat_synthesize _ _ _ _ _ Hsyn) as (_ & _ & Hr).
    rewrite (Hr Hcalm) in Hsyn. exists s1.
    by rewrite (bind_Ret _ _ _ _ _ Hsyn).
  - exists (listened s). by apply voice_chat_turn_unheard.
Qed.

Lemma voice_chat_turn_leaves (e : turn_env) rest s :
  per_turn_errors_only e ->
  asks_to_exit e ->
  exists s2, run_conversation (e :: rest) s = (s2, Ret Stopped).
Proof.
  intros [Hcap Hcalm] (transcript & Hheard & Hsays).
  destruct (voice_chat_exit_turn e rest s transcript) as (s2 & _ & _ & H & _);
    try done.
  - by rewrite (voice_chat_listen _ s Hcap), Hheard.
  - by exists s2.
Qed.

Lemma asks_to_exit_dec (e : turn_env) : asks_to_exit e \/ ~ asks_to_exit e.
Proof.
  destruct (heard (ear e)) as [transcript|] eqn:Hheard.
  - destruct (Py.any_in exit_words (Py.lower transcript)) eqn:Htest.
    + left. by apply (asks_to_exit_test e transcript).
    + right. intros H%(asks_to_exit_test e transcript); congruence.
  - right. intros (t' & Ht' & _). congruence.
Qed.

Lemma voice_chat_loop_end turns s :
  Forall per_turn_errors_only turns ->
  snd (run_conversation turns s) = Ret Listening \/
  (snd (run_conversation turns s) = Ret Stopped /\ Exists asks_to_exit turns).
Proof.
  intros Hturns. revert s.
  induction Hturns as [|e rest He Hrest IH]; intros s; [by left|].
  destruct (asks_to_exit_dec e) as [Hexit | Hstay].
  - right. destruct (voice_chat_turn_leaves e rest s He Hexit) as [s2 ->].
    split; [done | by left].
  - destruct (voice_chat_turn_goes_on e rest s He Hstay) as [s1 ->].
    destruct (IH s1) as [H | [H Hex]]; [by left | right].
    split; [done | by right].
Qed.

(** What one capture can do: end normally, with the attempt logged, or
    fail with an exception the script has no clause for. *)
Lemma voice_chat_listen_cases (e : listen_env) s :
  listen_for_speech e s = (listened s, Ret (heard e)) \/
  (exists ex,
      VoiceChatCapture.fails_with e ex /\ VoiceChatCapture.unhandled ex /\
      listen_for_speech e s = (listened s, Raise ex)).
Proof.
  destruct s as [self w].
  destruct (recognizer_listen e) as [audio|ex] eqn:Hlisten.
  - destruct (recognize_google e audio) as [text|ex] eqn:Hgoogle.
    { left. unfold heard, listen_for_speech, listened.
      run_monad. by rewrite Hlisten, Hgoogle. }
    assert (Hfails : VoiceChatCapture.fails_with e ex)
      by (right; by exists audio).
    unfold heard, listen_for_speech, listened, VoiceChatCapture.unhandled.
    run_monad. rewrite Hlisten, Hgoogle.
    destruct ex; cbn; try (by left);
      right; eexists; (split; [exact Hfails|]); done.
  - assert (Hfails : VoiceChatCapture.fails_with e ex) by (by left).
    unfold heard, listen_for_speech, listened, VoiceChatCapture.unhandled.
    run_monad. rewrite Hlisten.
    destruct ex; cbn; try (by left);
      right; eexists; (split; [exact Hfails|]); done.
Qed.

Lemma voice_chat_synthesize_raises (e : synth_env) text s ex :
  snd (synthesize_response e text s) = Raise ex -> is_Exception ex = false.
Proof.
  destruct s as [self w]. unfold synthesize_response.
  run_monad. split_cases; cbn [snd]; intros [= <-]; try done.
Qed.

(** How the loop can be left, whatever the turns do. *)
Lemma voice_chat_loop_paths turns s :
  (snd (run_conversation turns s) = Ret Stopped ->
   Exists asks_to_exit turns) /\
  (forall ex, snd (run_conversation turns s) = Raise ex ->
      is_Exception ex = false \/
      (VoiceChatCapture.unhandled ex /\
       Exists (fun e => VoiceChatCapture.fails_with (ear e) ex) turns)).
Proof.
  revert s. induction turns as [|e rest IH]; intros s; [by split|].
  cbn [run_conversation].
  destruct (voice_chat_listen_cases (ear e) s)
    as [Hl | (ex1 & Hfails & Hun & Hl)].
  - rewrite (bind_Ret _ _ _ _ _ Hl).
    destruct (heard (ear e)) as [transcript|] eqn:Hheard.
    + destruct (Py.any_in exit_words (Py.lower transcript)) eqn:Htest.
      * unfold mbind, M_bind, bind, mret, M_ret, ret.
        match goal with
        | |- context [synthesize_response ?v ?r ?s0] =>
            destruct (synthesize_response v r s0) as [s2 [[]|ex2]] eqn:Hsyn
        end; cbn [snd]; (split; [intros Hend | intros ex Hend]); try done.
        -- left. by apply (asks_to_exit_test e transcript).
        -- left. injection Hend as <-.
           eapply voice_chat_synthesize_raises. by rewrite Hsyn.
      * rewrite (bind_Ret _ _ _ _ _ (self_modify_run _ _)).
        rewrite (bind_Ret _ _ _ _ _ (self_modify_run _ _)).
        unfold mbind, M_bind, bind, mret, M_ret, ret.
        match goal with
        | |- context [synthesize_response ?v ?r ?s0] =>
            destruct (synthesize_response v r s0) as [s2 [[]|ex2]] eqn:Hsyn
        end; cbn [snd].
        -- destruct (IH s2) as [IH1 IH2].
           split; [intros Hend; right; by apply IH1 | intros ex Hend].
           destruct (IH2 ex Hend) as [? | [? ?]]; [by left | right].
           split; [done | by right].
        -- split; [done | intros ex [= <-]; left].
           eapply voice_chat_synthesize_raises. by rewrite Hsyn.
    + destruct (IH (listened s)) as [IH1 IH2].
      split; [intros Hend; right; by apply IH1 | intros ex Hend].
      destruct (IH2 ex Hend) as [? | [? ?]]; [by left | right].
      split; [done | by right].
  - unfold mbind, M_bind, bind. rewrite Hl. cbn [snd].
    split; [done | intros ex [= <-]; right].
    split; [done | by left].
Qed.

(** C8 (as the code has it).  In a [VoiceChat] session whose turns fail,
    if they fail, only in the per-turn ways the script provides for
    (capture time-out, unintelligible speech, recogniser service failure,
    any [Exception] of the synthesis or of the player): the loop never
    raises; it is left only if some turn's transcript matched an exit
    word, and is otherwise still listening; a turn that is not a request
    to leave hands over to the next turn; and a turn that ends in a
    time-out or in unintelligible speech hands over with the attributes -
    the conversation history - and the files unchanged.  And in any
    session, whatever its turns do, the loop is left in one of three
    ways only: after a transcript that matched an exit word; by an
    interrupt ([KeyboardInterrupt] or [SystemExit]); or by an
    [Exception] that the capture of some turn raised and that is none of
    the three [listen_for_speech] has a clause for, which
    [run_conversation] lets through. *)
Theorem C8_per_turn_errors_keep_the_loop_running turns s :
  (Forall per_turn_errors_only turns ->
   (snd (run_conversation turns s) = Ret Listening \/
    (snd (run_conversation turns s) = Ret Stopped /\
     Exists asks_to_exit turns)) /\
   (forall e rest, turns = e :: rest -> ~ asks_to_exit e ->
       exists s1, run_conversation turns s = run_conversation rest s1) /\
   (forall e rest, turns = e :: rest -> nothing_understood (ear e) ->
       run_conversation turns s
         = run_conversation rest
             (fst s, {| fs := fs (snd s);
                        trace := trace (snd s) ++ [Listen] |}))) /\
  (snd (run_conversation turns s) = Ret Stopped ->
   Exists asks_to_exit turns) /\
  (forall ex, snd (run_conversation turns s) = Raise ex ->
      is_Exception ex = false \/
      (VoiceChatCapture.unhandled ex /\
       Exists (fun e => VoiceChatCapture.fails_with (ear e) ex) turns)).
Proof.
  split; [|apply voice_chat_loop_paths].
  intros Hturns. split; [by apply voice_chat_loop_end | split].
  - intros e rest -> Hstay. apply voice_chat_turn_goes_on; [|done].
    by inversion Hturns.
  - intros e rest -> Hnothing.
    assert (He : per_turn_errors_only e) by (by inversion Hturns).
    destruct He as [Hcap _].
    apply (voice_chat_turn_unheard e rest s Hcap).
    unfold heard. destruct Hnothing as [-> | (audio & -> & ->)]; done.
Qed.

End PerTurnErrors.

Lemma C8_per_turn_errors_witness :
  (let turns :=
     [ Scenario.voice_chat_silence;
       Scenario.voice_chat_mumble;
       Scenario.voice_chat_turn Scenario.broken_tts "tell me a story";
       Scenario.voice_chat_turn Scenario.no_player "and then" ] in
   let s := Scenario.voice_chat_start in
   Forall VoiceChatSpec.per_turn_errors_only turns /\
   ((snd (VoiceChat.run_conversation turns s) = Ret Listening \/
     (snd (VoiceChat.run_conversation turns s) = Ret Stopped /\
      Exists VoiceChatSpec.asks_to_exit turns)) /\
    (forall e rest, turns = e :: rest -> ~ VoiceChatSpec.asks_to_exit e ->
        exists s1,
          VoiceChat.run_conversation turns s
            = VoiceChat.run_conversation rest s1) /\
    (forall e rest, turns = e :: rest ->
        VoiceChatSpec.nothing_understood (VoiceChat.ear e) ->
        VoiceChat.run_conversation turns s
          = VoiceChat.run_conversation rest
              (fst s, {| fs := fs (snd s);
                         trace := trace (snd s) ++ [Listen] |})))) /\
  (let turns :=
     [ Scenario.voice_chat_mumble; Scenario.voice_chat_says "Goodbye" ] in
   snd (VoiceChat.run_conversation turns Scenario.voice_chat_start)
     = Ret Stopped /\
   Exists VoiceChatSpec.asks_to_exit turns) /\
  (let turns :=
     [ Scenario.voice_chat_says "hello"; Scenario2.voice_chat_broken_ear ] in
   snd (VoiceChat.run_conversation turns Scenario.voice_chat_start)
     = Raise (OtherException "OSError") /\
   (is_Exception (OtherException "OSError") = false \/
    (VoiceChatCapture.unhandled (OtherException "OSError") /\
     Exists (fun e => VoiceChatCapture.fails_with (VoiceChat.ear e)
                        (OtherException "OSError")) turns))).
Proof.
  split; [|split]; intros turns.
  - intros s.
    assert (H : Forall VoiceChatSpec.per_turn_errors_only turns).
    { repeat (apply Forall_cons_2;
              [ split; [vm_compute; auto | constructor; simpl; auto] |]).
      apply Forall_nil_2. }
    exact (conj H
             (proj1 (C8_per_turn_errors_keep_the_loop_running turns s) H)).
  - assert (H : snd (VoiceChat.run_conversation turns
                       Scenario.voice_chat_start) = Ret Stopped)
      by (vm_compute; reflexivity).
    exact (conj H
             (proj1 (proj2 (C8_per_turn_errors_keep_the_loop_running turns
                              Scenario.voice_chat_start)) H)).
  - assert (H : snd (VoiceChat.run_conversation turns
                       Scenario.voice_chat_start)
                = Raise (OtherException "OSError"))
      by (vm_compute; reflexivity).
    exact (conj H
             (proj2 (proj2 (C8_per_turn_errors_keep_the_loop_running turns
                              Scenario.voice_chat_start))
                (OtherException "OSError") H)).
Defined.

(** C8 as stated fails: an exit phrase and a shutdown signal are not the
    only ways out of the loop.  The microphone of the first turn fails with
    an [OSError], an error local to that turn, which is an [Exception] and
    no interrupt.  [listen_for_speech] has no clause for it and
    [run_conversation] none at all: the loop is left by that exception
    after the one capture attempt, no turn having heard an exit word, and
    the second turn is not played. *)
Lemma C8_counterexample_unexpected_capture_error :
  let turns :=
    [ Scenario2.voice_chat_broken_ear; Scenario.voice_chat_says "hello" ] in
  is_Exception (OtherException "OSError") = true /\
  ~ Exists VoiceChatSpec.asks_to_exit turns /\
  no_interrupt (VoiceChat.voice Scenario2.voice_chat_broken_ear) /\
  VoiceChat.run_conversation turns Scenario.voice_chat_start
    = (VoiceChatSpec.listened Scenario.voice_chat_start,
       Raise (OtherException "OSError")).
Proof.
  cbv zeta. split; [reflexivity | split; [| split]].
  - intros H. apply Exists_cons in H as [H|H].
    + destruct H as (transcript & Hheard & _). vm_compute in Hheard.
      discriminate.
    + apply Exists_cons in H as [H|H]; [|by apply Exists_nil in H].
      apply (asks_to_exit_test (Scenario.voice_chat_says "hello") "hello"
               eq_refl) in H.
      vm_compute in H. discriminate.
  - constructor; simpl; auto.
  - vm_compute. reflexivity.
Qed.
(** ** C9: a push-to-talk capture without audio *)

Section EmptyCapture.
Import PushToTalkChat PushToTalkSpec PushToTalkCapture.

Lemma record_chunks_state mic self w :
  fst (record_chunks mic (self, w))
    = (set_audio_data (audio_data self ++ appended mic) self, w).
Proof.
  revert self. induction mic as [|[chunk|ex] rest IH]; intros self.
  - cbn. rewrite app_nil_r. by destruct self.
  - cbn [record_chunks appended].
    unfold mbind, M_bind, bind, oracle.
    rewrite self_modify_run. cbn [fst snd]. rewrite IH.
    unfold set_audio_data. cbn. by rewrite <- app_assoc.
  - cbn. rewrite app_nil_r. by destruct self.
Qed.

(** A stretch of the worker ends having appended what the microphone gave
    it, and hands nothing else to the control thread. *)
Lemma worker_appends mic self w :
  run_thread (record_audio mic) (self, w)
    = ((set_audio_data (audio_data self ++ appended mic) self, w), Ret tt).
Proof.
  unfold run_thread, record_audio, try_except, except_Exception.
  pose proof (record_chunks_state mic self w) as H.
  destruct (record_chunks mic (self, w)) as [s' [[]|ex]]; cbn [fst] in *.
  - by rewrite H.
  - destruct (is_Exception ex); cbn; by rewrite H.
Qed.

(** The join lets the call in flight finish, if the worker is still in
    its loop. *)
Lemma join_worker_run (e : capture_env) self w :
  join_worker e (self, w)
    = ((set_audio_data (audio_data self ++ joined e) self, w), Ret tt).
Proof.
  unfold join_worker, joined, in_flight_answers.
  destruct (still_recording (microphone e)).
  - destruct (in_flight e) as [r|]; [apply worker_appends|].
    cbn. rewrite app_nil_r. by destruct self.
  - cbn. rewrite app_nil_r. by destruct self.
Qed.

(** The chunks appended when the join returns are those of all the
    answers, up to the first failure. *)
Lemma appended_answers (e : capture_env) :
  appended (answers e) = appended (microphone e) ++ joined e.
Proof.
  unfold answers, joined.
  induction (microphone e) as [|[chunk|ex] mic IH]; cbn; [|by f_equal|done].
  by destruct (in_flight_answers e).
Qed.

Lemma appended_nil (e : capture_env) :
  appended (answers e) = [] ->
  appended (microphone e) = [] /\ joined e = [].
Proof. rewrite appended_answers. apply app_eq_nil. Qed.

Lemma listen_with_push_to_talk_empty (e : capture_env) self w :
  appended (answers e) = [] ->
  keyboard_wait e = Ret tt ->
  listen_with_push_to_talk e (self, w)
    = ((released self [],
        {| fs := fs w; trace := trace w ++ [Listen] |}), Ret None).
Proof.
  intros [Hmic Hjoin]%appended_nil Hkey. unfold listen_with_push_to_talk.
  run_monad. rewrite worker_appends, Hkey. cbn [fst snd].
  rewrite join_worker_run, Hmic, Hjoin. reflexivity.
Qed.

(** Whatever the capture does, the chunks are joined only when there is
    at least one: every [Combine] it logs is over a non-empty sequence. *)
Lemma listen_with_push_to_talk_combines (e : capture_env) s n :
  In (Combine n)
     (trace (snd (fst (listen_with_push_to_talk e s)))) ->
  In (Combine n) (trace (snd s)) \/ (0 < n)%nat.
Proof.
  destruct s as [self w]. unfold listen_with_push_to_talk.
  unfold process_with_whisper, process_with_google.
  run_monad. rewrite worker_appends. cbn [fst snd].
  destruct (keyboard_wait e) as [[]|ex]; cbn [fst snd].
  2:{ split_cases; cbn [fst snd fs trace]; rewrite ?in_app_iff; cbn [In];
      intros H; decompose [or] H; try (by left); done. }
  rewrite join_worker_run. cbn [fst snd audio_data set_audio_data app].
  destruct (appended (microphone e) ++ joined e) as [|first more] eqn:Hmic;
    cbn [app length]; split_cases; cbn [fst snd fs trace];
    rewrite ?in_app_iff; cbn [In]; intros H; decompose [or] H;
    try (by left); try done; right;
    match goal with H : Combine _ = Combine _ |- _ => injection H as <- end.
    all: simpl; lia.
Qed.

Lemma listen_with_push_to_talk_raises (e : capture_env) s ex :
  snd (listen_with_push_to_talk e s) = Raise ex -> is_Exception ex = false.
Proof.
  destruct s as [self w].
  unfold listen_with_push_to_talk, process_with_whisper, process_with_google.
  run_monad. rewrite worker_appends. cbn [fst snd].
  destruct (keyboard_wait e) as [[]|ex0]; cbn [fst snd].
  2:{ destruct (is_Exception ex0) eqn:Hex0; cbn [snd]; [done|].
      by intros [= <-]. }
  rewrite join_worker_run. cbn [fst snd].
  split_cases; cbn [snd]; intros [= <-]; try done.
Qed.

(** C9 (as the code has it).  The capture tests the chunk list after the
    join that follows the release.  If by then nothing has been appended
    - no chunk before the release and none by a call of
    [recognizer.listen] that was still in progress at the release - the
    capture returns [None], the empty-capture result, without raising; it
    has logged the attempt and nothing else, so the chunks were never
    joined, and it leaves [is_recording] cleared and the chunk list
    empty.  Whatever is appended, and whenever: every concatenation is
    over a non-empty sequence of chunks, and the capture never raises an
    [Exception]. *)
Theorem C9_release_without_audio_is_an_empty_capture (e : capture_env) s :
  let run := listen_with_push_to_talk e s in
  (appended (answers e) = [] ->
   keyboard_wait e = Ret tt ->
   snd run = Ret None /\
   trace (snd (fst run)) = trace (snd s) ++ [Listen] /\
   count is_Combine (trace (snd (fst run)))
     = count is_Combine (trace (snd s)) /\
   audio_data (fst (fst run)) = [] /\
   is_recording (fst (fst run)) = false) /\
  (forall n, In (Combine n) (trace (snd (fst run))) ->
             In (Combine n) (trace (snd s)) \/ (0 < n)%nat) /\
  (forall ex, snd run = Raise ex -> is_Exception ex = false).
Proof.
  cbv zeta. split; [|split].
  - intros Hmic Hkey. destruct s as [self w].
    rewrite (listen_with_push_to_talk_empty e self w Hmic Hkey).
    cbn [fst snd trace]. repeat split.
    rewrite count_app, count_cons, count_nil. cbn [is_Combine]. lia.
  - intros n. apply listen_with_push_to_talk_combines.
  - intros ex. apply listen_with_push_to_talk_raises.
Qed.

End EmptyCapture.

Lemma C9_release_without_audio_witness :
  let e := Scenario.held_key [Raise WaitTimeoutError; Ret Scenario.chunk]
             "hello" in
  let run :=
    PushToTalkChat.listen_with_push_to_talk e Scenario.push_to_talk_start in
  PushToTalkSpec.appended (PushToTalkCapture.answers e) = [] /\
  PushToTalkChat.keyboard_wait e = Ret tt /\
  snd run = Ret None /\
  trace (snd (fst run)) = trace (snd Scenario.push_to_talk_start) ++ [Listen] /\
  count is_Combine (trace (snd (fst run)))
    = count is_Combine (trace (snd Scenario.push_to_talk_start)) /\
  PushToTalkChat.audio_data (fst (fst run)) = [] /\
  PushToTalkChat.is_recording (fst (fst run)) = false.
Proof.
  intros e run.
  split; [reflexivity|]. split; [reflexivity|].
  exact (proj1 (C9_release_without_audio_is_an_empty_capture e
                  Scenario.push_to_talk_start) eq_refl eq_refl).
Defined.

(** C9 as stated fails.  The key is released before any chunk has been
    appended, while the worker's first call of [recognizer.listen] is in
    progress.  The worker tests the flag at the head of its loop only: the
    call runs to its end during the join and its chunk is appended.  The
    capture then finds one chunk, joins it and returns the transcript, not
    the empty-capture result. *)
Lemma C9_counterexample_chunk_in_flight :
  let e := Scenario2.released_mid_chunk "hello" in
  let run :=
    PushToTalkChat.listen_with_push_to_talk e Scenario.push_to_talk_start in
  PushToTalkSpec.appended (PushToTalkChat.microphone e) = [] /\
  PushToTalkChat.keyboard_wait e = Ret tt /\
  snd run = Ret (Some "hello") /\
  PushToTalkChat.audio_data (fst (fst run)) = [Scenario.chunk] /\
  trace (snd (fst run)) = [Listen; Combine 1; Remove "/tmp/tmpk3v9x2.wav"].
Proof. vm_compute. repeat split. Qed.

(** ** C2: the normalisation step *)

Section Normalisation.

Lemma np_max_In l m : np_max l = Some m -> In m l.
Proof.
  revert m. induction l as [|x l IH]; intros m; cbn [np_max]; [done|].
  destruct (np_max l) as [m'|].
  - intros [= <-]. destruct (Qle_bool m' x); [by left | right; by apply IH].
  - intros [= <-]. by left.
Qed.

Lemma np_max_upper l m x : np_max l = Some m -> In x l -> (x <= m)%Q.
Proof.
  revert m. induction l as [|y l IH]; intros m; cbn [np_max]; [done|].
  destruct (np_max l) as [m'|] eqn:Hl.
  - intros [= <-] [-> | Hin].
    + destruct (Qle_bool m' x) eqn:Hb; [apply Qle_refl|].
      apply Qlt_le_weak, Qnot_le_lt. intros H%Qle_bool_iff. congruence.
    + specialize (IH m' eq_refl Hin).
      destruct (Qle_bool m' y) eqn:Hb; [|done].
      apply Qle_bool_iff in Hb. by apply Qle_trans with m'.
  - intros [= <-] [-> | Hin]; [apply Qle_refl|].
    destruct l; [done | cbn in Hl; by destruct (np_max l)].
Qed.

Lemma np_max_is_Some l : l <> [] -> exists m, np_max l = Some m.
Proof.
  destruct l as [|x l]; [done|]. intros _. cbn [np_max].
  destruct (np_max l); eauto.
Qed.

(** The peak is the absolute value of some sample, and no sample is
    louder. *)
Lemma peak_attained wav p :
  peak wav = Some p -> exists x, In x wav /\ p = Qabs x.
Proof.
  intros H%np_max_In. apply in_map_iff in H as (x & <- & Hx). eauto.
Qed.

Lemma peak_upper wav p x : peak wav = Some p -> In x wav -> (Qabs x <= p)%Q.
Proof.
  intros H Hx. apply (np_max_upper _ _ _ H). by apply in_map.
Qed.

Lemma peak_nonneg wav p : peak wav = Some p -> (0 <= p)%Q.
Proof. intros (x & _ & ->)%peak_attained. apply Qabs_nonneg. Qed.

Lemma Qabs_scaled x p target :
  (0 < p)%Q -> (0 <= target)%Q ->
  (Qabs (x / p * target) == Qabs x / p * target)%Q.
Proof.
  intros Hp Ht. unfold Qdiv.
  rewrite !Qabs_Qmult, Qabs_Qinv.
  rewrite (Qabs_pos p) by (by apply Qlt_le_weak).
  by rewrite (Qabs_pos target).
Qed.

(** Rescaling a waveform of peak [p > 0] by [target / p] gives a waveform
    of peak [target]. *)
Lemma peak_rescaled wav p target :
  peak wav = Some p -> (0 < p)%Q -> (0 <= target)%Q ->
  exists q, peak (map (fun x => (x / p * target)%Q) wav) = Some q /\
            (q == target)%Q.
Proof.
  intros Hpeak Hp Ht.
  destruct (np_max_is_Some (map Qabs (map (fun x => (x / p * target)%Q) wav)))
    as [q Hq].
  { destruct wav; [discriminate | done]. }
  exists q. split; [done|]. apply Qle_antisym.
  - destruct (peak_attained _ _ Hq) as (y & Hy & ->).
    apply in_map_iff in Hy as (x & <- & Hx).
    rewrite Qabs_scaled by done.
    pose proof (peak_upper _ _ _ Hpeak Hx) as Hle.
    rewrite <- (Qmult_1_l target) at 2.
    apply Qmult_le_compat_r; [|done].
    apply Qle_shift_div_r; [done|]. by rewrite Qmult_1_l.
  - destruct (peak_attained _ _ Hpeak) as (x0 & Hx0 & Hp0).
    assert (Hin : In (x0 / p * target)%Q
                    (map (fun x => (x / p * target)%Q) wav)).
    { apply in_map_iff. eauto. }
    pose proof (peak_upper _ _ _ Hq Hin) as Hle.
    rewrite Qabs_scaled in Hle by done. rewrite <- Hp0 in Hle.
    assert (Heq : (p / p * target == target)%Q).
    { field. intros H0. rewrite H0 in Hp. by apply Qlt_irrefl in Hp. }
    by rewrite Heq in Hle.
Qed.

Lemma normalize_loud wav p target :
  peak wav = Some p -> ~ (p == 0)%Q -> (0 <= target)%Q ->
  exists wav' q,
    normalize target wav = Ret wav' /\ peak wav' = Some q /\
    (q == target)%Q.
Proof.
  intros Hpeak Hnz Ht. unfold normalize. rewrite Hpeak.
  destruct (Qlt_le_dec 0 p) as [Hp | Hle].
  - destruct (peak_rescaled wav p target Hpeak Hp Ht) as (q & Hq & Heq).
    eauto.
  - exfalso. apply Hnz, Qle_antisym; [done | by apply (peak_nonneg wav)].
Qed.

Lemma normalize_silent wav p target :
  peak wav = Some p -> (p == 0)%Q -> normalize target wav = Ret wav.
Proof.
  intros Hpeak Hz. unfold normalize. rewrite Hpeak.
  destruct (Qlt_le_dec 0 p) as [Hp | Hle]; [|done].
  rewrite Hz in Hp. by apply Qlt_irrefl in Hp.
Qed.

(** What the synthesis step hands to [sf.write] is the normalised
    waveform. *)
Lemma push_to_talk_writes e text wav wav' s :
  tts_infer e text = Ret wav ->
  normalize (8 # 10) wav = Ret wav' ->
  In (Write (PushToTalkChat.output_path e) wav')
     (trace (snd (fst (PushToTalkChat.synthesize_response e text s)))).
Proof.
  intros Hinfer Hnorm. destruct s as [self w].
  unfold PushToTalkChat.synthesize_response. run_monad.
  rewrite Hinfer, Hnorm. split_cases;
    rewrite ?in_app_iff; cbn [In]; tauto.
Qed.

Lemma ultra_fast_writes e text wav wav' s :
  tts_infer e text = Ret wav ->
  normalize (7 # 10) wav = Ret wav' ->
  In (Write (UltraFastVoiceChat.output_path e) wav')
     (trace (snd (fst (UltraFastVoiceChat.synthesize_response e text s)))).
Proof.
  intros Hinfer Hnorm. destruct s as [self w].
  unfold UltraFastVoiceChat.synthesize_response. run_monad.
  rewrite Hinfer, Hnorm. split_cases;
    rewrite ?in_app_iff; cbn [In]; tauto.
Qed.

(** C2 (as the code has it).  Let the TTS engine return a waveform with
    peak absolute amplitude [p].  If [p] is not zero, the waveform that
    [synthesize_response] writes out is the rescaled one and its peak is
    the target of the script: 0.8 in [PushToTalkChat], 0.7 in
    [UltraFastVoiceChat].  If [p] is zero, both scripts write the waveform
    out as it is: the rescaling, and with it the division, is skipped.
    Samples are exact rationals here. *)
Theorem C2_normalized_peak_is_the_script_target
    (e : synth_env) (text : string) (wav : waveform) (p : Q)
    (s : PushToTalkChat.t * world) (s' : UltraFastVoiceChat.t * world) :
  tts_infer e text = Ret wav ->
  peak wav = Some p ->
  (~ (p == 0)%Q ->
     (exists loud q,
         In (Write (PushToTalkChat.output_path e) loud)
            (trace (snd (fst (PushToTalkChat.synthesize_response e text s)))) /\
         normalize (8 # 10) wav = Ret loud /\
         peak loud = Some q /\ (q == 8 # 10)%Q) /\
     (exists loud q,
         In (Write (UltraFastVoiceChat.output_path e) loud)
            (trace (snd (fst
               (UltraFastVoiceChat.synthesize_response e text s')))) /\
         normalize (7 # 10) wav = Ret loud /\
         peak loud = Some q /\ (q == 7 # 10)%Q)) /\
  ((p == 0)%Q ->
     normalize (8 # 10) wav = Ret wav /\
     normalize (7 # 10) wav = Ret wav /\
     In (Write (PushToTalkChat.output_path e) wav)
        (trace (snd (fst (PushToTalkChat.synthesize_response e text s)))) /\
     In (Write (UltraFastVoiceChat.output_path e) wav)
        (trace (snd (fst (UltraFastVoiceChat.synthesize_response e text s'))))).
Proof.
  intros Hinfer Hpeak. split.
  - intros Hnz. split.
    + destruct (normalize_loud wav p (8 # 10) Hpeak Hnz) as (loud & q & Hn & Hq & Heq);
        [done|].
      exists loud, q. repeat split; try done.
      by apply push_to_talk_writes with wav.
    + destruct (normalize_loud wav p (7 # 10) Hpeak Hnz) as (loud & q & Hn & Hq & Heq);
        [done|].
      exists loud, q. repeat split; try done.
      by apply ultra_fast_writes with wav.
  - intros Hz.
    pose proof (normalize_silent wav p (8 # 10) Hpeak Hz) as H8.
    pose proof (normalize_silent wav p (7 # 10) Hpeak Hz) as H7.
    repeat split; try done.
    + by apply push_to_talk_writes with wav.
    + by apply ultra_fast_writes with wav.
Qed.

End Normalisation.

Lemma C2_normalized_peak_witness :
  let e := Scenario.studio in
  let wav := [1 # 2; - (1 # 4)]%Q in
  let p := (1 # 2)%Q in
  let s := Scenario.push_to_talk_start in
  let s' := Scenario.ultra_fast_start in
  tts_infer e "Hi there!" = Ret wav /\
  peak wav = Some p /\
  ~ (p == 0)%Q /\
  (exists loud q,
      In (Write (PushToTalkChat.output_path e) loud)
         (trace (snd (fst
            (PushToTalkChat.synthesize_response e "Hi there!" s)))) /\
      normalize (8 # 10) wav = Ret loud /\
      peak loud = Some q /\ (q == 8 # 10)%Q) /\
  (exists loud q,
      In (Write (UltraFastVoiceChat.output_path e) loud)
         (trace (snd (fst
            (UltraFastVoiceChat.synthesize_response e "Hi there!" s')))) /\
      normalize (7 # 10) wav = Ret loud /\
      peak loud = Some q /\ (q == 7 # 10)%Q).
Proof.
  intros e wav p s s'.
  assert (H1 : tts_infer e "Hi there!" = Ret wav) by reflexivity.
  assert (H2 : peak wav = Some p) by reflexivity.
  assert (H3 : ~ (p == 0)%Q) by (intros H; vm_compute in H; discriminate).
  split; [exact H1 | split; [exact H2 | split; [exact H3 |]]].
  exact (proj1 (C2_normalized_peak_is_the_script_target
                  e "Hi there!" wav p s s' H1 H2) H3).
Defined.

(** C2 as stated fails on [UltraFastVoiceChat]: a waveform of peak 1/2 is
    written out with peak 7/10, which is not the 0.8 of the claim. *)
Lemma C2_counterexample_ultra_fast_target :
  exists wav loud q,
    tts_infer Scenario.studio "Okay." = Ret wav /\
    peak wav = Some (1 # 2)%Q /\
    written_waves
      (trace (snd (fst (UltraFastVoiceChat.synthesize_response
                          Scenario.studio "Okay."
                          Scenario.ultra_fast_start)))) = [loud] /\
    peak loud = Some q /\
    (q == 7 # 10)%Q /\ ~ (q == 8 # 10)%Q.
Proof.
  eexists. eexists. eexists.
  split; [reflexivity |]. split; [reflexivity |].
  split; [vm_compute; reflexivity |]. split; [vm_compute; reflexivity |].
  split; [reflexivity |]. intros H. vm_compute in H. discriminate.
Qed.

(** ** C3: the artifact after [synthesize_response] *)

Section Artifact.

Lemma elem_of_created (path : string) (files : gset string) :
  path ∈ {[path]} ∪ files.
Proof. apply elem_of_union_l, elem_of_singleton_2. reflexivity. Qed.

Lemma not_elem_of_removed (path : string) (files : gset string) :
  path ∉ files ∖ {[path]}.
Proof.
  intros [_ Hnot]%elem_of_difference. apply Hnot.
  by apply elem_of_singleton_2.
Qed.

(** When [sf.write] leaves no file behind by failing, the player process
    runs to its end - with whatever return code - and [os.remove] works,
    the artifact is gone on return. *)
Lemma push_to_talk_artifact_removed e text s code :
  PushToTalkChat.output_path e ∉ fs (snd s) ->
  write_leaves_nothing e ->
  afplay e = Ret code ->
  os_remove_result e = Ret tt ->
  PushToTalkChat.output_path e
    ∉ fs (snd (fst (PushToTalkChat.synthesize_response e text s))).
Proof.
  intros Hfresh Hwrite Hplay Hremove. destruct s as [self w].
  unfold write_leaves_nothing in Hwrite.
  unfold PushToTalkChat.synthesize_response. run_monad.
  rewrite Hplay, Hremove.
  destruct (sf_write_result e); [|rewrite Hwrite];
    split_cases; try done; cbn [fst snd fs] in *;
    try apply not_elem_of_removed.
  all: match goal with
       | Hgone : bool_decide _ = false |- _ =>
           apply bool_decide_eq_false in Hgone; destruct Hgone;
           apply elem_of_created
       end.
Qed.

Lemma voice_chat_artifact_removed e text s code :
  VoiceChat.output_path e ∉ fs (snd s) ->
  write_leaves_nothing e ->
  afplay e = Ret code ->
  os_remove_result e = Ret tt ->
  VoiceChat.output_path e
    ∉ fs (snd (fst (VoiceChat.synthesize_response e text s))).
Proof.
  intros Hfresh Hwrite Hplay Hremove. destruct s as [self w].
  unfold write_leaves_nothing in Hwrite.
  unfold VoiceChat.synthesize_response. run_monad.
  rewrite Hplay, Hremove.
  destruct (sf_write_result e); [|rewrite Hwrite];
    split_cases; try done; cbn [fst snd fs] in *;
    try apply not_elem_of_removed.
  all: match goal with
       | Hgone : bool_decide _ = false |- _ =>
           apply bool_decide_eq_false in Hgone; destruct Hgone;
           apply elem_of_created
       end.
Qed.

(** When [subprocess.run] itself raises, the [except] clause is entered
    from the middle of the [try] block: the deletion is skipped, the
    artifact stays, and the call still returns normally. *)
Lemma voice_chat_artifact_left e text s wav ex :
  tts_infer e text = Ret wav ->
  sf_write_result e = Ret tt ->
  afplay e = Raise ex ->
  is_Exception ex = true ->
  let run := VoiceChat.synthesize_response e text s in
  snd run = Ret tt /\ VoiceChat.output_path e ∈ fs (snd (fst run)).
Proof.
  intros Hinfer Hwrite Hplay Hex. destruct s as [self w].
  unfold VoiceChat.synthesize_response. run_monad.
  rewrite Hinfer, Hwrite, Hplay, Hex. cbn.
  split; [done | apply elem_of_created].
Qed.

(** C3 at the failing input.  On a machine without the [afplay] program
    [subprocess.run] raises [FileNotFoundError]; [synthesize_response]
    then returns normally and the artifact it wrote is still there, in
    [PushToTalkChat] as in [VoiceChat]. *)
Theorem C3_artifact_survives_a_player_that_cannot_start :
  (let run :=
     PushToTalkChat.synthesize_response Scenario.no_player "Hi there!"
       Scenario.push_to_talk_start in
   snd run = Ret tt /\
   elements (fs (snd (fst run)))
     = ["/home/user/voice/temp_response_123e4567.wav"]) /\
  (let run :=
     VoiceChat.synthesize_response Scenario.no_player "Hi there!"
       Scenario.voice_chat_start in
   snd run = Ret tt /\
   elements (fs (snd (fst run)))
     = ["/home/user/voice/temp_response.wav"]).
Proof. split; vm_compute; split; reflexivity. Qed.

End Artifact.

(** ** C4: the name taken from a self-introduction *)

Section NameExtraction.

Example words_of_the_introduction :
  Py.split "Hi, my name is Dave" = ["Hi,"; "my"; "name"; "is"; "Dave"].
Proof. reflexivity. Qed.

(** The loop stops at the first cue word, which is "name": the word after
    it is "is". *)
Example first_cue_is_name :
  name_after_cue ["Hi,"; "my"; "name"; "is"; "Dave"] = Some "is".
Proof. reflexivity. Qed.

(** C4 at the failing input.  With no name stored, "Hi, my name is Dave"
    stores the name "is", not "Dave", in [PushToTalkChat] as in
    [SmartEdgeVoiceChat]; the push-to-talk reply greets "is". *)
Theorem C4_my_name_is_Dave_stores_is :
  (forall now whisper,
      let result :=
        PushToTalkChat.generate_response now "Hi, my name is Dave"
          (PushToTalkChat.init whisper) in
      PushToTalkChat.user_name (fst result) = Some "is" /\
      snd result = "Hey is! How's it going today?") /\
  (forall e,
      SmartEdgeVoiceChat.user_name
        (fst (SmartEdgeVoiceChat.generate_smart_response e
                "Hi, my name is Dave" SmartEdgeVoiceChat.init))
      = Some "is").
Proof. split; [intros now whisper | intros e]; by vm_compute. Qed.

End NameExtraction.

(** ** C10: a stored name is never replaced *)

Section StoredName.

Lemma extract_name_keeps user_name user_input :
  Py.truthy user_name = true -> extract_name user_name user_input = user_name.
Proof. intros H. unfold extract_name. by rewrite H. Qed.

Lemma truthy_Some name : name <> "" -> Py.truthy (Some name) = true.
Proof. by destruct name. Qed.

Lemma push_to_talk_keeps_name now user_input self name :
  name <> "" ->
  PushToTalkChat.user_name self = Some name ->
  PushToTalkChat.user_name
    (fst (PushToTalkChat.generate_response now user_input self)) = Some name.
Proof.
  intros Hname Hself. cbn. rewrite Hself.
  by apply extract_name_keeps, truthy_Some.
Qed.

Lemma smart_edge_keeps_name e user_input self name :
  name <> "" ->
  SmartEdgeVoiceChat.user_name self = Some name ->
  SmartEdgeVoiceChat.user_name
    (fst (SmartEdgeVoiceChat.generate_smart_response e user_input self))
    = Some name.
Proof.
  intros Hname Hself. cbn. rewrite Hself.
  by apply extract_name_keeps, truthy_Some.
Qed.

(** C10.  Once [user_name] holds a non-empty name, it holds the same name
    after any further sequence of calls of the dispatcher, whatever is
    said in them: in [PushToTalkChat.generate_response] and in
    [SmartEdgeVoiceChat.generate_smart_response]. *)
Theorem C10_stored_name_is_stable
    (name : string)
    (calls : list (string * string)) (self : PushToTalkChat.t)
    (calls' : list (string * SmartEdgeVoiceChat.reply_env))
    (self' : SmartEdgeVoiceChat.t) :
  name <> "" ->
  PushToTalkChat.user_name self = Some name ->
  SmartEdgeVoiceChat.user_name self' = Some name ->
  PushToTalkChat.user_name (PushToTalkSpec.after calls self) = Some name /\
  SmartEdgeVoiceChat.user_name (SmartEdgeSpec.after calls' self')
    = Some name.
Proof.
  intros Hname Hself Hself'. split.
  - clear Hself'. revert self Hself.
    induction calls as [|[utterance now] rest IH]; intros self Hself;
      [done|].
    cbn [PushToTalkSpec.after]. apply IH.
    by apply push_to_talk_keeps_name.
  - clear Hself. revert self' Hself'.
    induction calls' as [|[utterance e] rest IH]; intros self' Hself';
      [done|].
    cbn [SmartEdgeSpec.after]. apply IH.
    by apply smart_edge_keeps_name.
Qed.

End StoredName.

Lemma C10_stored_name_witness :
  let calls := [("My name is Bob", "09:00 AM"); ("No, I am Carol!", "09:01 AM")] in
  let calls' := [("My name is Bob", Scenario.monday 0);
                 ("No, I am Carol!", Scenario.monday 1)] in
  "Alice" <> "" /\
  PushToTalkChat.user_name (Scenario.push_to_talk_knows "Alice") = Some "Alice" /\
  SmartEdgeVoiceChat.user_name (Scenario.smart_edge_knows "Alice")
    = Some "Alice" /\
  PushToTalkChat.user_name
    (PushToTalkSpec.after calls (Scenario.push_to_talk_knows "Alice"))
    = Some "Alice" /\
  SmartEdgeVoiceChat.user_name
    (SmartEdgeSpec.after calls' (Scenario.smart_edge_knows "Alice"))
    = Some "Alice".
Proof.
  intros calls calls'.
  assert (H1 : "Alice" <> "") by discriminate.
  split; [exact H1 | split; [reflexivity | split; [reflexivity |]]].
  exact (C10_stored_name_is_stable "Alice"
           calls (Scenario.push_to_talk_knows "Alice")
           calls' (Scenario.smart_edge_knows "Alice")
           H1 eq_refl eq_refl).
Defined.

(** ** C6: what the replies depend on *)

Section ReplyDependencies.
Import PushToTalkChat PushToTalkSpec.

(** The bookkeeping of [generate_response] never reads the clock. *)
Lemma attributes_ignore_the_clock now now' user_input self :
  fst (generate_response now user_input self)
    = fst (generate_response now' user_input self).
Proof. reflexivity. Qed.

(** Only the time rule reads the clock. *)
Lemma reply_ignores_the_clock now now' user_input self :
  ~ says_one_of ["time"; "clock"] user_input ->
  snd (generate_response now user_input self)
    = snd (generate_response now' user_input self).
Proof.
  intros Hquiet. cbn [generate_response snd]. unfold reply.
  destruct (Py.any_in ["time"; "clock"] (Py.lower user_input)) eqn:Htime;
    [|reflexivity].
  exfalso. by apply Hquiet, exit_test_spec.
Qed.

(** [random.choice] returns an element of a pool that is not empty. *)
Lemma choice_In draw (pool : list string) :
  pool <> [] -> In (Py.choice draw pool) pool.
Proof.
  intros Hpool. unfold Py.choice. apply nth_In.
  apply Nat.mod_upper_bound. by destruct pool.
Qed.

(** No branch of the smart dispatcher selects an empty pool. *)
Lemma candidates_nonempty e self keywords user_input_lower :
  SmartEdgeVoiceChat.candidates e self keywords user_input_lower <> [].
Proof.
  unfold SmartEdgeVoiceChat.candidates.
  repeat match goal with
         | |- context [match ?x with _ => _ end] =>
             lazymatch x with
             | context [match _ with _ => _ end] => fail
             | _ => destruct x
             end
         end; discriminate.
Qed.

(** C6 (as the code has it).  Run the [PushToTalkChat] dispatcher twice
    from the same profile over the same utterances, none of which
    mentions "time" or "clock": the two sequences of replies are
    identical, whatever the clocks read during the two runs.  In
    [SmartEdgeVoiceChat] the profile after a call and the pool of
    candidate replies do not depend on what [random.choice] draws, and
    the reply is a member of that pool: two runs agree up to the pick
    within the pool. *)
Theorem C6_replies_repeat_unless_the_clock_is_asked
    (utterances : list string) (clocks clocks' : list string) (self : t) :
  length clocks = length utterances ->
  length clocks' = length utterances ->
  Forall (fun u => ~ says_one_of ["time"; "clock"] u) utterances ->
  replies (List.combine utterances clocks) self
    = replies (List.combine utterances clocks') self
  /\
  (forall (e e' : SmartEdgeVoiceChat.reply_env) utterance smart,
      SmartEdgeVoiceChat.now e = SmartEdgeVoiceChat.now e' ->
      SmartEdgeVoiceChat.day_name e = SmartEdgeVoiceChat.day_name e' ->
      SmartEdgeVoiceChat.list_of_set e = SmartEdgeVoiceChat.list_of_set e' ->
      let run := SmartEdgeVoiceChat.generate_smart_response e utterance smart in
      let run' := SmartEdgeVoiceChat.generate_smart_response e' utterance smart in
      let pool :=
        SmartEdgeVoiceChat.candidates e (fst run)
          (SmartEdgeVoiceChat.extract_keywords utterance)
          (Py.lower utterance) in
      fst run = fst run' /\ In (snd run) pool /\ In (snd run') pool).
Proof.
  intros Hlen Hlen' Hquiet. split.
  - revert clocks clocks' self Hlen Hlen'.
    induction Hquiet as [|u rest Hu Hrest IH]; intros clocks clocks' self;
      [done|].
    destruct clocks as [|now clocks]; [done|].
    destruct clocks' as [|now' clocks']; [done|].
    intros [= Hlen] [= Hlen']. cbn [List.combine replies].
    pose proof (reply_ignores_the_clock now now' u self Hu) as Hreply.
    pose proof (attributes_ignore_the_clock now now' u self) as Hself.
    destruct (generate_response now u self) as [self1 r1].
    destruct (generate_response now' u self) as [self2 r2].
    cbn [fst snd] in *. subst. f_equal. by apply IH.
  - intros e e' utterance smart Hnow Hday Horder.
    cbn [SmartEdgeVoiceChat.generate_smart_response fst snd].
    split; [done|]. split; [apply choice_In, candidates_nonempty|].
    match goal with
    | |- In _ (SmartEdgeVoiceChat.candidates e ?p ?k ?l) =>
        replace (SmartEdgeVoiceChat.candidates e p k l)
          with (SmartEdgeVoiceChat.candidates e' p k l)
    end.
    + apply choice_In, candidates_nonempty.
    + unfold SmartEdgeVoiceChat.candidates.
      by rewrite Hnow, Hday, Horder.
Qed.

End ReplyDependencies.

Lemma C6_replies_repeat_witness :
  let utterances := ["Hello!"; "I love my job"; "Tell me a story"] in
  let clocks := ["09:00 AM"; "09:01 AM"; "09:02 AM"] in
  let clocks' := ["11:58 PM"; "11:59 PM"; "12:00 AM"] in
  length clocks = length utterances /\
  length clocks' = length utterances /\
  Forall (fun u => ~ says_one_of ["time"; "clock"] u) utterances /\
  PushToTalkSpec.replies (List.combine utterances clocks)
    (PushToTalkChat.init true)
  = PushToTalkSpec.replies (List.combine utterances clocks')
      (PushToTalkChat.init true).
Proof.
  intros utterances clocks clocks'.
  assert (H : Forall (fun u => ~ says_one_of ["time"; "clock"] u) utterances).
  { repeat (apply Forall_cons_2;
            [intros Hsays%exit_test_spec; vm_compute in Hsays; discriminate |]).
    apply Forall_nil_2. }
  split; [reflexivity | split; [reflexivity | split; [exact H |]]].
  exact (proj1 (C6_replies_repeat_unless_the_clock_is_asked
                  utterances clocks clocks' (PushToTalkChat.init true)
                  eq_refl eq_refl H)).
Defined.

(** C6 as stated fails.  Two runs of the [PushToTalkChat] dispatcher from a
    fresh profile over the same utterance answer differently when the clock
    has moved on; two runs of the [SmartEdgeVoiceChat] dispatcher answer
    differently when [random.choice] draws differently. *)
Lemma C6_counterexample_clock_and_random_choice :
  PushToTalkSpec.replies [("What time is it?", "09:00 AM")]
    (PushToTalkChat.init true)
  <> PushToTalkSpec.replies [("What time is it?", "09:01 AM")]
       (PushToTalkChat.init true)
  /\
  SmartEdgeSpec.replies [("Tell me a story", Scenario.monday 0)]
    SmartEdgeVoiceChat.init
  <> SmartEdgeSpec.replies [("Tell me a story", Scenario.monday 1)]
       SmartEdgeVoiceChat.init.
Proof.
  split; intros H; vm_compute in H; discriminate.
Qed.

(** ** C5: the paths of the artifacts *)

Section ArtifactPaths.

Lemma append_length (a b : string) :
  String.length (a ++ b) = (String.length a + String.length b)%nat.
Proof. induction a as [|c a IH]; simpl; [done | by rewrite IH]. Qed.

Lemma append_cancel_l (p a b : string) :
  (p ++ a)%string = (p ++ b)%string -> a = b.
Proof. induction p as [|c p IH]; simpl; [done|]. intros [= H]. auto. Qed.

Lemma append_cancel_r (a b c : string) :
  (a ++ c)%string = (b ++ c)%string -> a = b.
Proof.
  revert b. induction a as [|x a IH]; intros [|y b]; simpl; try done.
  - intros H. apply (f_equal String.length) in H.
    cbn [String.append String.length] in H.
    rewrite !append_length in H. cbn [String.length] in H. lia.
  - intros H. apply (f_equal String.length) in H.
    cbn [String.append String.length] in H.
    rewrite !append_length in H. cbn [String.length] in H. lia.
  - intros [= -> H]. f_equal. by apply IH.
Qed.

Lemma path_join_inj dir name name' :
  path_join dir name = path_join dir name' -> name = name'.
Proof.
  unfold path_join. destruct (Py.endswith "/" dir).
  - apply append_cancel_l.
  - intros H%append_cancel_l. by apply append_cancel_l in H.
Qed.

(** The decimal notation of integers is injective. *)
Lemma str_of_Z_inj n n' : Py.str_of_Z n = Py.str_of_Z n' -> n = n'.
Proof.
  unfold Py.str_of_Z. intros H.
  assert (Hnn : forall z, Z.to_int z <> Decimal.Pos Decimal.Nil /\
                          Z.to_int z <> Decimal.Neg Decimal.Nil).
  { intros [|p|p]; cbn; split; try discriminate;
      intros [= Hp]; by apply DecimalPos.Unsigned.to_uint_nonnil in Hp. }
  apply DecimalZ.to_int_inj.
  assert (Hsome : Some (Z.to_int n) = Some (Z.to_int n')).
  { rewrite <- (NilZero.isi (Z.to_int n)) by apply Hnn.
    rewrite <- (NilZero.isi (Z.to_int n')) by apply Hnn.
    by rewrite H. }
  by injection Hsome.
Qed.

Lemma push_to_talk_path_inj e e' :
  getcwd e = getcwd e' ->
  PushToTalkChat.output_path e = PushToTalkChat.output_path e' ->
  PushToTalkChat.unique_id e = PushToTalkChat.unique_id e'.
Proof.
  unfold PushToTalkChat.output_path, abspath. intros -> H%path_join_inj.
  apply append_cancel_l in H. by apply append_cancel_r in H.
Qed.

Lemma clean_exit_path_inj e e' :
  getcwd e = getcwd e' ->
  CleanExitVoiceChat.output_path e = CleanExitVoiceChat.output_path e' ->
  time_ms e = time_ms e'.
Proof.
  unfold CleanExitVoiceChat.output_path, abspath. intros -> H%path_join_inj.
  apply append_cancel_l in H. apply append_cancel_r in H.
  by apply str_of_Z_inj.
Qed.

(** *** What a [PushToTalkChat] session writes *)

Import PushToTalkChat.

(** The capture writes no artifact. *)
Lemma listen_writes_nothing (e : capture_env) s :
  written_paths (trace (snd (fst (listen_with_push_to_talk e s))))
    = written_paths (trace (snd s)).
Proof.
  destruct s as [self w]. unfold listen_with_push_to_talk.
  unfold process_with_whisper, process_with_google.
  run_monad. rewrite worker_appends. cbn [fst snd].
  destruct (keyboard_wait e) as [[]|ex0]; cbn [fst snd];
    [rewrite join_worker_run|];
    split_cases; cbn [fst snd fs trace];
    rewrite ?written_paths_app; cbn [written_paths]; by rewrite ?app_nil_r.
Qed.

(** The synthesis step hands at most one path to [sf.write]: its
    [output_path]. *)
Lemma synthesize_writes_once (e : synth_env) text s :
  exists ps,
    written_paths (trace (snd (fst (synthesize_response e text s))))
      = written_paths (trace (snd s)) ++ ps /\
    (ps = [] \/ ps = [output_path e]).
Proof.
  destruct s as [self w]. unfold synthesize_response. run_monad.
  split_cases; cbn [fst snd fs trace];
    rewrite ?written_paths_app; cbn [written_paths];
    rewrite ?app_nil_r; rewrite <- ?app_assoc; cbn [app];
    first [ by (exists []; rewrite app_nil_r; auto)
          | by (eexists; split; [reflexivity | right; reflexivity]) ].
Qed.

Lemma on_self_world {A} (f : t -> t * A) s :
  snd (fst (on_self f s)) = snd s.
Proof. unfold on_self. by destruct (f (fst s)). Qed.

(** The paths written in a session form a subsequence of the paths of
    its turns. *)
Lemma session_writes (turns : list turn_env) s :
  exists ps,
    written_paths (trace (snd (fst (run_conversation turns s))))
      = written_paths (trace (snd s)) ++ ps /\
    ps `sublist_of` map (fun e => output_path (voice e)) turns.
Proof.
  revert s. induction turns as [|e rest IH]; intros s.
  { exists []. by rewrite app_nil_r. }
  cbn [run_conversation map].
  pose proof (listen_writes_nothing (ear e) s) as Hlisten.
  unfold mbind, M_bind, bind.
  destruct (listen_with_push_to_talk (ear e) s) as [s1 [[transcript|]|ex]];
    cbn [fst snd] in Hlisten.
  - assert (Hstep : forall (k : unit -> M (t * world) loop_end),
               (forall s2, exists ps,
                   written_paths (trace (snd (fst (k tt s2))))
                     = written_paths (trace (snd s2)) ++ ps /\
                   ps `sublist_of`
                     map (fun e => output_path (voice e)) rest) ->
               exists ps,
                 written_paths (trace (snd (fst
                   (match on_self (generate_response (clock e) transcript) s1
                    with
                    | (s', Ret response) =>
                        match synthesize_response (voice e) response s' with
                        | (s'', Ret u) => k u s''
                        | (s'', Raise ex) => (s'', Raise ex)
                        end
                    | (s', Raise ex) => (s', Raise ex)
                    end))))
                 = written_paths (trace (snd s)) ++ ps /\
                 ps `sublist_of`
                   output_path (voice e)
                     :: map (fun e => output_path (voice e)) rest).
    { intros k Hk.
      pose proof (on_self_world (generate_response (clock e) transcript) s1)
        as Hworld.
      destruct (on_self (generate_response (clock e) transcript) s1)
        as [s' [response|ex]] eqn:Hon; cbn [fst snd] in Hworld.
      2:{ unfold on_self in Hon.
          destruct (generate_response (clock e) transcript (fst s1));
            discriminate. }
      destruct (synthesize_writes_once (voice e) response s')
        as (ps1 & Hps1 & Hcase).
      rewrite Hworld, Hlisten in Hps1.
      destruct (synthesize_response (voice e) response s')
        as [s'' [[]|ex]]; cbn [fst snd] in *.
      - destruct (Hk s'') as (ps2 & Hps2 & Hsub).
        exists (ps1 ++ ps2). rewrite Hps2, Hps1, app_assoc. split; [done|].
        destruct Hcase as [-> | ->]; cbn [app].
        + by apply sublist_cons.
        + by apply sublist_skip.
      - exists ps1. split; [done|].
        destruct Hcase as [-> | ->];
          [apply sublist_nil_l | apply sublist_skip, sublist_nil_l]. }
    destruct (Py.any_in exit_words (Py.lower transcript)).
    + apply (Hstep (fun _ => mret Stopped)). intros s2. exists [].
      rewrite app_nil_r. split; [done | apply sublist_nil_l].
    + apply (Hstep (fun _ => run_conversation rest)). intros s2. apply IH.
  - destruct (IH s1) as (ps & Hps & Hsub). exists ps.
    rewrite Hps, Hlisten. split; [done | by apply sublist_cons].
  - cbn [fst snd]. exists []. rewrite app_nil_r, Hlisten.
    split; [done | apply sublist_nil_l].
Qed.

(** Where a script draws an identifier for the name, the paths follow
    it.  In a [PushToTalkChat] session run in one working directory, if
    the uuid prefixes drawn for the turns are pairwise distinct, the
    paths handed to [sf.write] are pairwise distinct.  In
    [CleanExitVoiceChat], two synthesis steps in one working directory at
    different millisecond timestamps have different paths. *)
Lemma artifact_paths_follow_their_identifiers
    (turns : list turn_env) (cwd : string) (self : t) (files : gset string)
    (e e' : synth_env) :
  Forall (fun turn => getcwd (voice turn) = cwd) turns ->
  NoDup (map (fun turn => unique_id (voice turn)) turns) ->
  getcwd e = getcwd e' ->
  time_ms e <> time_ms e' ->
  NoDup (written_paths
           (trace (snd (fst (run_conversation turns
                               (self, fresh_world files)))))) /\
  CleanExitVoiceChat.output_path e <> CleanExitVoiceChat.output_path e'.
Proof.
  intros Hcwd Hids Hsame Htime. split.
  - destruct (session_writes turns (self, fresh_world files))
      as (ps & -> & Hsub).
    cbn [snd trace fresh_world written_paths app].
    eapply sublist_NoDup; [|exact Hsub].
    clear -Hcwd Hids. induction turns as [|turn rest IH]; [constructor|].
    cbn [map] in *. apply NoDup_cons in Hids as [Hnew Hids].
    apply Forall_cons in Hcwd as [Hturn Hcwd].
    apply NoDup_cons. split; [|by apply IH].
    intros (turn' & Hpath & Hin)%list_elem_of_fmap. apply Hnew.
    apply list_elem_of_fmap. exists turn'. split; [|done].
    apply push_to_talk_path_inj; [|done].
    rewrite Hturn. symmetry.
    by apply (proj1 (Forall_forall _ _) Hcwd turn').
  - intros Hpath. by apply Htime, clean_exit_path_inj.
Qed.

End ArtifactPaths.

(** C5 at the failing input.  In [VoiceChat] the name of the artifact is
    the literal [temp_response.wav]: the two synthesis steps of a session
    with two answered turns - minutes apart, with different uuids and
    timestamps at hand - are handed the same path in the working
    directory, so the paths of distinct invocations are not distinct.  On
    the same two turns [PushToTalkChat] and [CleanExitVoiceChat], which
    derive the name from a uuid prefix and a millisecond timestamp, write
    to two different paths. *)
Theorem C5_voice_chat_reuses_its_artifact_path :
  (let run :=
     VoiceChat.run_conversation
       [ Scenario.voice_chat_turn Scenario.studio "hello";
         Scenario.voice_chat_turn Scenario.studio_again "tell me more" ]
       Scenario.voice_chat_start in
   snd run = Ret Listening /\
   written_paths (trace (snd (fst run)))
     = [ "/home/user/voice/temp_response.wav";
         "/home/user/voice/temp_response.wav" ] /\
   ~ NoDup (written_paths (trace (snd (fst run))))) /\
  (let run :=
     PushToTalkChat.run_conversation
       [ Scenario.push_to_talk_turn Scenario.studio "hello";
         Scenario.push_to_talk_turn Scenario.studio_again "tell me more" ]
       Scenario.push_to_talk_start in
   written_paths (trace (snd (fst run)))
     = [ "/home/user/voice/temp_response_123e4567.wav";
         "/home/user/voice/temp_response_9b2d1c3a.wav" ]) /\
  CleanExitVoiceChat.output_path Scenario.studio
    = "/home/user/voice/temp_response_1730000000123.wav" /\
  CleanExitVoiceChat.output_path Scenario.studio_again
    = "/home/user/voice/temp_response_1730000004567.wav".
Proof.
  assert (Htwice : forall p : string, ~ NoDup [p; p]).
  { intros p [Hnew _]%NoDup_cons. apply Hnew. by left. }
  split; [|split; [vm_compute; reflexivity | split; reflexivity]].
  assert (H : VoiceChat.run_conversation
                [ Scenario.voice_chat_turn Scenario.studio "hello";
                  Scenario.voice_chat_turn Scenario.studio_again
                    "tell me more" ]
                Scenario.voice_chat_start
              = (fst (VoiceChat.run_conversation
                        [ Scenario.voice_chat_turn Scenario.studio "hello";
                          Scenario.voice_chat_turn Scenario.studio_again
                            "tell me more" ]
                        Scenario.voice_chat_start), Ret Listening))
    by (vm_compute; reflexivity).
  assert (Hw : written_paths (trace (snd (fst
            (VoiceChat.run_conversation
               [ Scenario.voice_chat_turn Scenario.studio "hello";
                 Scenario.voice_chat_turn Scenario.studio_again
                   "tell me more" ]
               Scenario.voice_chat_start))))
          = [ "/home/user/voice/temp_response.wav";
              "/home/user/voice/temp_response.wav" ])
    by (vm_compute; reflexivity).
  cbv zeta. rewrite Hw. split; [by rewrite H|].
  split; [reflexivity | apply Htwice].
Qed.

(** * Further properties of the scripts *)

(** ** Reversal, stripping and splitting of strings *)

Section Strings.

Lemma append_String c (a b : string) :
  (String c a ++ b)%string = String c (a ++ b).
Proof. reflexivity. Qed.

Lemma string_app_assoc (a b c : string) :
  ((a ++ b) ++ c)%string = (a ++ b ++ c)%string.
Proof.
  induction a as [|x a IH]; [done|]. rewrite !append_String. by f_equal.
Qed.

Lemma string_app_nil_r (a : string) : (a ++ "")%string = a.
Proof.
  induction a as [|x a IH]; [done|]. rewrite append_String. by f_equal.
Qed.

Lemma rev_onto_app s acc : Py.rev_onto s acc = (Py.rev s ++ acc)%string.
Proof.
  unfold Py.rev. revert acc.
  induction s as [|c s IH]; intros acc; simpl; [done|].
  rewrite (IH (String c acc)), (IH (String c "")).
  by rewrite string_app_assoc.
Qed.

Lemma rev_String c s : Py.rev (String c s) = (Py.rev s ++ String c "")%string.
Proof. unfold Py.rev at 1. simpl. apply rev_onto_app. Qed.

Lemma rev_app (a b : string) :
  Py.rev (a ++ b) = (Py.rev b ++ Py.rev a)%string.
Proof.
  induction a as [|x a IH].
  - by rewrite string_app_nil_r.
  - by rewrite append_String, !rev_String, IH, string_app_assoc.
Qed.

Lemma rev_involutive s : Py.rev (Py.rev s) = s.
Proof.
  induction s as [|c s IH]; [done|].
  by rewrite rev_String, rev_app, IH.
Qed.


(** What [lstrip] leaves is a suffix that does not begin with a dropped
    character. *)
Lemma lstrip_by_suffix drop s :
  exists pre : string, s = (pre ++ Py.lstrip_by drop s)%string.
Proof.
  induction s as [|c s [pre IH]]; simpl.
  - by exists "".
  - destruct (drop c).
    + exists (String c pre). rewrite append_String. by f_equal.
    + by exists "".
Qed.

Lemma lstrip_by_head drop s c rest :
  Py.lstrip_by drop s = String c rest -> drop c = false.
Proof.
  induction s as [|x s IH]; simpl; [done|].
  destruct (drop x) eqn:Hx; [done|]. by intros [= <- _].
Qed.

Lemma strip_by_head drop s c rest :
  Py.strip_by drop s = String c rest -> drop c = false.
Proof.
  unfold Py.strip_by.
  destruct (lstrip_by_suffix drop (Py.rev (Py.lstrip_by drop s)))
    as [pre Hpre].
  set (x := Py.lstrip_by drop (Py.rev (Py.lstrip_by drop s))) in *.
  apply (f_equal Py.rev) in Hpre.
  rewrite rev_involutive, rev_app in Hpre.
  intros Hx. rewrite Hx in Hpre. simpl in Hpre.
  by apply lstrip_by_head in Hpre.
Qed.

Lemma strip_by_last drop s c rest :
  Py.rev (Py.strip_by drop s) = String c rest -> drop c = false.
Proof.
  unfold Py.strip_by. rewrite rev_involutive. apply lstrip_by_head.
Qed.

Lemma lstrip_by_id drop s :
  (forall c rest, s = String c rest -> drop c = false) ->
  Py.lstrip_by drop s = s.
Proof.
  destruct s as [|c s]; [done|]. intros H. simpl.
  by rewrite (H c s eq_refl).
Qed.

(** Stripping twice is stripping once. *)
Lemma strip_by_idempotent drop s :
  Py.strip_by drop (Py.strip_by drop s) = Py.strip_by drop s.
Proof.
  set (t := Py.strip_by drop s).
  unfold Py.strip_by at 1.
  rewrite (lstrip_by_id drop t).
  2:{ intros c rest H. by apply (strip_by_head drop s c rest). }
  rewrite (lstrip_by_id drop (Py.rev t)).
  2:{ intros c rest H. by apply (strip_by_last drop s c rest). }
  apply rev_involutive.
Qed.

End Strings.

(** ** Paths and file names *)

Section Paths.

Lemma endswith_spec (p s : string) :
  Py.endswith p s = true <-> exists pre : string, s = (pre ++ p)%string.
Proof.
  unfold Py.endswith. rewrite startswith_spec. split.
  - intros [post Hpost]. exists (Py.rev post).
    apply (f_equal Py.rev) in Hpost.
    by rewrite rev_involutive, rev_app, rev_involutive in Hpost.
  - intros [pre ->]. exists (Py.rev pre). apply rev_app.
Qed.

Lemma strip_prefix_spec (p s r : string) :
  strip_prefix p s = Some r <-> s = (p ++ r)%string.
Proof.
  revert s. induction p as [|a p IH]; intros s.
  - cbn. split; [by intros [= ->] | by intros ->].
  - destruct s as [|b s]; cbn [strip_prefix]; [done|].
    rewrite append_String.
    destruct (Ascii.eqb a b) eqn:Hab.
    + apply Ascii.eqb_eq in Hab as ->. rewrite IH.
      split; [by intros -> | by intros [= ->]].
    + split; [done|]. intros [= -> _]. by rewrite Ascii.eqb_refl in Hab.
Qed.

(** Searching for a single character. *)
Lemma contains_char_String c x s :
  Py.contains (String c "") (String x s)
  = Ascii.eqb c x || Py.contains (String c "") s.
Proof. cbn. by rewrite andb_true_r. Qed.

Lemma contains_char_app c (a b : string) :
  Py.contains (String c "") (a ++ b)
  = Py.contains (String c "") a || Py.contains (String c "") b.
Proof.
  induction a as [|x a IH].
  - change ("" ++ b)%string with b. cbn [Py.contains Py.startswith].
    by rewrite orb_false_l.
  - rewrite append_String, !contains_char_String, IH. by rewrite orb_assoc.
Qed.

Lemma contains_char_rev c s :
  Py.contains (String c "") (Py.rev s) = Py.contains (String c "") s.
Proof.
  induction s as [|x s IH]; [done|].
  rewrite rev_String, contains_char_app, IH, !contains_char_String.
  cbn [Py.contains Py.startswith]. rewrite !orb_false_r. apply orb_comm.
Qed.

(** A string splits at the first occurrence of a character in one way. *)
Lemma split_at_char_unique c (a b x y : string) :
  Py.contains (String c "") a = false ->
  Py.contains (String c "") b = false ->
  (a ++ String c x)%string = (b ++ String c y)%string ->
  a = b /\ x = y.
Proof.
  revert b. induction a as [|p a IH]; intros [|q b] Ha Hb.
  - by intros [= ->].
  - rewrite contains_char_String in Hb. apply orb_false_elim in Hb as [Hq _].
    rewrite append_String. intros [= -> _]. by rewrite Ascii.eqb_refl in Hq.
  - rewrite contains_char_String in Ha. apply orb_false_elim in Ha as [Hp _].
    rewrite append_String. intros [= -> _]. by rewrite Ascii.eqb_refl in Hp.
  - rewrite contains_char_String in Ha, Hb.
    apply orb_false_elim in Ha as [_ Ha].
    apply orb_false_elim in Hb as [_ Hb].
    rewrite !append_String. intros [= -> H].
    destruct (IH b Ha Hb H) as [-> ->]. done.
Qed.

(** [os.path.join(dir, "")] ends with the separator, and joining a name
    appends it to that. *)
Lemma path_join_dir dir :
  exists front : string, path_join dir "" = (front ++ "/")%string.
Proof.
  unfold path_join. destruct (Py.endswith "/" dir) eqn:Hend.
  - apply endswith_spec in Hend as [pre ->].
    exists pre. by rewrite string_app_nil_r.
  - by exists dir.
Qed.

Lemma path_join_name dir name :
  path_join dir name = (path_join dir "" ++ name)%string.
Proof.
  unfold path_join. destruct (Py.endswith "/" dir).
  - by rewrite string_app_nil_r.
  - by rewrite string_app_assoc.
Qed.

(** A path determines its directory and its file name. *)
Lemma path_join_unique dir dir' name name' :
  Py.contains "/" name = false -> Py.contains "/" name' = false ->
  path_join dir name = path_join dir' name' ->
  path_join dir "" = path_join dir' "" /\ name = name'.
Proof.
  intros Hn Hn'. rewrite (path_join_name dir), (path_join_name dir').
  destruct (path_join_dir dir) as [front ->].
  destruct (path_join_dir dir') as [front' ->].
  intros H. apply (f_equal Py.rev) in H. rewrite !rev_app in H.
  change (Py.rev "/") with "/" in H.
  apply (split_at_char_unique "/" (Py.rev name) (Py.rev name')
           (Py.rev front) (Py.rev front')) in H as [Hname Hfront].
  - apply (f_equal Py.rev) in Hname, Hfront.
    rewrite !rev_involutive in Hname, Hfront. by subst.
  - by rewrite contains_char_rev.
  - by rewrite contains_char_rev.
Qed.

Lemma name_in_dir_spec dir path name :
  name_in_dir dir path = Some name <->
  path = path_join dir name /\ Py.contains "/" name = false.
Proof.
  unfold name_in_dir. rewrite (path_join_name dir name).
  destruct (strip_prefix (path_join dir "") path) as [r|] eqn:Hr.
  - apply strip_prefix_spec in Hr as ->.
    destruct (Py.contains "/" r) eqn:Hslash; cbv iota.
    + split; [done|]. intros [H%append_cancel_l Hn]. congruence.
    + split; [by intros [= ->]|]. by intros [->%append_cancel_l _].
  - split; [done|]. intros [-> _].
    assert (strip_prefix (path_join dir "") (path_join dir "" ++ name)
            = Some name) by by apply strip_prefix_spec.
    congruence.
Qed.

End Paths.

(** ** The sweep of [cleanup] *)

Section Sweep.
Import CleanExitVoiceChat.

(** The entries of a listing that the loop tries to remove. *)
Lemma listed_temp_responses temp_dir (paths : list string) :
  map (path_join temp_dir)
      (List.filter
         (fun file =>
            Py.startswith "temp_response_" file && Py.endswith ".wav" file)
         (omap (name_in_dir temp_dir) paths))
  = List.filter (is_temp_response temp_dir) paths.
Proof.
  induction paths as [|path paths IH]; [done|].
  cbn [omap list_omap List.filter]. unfold is_temp_response at 1.
  destruct (name_in_dir temp_dir path) as [file|] eqn:Hname; [|done].
  apply name_in_dir_spec in Hname as [-> _].
  cbn [List.filter].
  destruct (Py.startswith "temp_response_" file && Py.endswith ".wav" file);
    [cbn [map]; by rewrite IH | done].
Qed.

(** The loop over the listing returns normally; the event log gains one
    [Remove] for each matching entry. *)
Lemma sweep_run c (listing : list string) w :
  exists files,
    sweep c listing w
    = ({| fs := files;
          trace :=
            trace w
            ++ map Remove
                 (map (path_join (gettempdir c))
                    (List.filter
                       (fun file =>
                          Py.startswith "temp_response_" file
                          && Py.endswith ".wav" file)
                       listing)) |},
       Ret tt).
Proof.
  revert w. induction listing as [|file rest IH]; intros w.
  - exists (fs w). cbn. rewrite app_nil_r. by destruct w.
  - cbn [sweep List.filter]. unfold remove_listed. run_monad.
    destruct (Py.startswith "temp_response_" file && Py.endswith ".wav" file).
    2:{ destruct (IH w) as [files ->]. by exists files. }
    cbn [map].
    destruct (bool_decide (path_join (gettempdir c) file ∈ fs w));
      [destruct (remove_fails c (path_join (gettempdir c) file))|];
      cbn [fst snd fs trace];
      match goal with
      | |- context [sweep c rest ?w0] => destruct (IH w0) as [files ->]
      end; exists files; cbn [trace]; by rewrite <- app_assoc.
Qed.

(** The whole step ends normally or in the [OSError] of [os.listdir]; the
    event log gains the removals of the loop. *)
Lemma remove_temp_files_run c w :
  exists files r,
    remove_temp_files c w
    = ({| fs := files;
          trace := trace w
                   ++ map Remove (CleanExitSpec.sweep_calls c (fs w)) |}, r)
    /\ (r = Ret tt \/ exists what, r = Raise (OtherException what)).
Proof.
  unfold remove_temp_files, os_listdir, CleanExitSpec.sweep_calls.
  destruct (listdir_error c) as [what|]; run_monad.
  - exists (fs w), (Raise (OtherException what)).
    cbn. rewrite app_nil_r. split; [by destruct w | right; by exists what].
  - match goal with
    | |- context [sweep c ?l w] => destruct (sweep_run c l w) as [files ->]
    end.
    rewrite listed_temp_responses.
    exists files, (Ret tt). by split; [|left].
Qed.

Lemma count_cleanup_removes (paths : list string) :
  count is_Cleanup (map Remove paths) = 0%nat.
Proof.
  induction paths as [|path paths IH]; [done|].
  cbn [map]. by rewrite count_cons, IH.
Qed.

End Sweep.

(** ** C7: signals, cleanup and the exit status *)

Section Shutdown.
Import CleanExitVoiceChat.

(** A loop that is still listening after [before] goes on with the turns
    that follow. *)
Lemma conversation_loop_app c (before rest : list turn_env) s s1 :
  conversation_loop c before s = (s1, Ret Listening) ->
  conversation_loop c (before ++ rest) s = conversation_loop c rest s1.
Proof.
  revert s. induction before as [|e before IH]; intros s.
  - cbn [conversation_loop app]. unfold mbind, M_bind, bind, self_gets, gets.
    destruct rest; cbn; destruct (running (fst s)) eqn:Hrun; cbn;
      intros [= <-]; cbn; by rewrite ?Hrun.
  - cbn [conversation_loop app].
    unfold mbind, M_bind, bind, self_gets, gets, mret, M_ret, ret.
    cbn [fst snd].
    repeat match goal with
           | |- context [match ?x with _ => _ end] =>
               lazymatch x with
               | context [match _ with _ => _ end] => fail
               | _ => destruct x eqn:?; cbn [fst snd negb]
               end
           end; try discriminate; try apply IH.
Qed.


(** Simplify counts of [Cleanup] events over explicit logs. *)
Ltac count_cleanups :=
  unfold cleanups in *; cbn [fst snd fs trace] in *;
  rewrite ?count_app, ?count_cons, ?count_nil, ?count_cleanup_removes in *;
  cbn [is_Cleanup is_Exception fst snd] in *.

(** One call of [cleanup] during which the signals of [signals] arrive,
    one per nested call: it is entered once for itself and once more for
    each signal; it returns normally if no signal arrives, and is left by
    the [SystemExit(0)] of the handler otherwise, with [running]
    cleared. *)
Lemma cleanup_runs c (signals : list Z) s :
  cleanups (fst (cleanup c signals s))
    = (cleanups s + 1 + length signals)%nat /\
  match signals with
  | [] => snd (cleanup c signals s) = Ret tt /\
          fst (fst (cleanup c signals s)) = fst s
  | _ :: _ => snd (cleanup c signals s) = Raise (SystemExit 0) /\
              running (fst (fst (cleanup c signals s))) = false
  end.
Proof.
  revert s. induction signals as [|signum later IH]; intros [self w].
  - cbn [cleanup]. run_monad.
    match goal with
    | |- context [remove_temp_files c ?w0] =>
        destruct (remove_temp_files_run c w0)
          as (files & r & -> & [-> | [what ->]])
    end; do 2 count_cleanups; cbn [length]; (split; [lia | done]).
  - cbn [cleanup]. run_monad.
    match goal with
    | |- context [cleanup c later ?s0] =>
        destruct (IH s0) as [Hcount Hresult];
        destruct (cleanup c later s0) as [s1 r1]
    end.
    destruct later as [|signum' later']; destruct Hresult as [Hr Hself];
      cbn [fst snd] in Hr; subst r1; count_cleanups; cbn [length] in *.
    + split; [lia|]. split; [done|]. by rewrite Hself.
    + split; [lia | done].
Qed.

Lemma signal_handler_runs c (signals : list Z) signum s :
  let run := signal_handler c signals signum s in
  snd run = Raise (SystemExit 0) /\
  running (fst (fst run)) = false /\
  cleanups (fst run) = (cleanups s + 1 + length signals)%nat.
Proof.
  destruct s as [self w]. unfold signal_handler. run_monad.
  match goal with
  | |- context [cleanup c signals ?s0] =>
      destruct (cleanup_runs c signals s0) as [Hcount Hresult];
      destruct (cleanup c signals s0) as [s1 r1]
  end.
  destruct signals as [|signum' later]; destruct Hresult as [Hr Hself];
    cbn [fst snd] in Hr; subst r1; count_cleanups;
    repeat split; try done.
  by rewrite Hself.
Qed.

Lemma synthesize_keeps_cleanups (e : synth_env) text s :
  cleanups (fst (synthesize_response e text s)) = cleanups s.
Proof.
  destruct s as [self w]. unfold synthesize_response. run_monad.
  split_cases; count_cleanups; lia.
Qed.

(** A capture that no signal interrupts does not clean up. *)
Lemma listen_keeps_cleanups c (e : listen_env) s :
  signal e = None ->
  cleanups (fst (listen_for_speech c e s)) = cleanups s.
Proof.
  intros Hsignal. destruct s as [self w].
  unfold listen_for_speech, process_with_whisper, process_with_google.
  run_monad. rewrite Hsignal.
  split_cases; count_cleanups; lia.
Qed.

(** A signal during the capture: the handler runs and its [SystemExit]
    leaves [listen_for_speech]. *)
Lemma listen_interrupted c (e : listen_env) s signum later :
  running (fst s) = true ->
  signal e = Some (signum, later) ->
  let run := listen_for_speech c e s in
  snd run = Raise (SystemExit 0) /\
  running (fst (fst run)) = false /\
  cleanups (fst run) = (cleanups s + 1 + length later)%nat.
Proof.
  intros Hrun Hsignal. destruct s as [self w]. cbn [fst] in Hrun.
  unfold listen_for_speech. run_monad. rewrite Hrun, Hsignal. cbn [negb].
  match goal with
  | |- context [signal_handler c later signum ?s0] =>
      destruct (signal_handler_runs c later signum s0) as (Hr & Hflag & Hn);
      destruct (signal_handler c later signum s0) as [s1 r1]
  end.
  cbn [fst snd] in *. subst r1. count_cleanups. repeat split; try done.
  lia.
Qed.

(** One iteration of the loop, spelled out. *)
Lemma conversation_loop_cons c (e : turn_env) rest s :
  conversation_loop c (e :: rest) s =
  if negb (running (fst s)) then (s, Ret Stopped)
  else
    match listen_for_speech c (ear e) s with
    | (s1, Raise ex) => (s1, Raise ex)
    | (s1, Ret user_input) =>
        if negb (running (fst s1)) then (s1, Ret Stopped)
        else
          match user_input with
          | None => conversation_loop c rest s1
          | Some user_input =>
              if Py.any_in exit_words (Py.lower user_input) then
                match synthesize_response (voice e)
                        "Goodbye! Thanks for using the clean exit voice chat. Everything processed locally for your privacy!"
                        s1 with
                | (s2, Ret _) => (s2, Ret Stopped)
                | (s2, Raise ex) => (s2, Raise ex)
                end
              else
                match synthesize_response (voice e)
                        (snd (generate_response user_input (fst s1)))
                        (fst (generate_response user_input (fst s1)), snd s1)
                with
                | (s2, Ret _) => conversation_loop c rest s2
                | (s2, Raise ex) => (s2, Raise ex)
                end
          end
    end.
Proof.
  cbn [conversation_loop].
  unfold mbind, M_bind, bind, self_gets, gets, mret, M_ret, ret, on_self.
  cbn [fst snd].
  destruct (negb (running (fst s))); [done|].
  destruct (listen_for_speech c (ear e) s) as [s1 [[text|]|ex]]; try done;
    cbn [fst snd]; destruct (negb (running (fst s1))); try done.
  destruct (Py.any_in exit_words (Py.lower text)); [done|].
  by destruct (generate_response text (fst s1)).
Qed.

(** While the loop is still listening, [running] is set and [cleanup] has
    not been entered. *)
Lemma still_listening c (before : list turn_env) s s1 :
  conversation_loop c before s = (s1, Ret Listening) ->
  running (fst s1) = true /\ cleanups s1 = cleanups s.
Proof.
  revert s. induction before as [|e before IH]; intros s.
  - cbn. unfold mbind, M_bind, bind, self_gets, gets. cbn.
    destruct (running (fst s)) eqn:Hrun; cbn; intros [= <-]; done.
  - rewrite conversation_loop_cons.
    destruct (negb (running (fst s))); [done|].
    destruct (signal (ear e)) as [[signum later]|] eqn:Hsignal.
    + destruct (running (fst s)) eqn:Hrun.
      * destruct (listen_interrupted c (ear e) s signum later Hrun Hsignal)
          as (Hr & _).
        destruct (listen_for_speech c (ear e) s) as [s2 r2].
        cbn [snd] in Hr. by subst r2.
      * unfold listen_for_speech, mbind, M_bind, bind, self_gets, gets.
        cbn. rewrite Hrun. cbn. by rewrite Hrun.
    + pose proof (listen_keeps_cleanups c (ear e) s Hsignal) as Hlisten.
      destruct (listen_for_speech c (ear e) s) as [s2 [[text|]|ex]];
        try done; cbn [fst] in Hlisten;
        destruct (negb (running (fst s2))); try done.
      * destruct (Py.any_in exit_words (Py.lower text)).
        { by destruct (synthesize_response _ _ s2) as [s3 [[]|ex]]. }
        match goal with
        | |- context [synthesize_response ?v ?r ?s0] =>
            pose proof (synthesize_keeps_cleanups v r s0) as Hsyn;
            destruct (synthesize_response v r s0) as [s3 [[]|ex]]
        end; [|done].
        intros [Hflag Hn]%IH. split; [done|].
        rewrite Hn. cbn [fst] in Hsyn. rewrite Hsyn, <- Hlisten.
        reflexivity.
      * intros [Hflag Hn]%IH. split; [done | congruence].
Qed.

(** C7 (as the code has it).  Let a signal be delivered while the loop
    waits in a capture, followed by [later] further signals, each while
    the cleanup started for the one before is running, and let [final]
    signals arrive during the cleanup of the [finally] block.  Then
    [running] ends up false and the process exits with status 0; but
    [cleanup] is entered once by the handler and once more by the
    [finally] block of [run_conversation], through which the handler's
    [SystemExit] unwinds, and once more for every further signal: twice
    for a single signal, not once. *)
Theorem C7_signal_runs_cleanup_in_handler_and_in_finally
    c (before : list turn_env) (e : turn_env) (rest : list turn_env)
    (final : list Z) s (signum : Z) (later : list Z) :
  snd (conversation_loop c before s) = Ret Listening ->
  signal (ear e) = Some (signum, later) ->
  let run := main c (before ++ e :: rest) final s in
  running (fst (fst run)) = false /\
  snd run = Raise (SystemExit 0) /\
  exit_status (snd run) = Some 0%Z /\
  cleanups (fst run)
    = (cleanups s + 2 + length later + length final)%nat.
Proof.
  intros Hbefore Hsignal.
  destruct (conversation_loop c before s) as [s1 r1] eqn:Hloop1.
  cbn [snd] in Hbefore. subst r1. rename Hloop1 into Hbefore.
  destruct (still_listening c before s s1 Hbefore) as [Hrun Hclean].
  destruct (listen_interrupted c (ear e) s1 signum later Hrun Hsignal)
    as (Hr & Hflag & Hn).
  assert (Hloop : conversation_loop c (before ++ e :: rest) s
                  = (fst (listen_for_speech c (ear e) s1),
                     Raise (SystemExit 0))).
  { rewrite (conversation_loop_app c before (e :: rest) s s1 Hbefore).
    rewrite conversation_loop_cons, Hrun. cbn [negb].
    destruct (listen_for_speech c (ear e) s1) as [s2 r2].
    cbn [fst snd] in *. by subst r2. }
  destruct (listen_for_speech c (ear e) s1) as [s2 r2].
  cbn [fst snd] in *. clear Hr r2.
  unfold main, run_conversation, try_finally, try_except, oracle,
    except_Exception.
  cbv zeta. rewrite Hloop. cbn [is_Exception].
  destruct (cleanup_runs c final s2) as [Hcount Hresult].
  destruct (cleanup c final s2) as [s3 r3]. cbn [fst snd] in *.
  assert (Hflag3 : running (fst s3) = false).
  { destruct final; destruct Hresult as [_ H]; [by rewrite H | done]. }
  assert (Hr3 : r3 = Ret tt \/ r3 = Raise (SystemExit 0)).
  { destruct final; destruct Hresult as [H _]; auto. }
  destruct Hr3 as [-> | ->];
    cbn [fst snd is_Exception exit_status mret M_ret ret];
    repeat split; try done; lia.
Qed.

End Shutdown.

Lemma C7_signal_cleanup_witness :
  let before := [Scenario.clean_exit_turn None "hello"] in
  let e := Scenario.clean_exit_turn (Some (2%Z, [])) "" in
  let rest := [Scenario.clean_exit_turn None "are you there?"] in
  let run :=
    CleanExitVoiceChat.main Scenario.temp_dir (before ++ e :: rest) []
      Scenario.clean_exit_start in
  snd (CleanExitVoiceChat.conversation_loop Scenario.temp_dir before
         Scenario.clean_exit_start) = Ret Listening /\
  CleanExitVoiceChat.signal (CleanExitVoiceChat.ear e) = Some (2%Z, []) /\
  CleanExitVoiceChat.running (fst (fst run)) = false /\
  snd run = Raise (SystemExit 0) /\
  CleanExitVoiceChat.exit_status (snd run) = Some 0%Z /\
  cleanups (fst run)
    = (cleanups Scenario.clean_exit_start + 2 + length (@nil Z)
       + length (@nil Z))%nat.
Proof.
  intros before e rest run.
  assert (H1 : snd (CleanExitVoiceChat.conversation_loop Scenario.temp_dir
                      before Scenario.clean_exit_start) = Ret Listening)
    by (vm_compute; reflexivity).
  assert (H2 : CleanExitVoiceChat.signal (CleanExitVoiceChat.ear e)
               = Some (2%Z, [])) by reflexivity.
  split; [exact H1 | split; [exact H2 |]].
  exact (C7_signal_runs_cleanup_in_handler_and_in_finally
           Scenario.temp_dir before e rest [] Scenario.clean_exit_start
           2%Z [] H1 H2).
Defined.

(** C7 as stated fails.  One SIGINT during the second capture of a session:
    [cleanup] is entered twice, by the handler and by the [finally] block.
    With a SIGTERM arriving while the handler's cleanup runs, the handler is
    entered again and [cleanup] runs three times.  The exit status is 0 in
    both sessions. *)
Lemma C7_counterexample_cleanup_runs_twice :
  let session (signals : Z * list Z) :=
    CleanExitVoiceChat.main Scenario.temp_dir
      [ Scenario.clean_exit_turn None "hello";
        Scenario.clean_exit_turn (Some signals) "" ]
      [] Scenario.clean_exit_start in
  (cleanups (fst (session (2%Z, []))) = 2%nat /\
   CleanExitVoiceChat.exit_status (snd (session (2%Z, []))) = Some 0%Z) /\
  (cleanups (fst (session (2%Z, [15%Z]))) = 3%nat /\
   CleanExitVoiceChat.exit_status (snd (session (2%Z, [15%Z]))) = Some 0%Z).
Proof. vm_compute. repeat split. Qed.

(** ** The name-extraction block *)

Section Names.

Lemma name_after_cue_In words name :
  name_after_cue words = Some name ->
  exists word, In word words /\ name = Py.strip_chars ".,!?" word.
Proof.
  induction words as [|word [|next rest] IH]; try done.
  cbn [name_after_cue].
  destruct (Py.elem (Py.lower word) ["name"; "is"; "am"; "i'm"]).
  - intros [= <-]. exists next. split; [right; by left | done].
  - intros H. destruct (IH H) as [w [Hin Hw]].
    exists w. split; [by right | done].
Qed.

Lemma strip_chars_clean chars word :
  ~ begins_with_one_of chars (Py.strip_chars chars word) /\
  ~ ends_with_one_of chars (Py.strip_chars chars word).
Proof.
  unfold Py.strip_chars. split.
  - intros (c & rest & Heq & Hc).
    apply strip_by_head in Heq. congruence.
  - intros (front & c & Heq & Hc).
    apply (f_equal Py.rev) in Heq. rewrite rev_app in Heq.
    change (Py.rev (String c "")) with (String c "") in Heq.
    rewrite append_String in Heq.
    apply strip_by_last in Heq. congruence.
Qed.

(** X1: whatever [generate_response] stores as the user's name is either
    the name it had before or a word of the utterance with the characters
    [.,!?] stripped from both ends; a newly stored name neither begins
    nor ends with one of these characters. *)
Theorem X1_stored_name_is_a_stripped_word user_name user_input name :
  extract_name user_name user_input = Some name ->
  user_name = Some name \/
  exists word,
    In word (Py.split user_input) /\
    name = Py.strip_chars ".,!?" word /\
    ~ begins_with_one_of ".,!?" name /\
    ~ ends_with_one_of ".,!?" name.
Proof.
  unfold extract_name.
  destruct (negb (Py.truthy user_name) && _); [|by left].
  destruct (name_after_cue (Py.split user_input)) as [n|] eqn:Hcue;
    [|by left].
  intros [= ->]. right.
  destruct (name_after_cue_In _ _ Hcue) as [word [Hin ->]].
  exists word. split; [done|]. split; [done|].
  apply strip_chars_clean.
Qed.

(** A run of non-space characters up to a word boundary is one word. *)
Lemma split_from_word cur word tail :
  spaceless word = true -> word_boundary tail ->
  (Py.rev cur ++ word)%string <> "" ->
  Py.split_from cur (word ++ tail)
  = (Py.rev cur ++ word)%string :: Py.split tail.
Proof.
  revert cur. induction word as [|x word IH]; intros cur Hw Ht Hne.
  - rewrite string_app_nil_r in *. change ("" ++ tail)%string with tail.
    destruct cur as [|c cur]; [done|].
    destruct tail as [|y tail]; [done|].
    cbn in Ht. unfold Py.split. cbn [Py.split_from]. by rewrite Ht.
  - cbn [spaceless] in Hw. apply andb_true_iff in Hw as [Hx Hw].
    apply negb_true_iff in Hx.
    rewrite append_String. cbn [Py.split_from]. rewrite Hx.
    rewrite IH; [|done|done|].
    + by rewrite rev_String, string_app_assoc.
    + rewrite rev_String, string_app_assoc. by destruct (Py.rev cur).
Qed.

Lemma split_word word tail :
  spaceless word = true -> word <> "" -> word_boundary tail ->
  Py.split (word ++ tail) = word :: Py.split tail.
Proof.
  intros Hw Hne Ht. unfold Py.split at 1.
  by rewrite split_from_word.
Qed.

Lemma lower_app a b : Py.lower (a ++ b) = (Py.lower a ++ Py.lower b)%string.
Proof.
  induction a as [|c a IH]; [done|].
  rewrite append_String. cbn [Py.lower]. by rewrite IH.
Qed.

(** X2: for every name without white space, an utterance that begins
    with "I am <name>" or "I'm <name>" stores the name stripped of
    [.,!?], whatever follows the name; one that begins with
    "my name is <name>" stores the word "is". *)
Theorem X2_introductions user_name name tail :
  Py.truthy user_name = false ->
  spaceless name = true -> name <> "" -> word_boundary tail ->
  (extract_name user_name ("I am " ++ name ++ tail)%string
     = Some (Py.strip_chars ".,!?" name)) /\
  (extract_name user_name ("I'm " ++ name ++ tail)%string
     = Some (Py.strip_chars ".,!?" name)) /\
  (extract_name user_name ("My name is " ++ name ++ tail)%string
     = Some "is").
Proof.
  intros Hu Hs Hne Ht. unfold extract_name. rewrite Hu.
  assert (Hwords : Py.split (name ++ tail) = name :: Py.split tail)
    by (by apply split_word).
  assert (Hcue : forall said : string,
             Py.any_in ["my name is"; "i am"; "i'm"] said = true <->
             exists w, In w ["my name is"; "i am"; "i'm"] /\
                       is_substring w said) by (intros; apply any_in_spec).
  split; [|split].
  - replace (Py.any_in _ _) with true.
    2:{ symmetry. apply Hcue. exists "i am". split; [cbn; tauto|].
        exists "", (" " ++ Py.lower (name ++ tail))%string.
        by rewrite lower_app. }
    change ("I am " ++ name ++ tail)%string
      with ("I" ++ (" am " ++ name ++ tail))%string.
    rewrite split_word by done.
    change (Py.split (" am " ++ name ++ tail))
      with (Py.split ("am" ++ (" " ++ name ++ tail))).
    rewrite split_word by done.
    change (Py.split (" " ++ name ++ tail)) with (Py.split (name ++ tail)).
    by rewrite Hwords.
  - replace (Py.any_in _ _) with true.
    2:{ symmetry. apply Hcue. exists "i'm". split; [cbn; tauto|].
        exists "", (" " ++ Py.lower (name ++ tail))%string.
        by rewrite lower_app. }
    change ("I'm " ++ name ++ tail)%string
      with ("I'm" ++ (" " ++ name ++ tail))%string.
    rewrite split_word by done.
    change (Py.split (" " ++ name ++ tail)) with (Py.split (name ++ tail)).
    by rewrite Hwords.
  - replace (Py.any_in _ _) with true.
    2:{ symmetry. apply Hcue. exists "my name is". split; [cbn; tauto|].
        exists "", (" " ++ Py.lower (name ++ tail))%string.
        by rewrite lower_app. }
    change ("My name is " ++ name ++ tail)%string
      with ("My" ++ (" name is " ++ name ++ tail))%string.
    rewrite split_word by done.
    change (Py.split (" name is " ++ name ++ tail))
      with (Py.split ("name" ++ (" is " ++ name ++ tail))).
    rewrite split_word by done.
    change (Py.split (" is " ++ name ++ tail))
      with (Py.split ("is" ++ (" " ++ name ++ tail))).
    rewrite split_word by done.
    done.
Qed.

End Names.

Lemma X1_stored_name_witness :
  extract_name None "Hello, I am Dave." = Some "Dave" /\
  (None = Some "Dave" \/
   exists word,
     In word (Py.split "Hello, I am Dave.") /\
     "Dave" = Py.strip_chars ".,!?" word /\
     ~ begins_with_one_of ".,!?" "Dave" /\
     ~ ends_with_one_of ".,!?" "Dave").
Proof.
  split; [reflexivity|].
  apply (X1_stored_name_is_a_stripped_word None "Hello, I am Dave." "Dave").
  reflexivity.
Defined.

Lemma X2_introductions_witness :
  extract_name (Some "") "I am Dave, nice to meet you"
    = Some (Py.strip_chars ".,!?" "Dave,") /\
  extract_name (Some "") "I'm Dave, nice to meet you"
    = Some (Py.strip_chars ".,!?" "Dave,") /\
  extract_name (Some "") "My name is Dave, nice to meet you" = Some "is".
Proof.
  apply (X2_introductions (Some "") "Dave," " nice to meet you");
    [reflexivity | reflexivity | discriminate | reflexivity].
Defined.

(** ** PushToTalkChat: bookkeeping, the fallback and failures of a turn *)

Section PushToTalkBookkeeping.
Import PushToTalkChat PushToTalkSpec PushToTalkRules.

(** X3: after any sequence of calls of [generate_response], the history
    has gained exactly the user's utterances, in order, and none of the
    replies; [response_count] has gone up by the number of calls; the
    capture attributes are untouched. *)
Theorem X3_push_to_talk_bookkeeping (calls : list (string * string)) self :
  conversation_history (after calls self)
    = conversation_history self
        ++ map (fun call => ("user", fst call)) calls /\
  response_count (after calls self)
    = (response_count self + length calls)%nat /\
  is_recording (after calls self) = is_recording self /\
  audio_data (after calls self) = audio_data self /\
  use_whisper (after calls self) = use_whisper self.
Proof.
  revert self. induction calls as [|[utterance now] rest IH]; intros self.
  - cbn. rewrite app_nil_r. repeat split; lia.
  - cbn [after]. destruct (IH (fst (generate_response now utterance self)))
      as (Hh & Hc & Hr & Ha & Hw).
    rewrite Hh, Hc, Hr, Ha, Hw. cbn. rewrite <- app_assoc.
    repeat split; lia.
Qed.

Lemma responses_NoDup : List.NoDup responses.
Proof.
  apply NoDup_ListNoDup, (bool_decide_unpack _). vm_compute. exact I.
Qed.

Lemma fallback_reply now user_input self :
  falls_through user_input ->
  snd (generate_response now user_input self)
    = nth ((response_count self + 1) mod 10) responses "".
Proof.
  unfold falls_through, rule_words, Py.any_in. cbn [existsb].
  intros H.
  repeat match type of H with
         | (_ || _) = false => apply orb_false_elim in H as [? H]
         end.
  unfold generate_response, reply, Py.any_in.
  cbn [snd existsb response_count].
  repeat match goal with
         | Hw : Py.contains ?w ?s = false |- context [Py.contains ?w ?s] =>
             rewrite Hw
         end.
  reflexivity.
Qed.

(** X4: an utterance that matches no rule is answered by the entry of the
    fallback list at the new value of [response_count] modulo ten, and
    two such utterances in a row never get the same reply. *)
Theorem X4_fallback_rotates now now' user_input user_input' self :
  falls_through user_input -> falls_through user_input' ->
  let first := generate_response now user_input self in
  let second := generate_response now' user_input' (fst first) in
  snd first = nth ((response_count self + 1) mod 10) responses "" /\
  snd second = nth ((response_count self + 2) mod 10) responses "" /\
  snd first <> snd second.
Proof.
  intros H1 H2. cbv zeta.
  rewrite (fallback_reply now user_input self H1).
  rewrite (fallback_reply now' user_input' _ H2).
  cbn [generate_response fst response_count].
  replace (response_count self + 1 + 1)%nat
    with (response_count self + 2)%nat by lia.
  split; [done|]. split; [done|].
  intros Heq.
  apply (proj1 (NoDup_nth responses "") responses_NoDup) in Heq.
  - pose proof (Nat.div_mod_eq (response_count self + 1) 10).
    pose proof (Nat.div_mod_eq (response_count self + 2) 10).
    lia.
  - apply Nat.mod_upper_bound. discriminate.
  - apply Nat.mod_upper_bound. discriminate.
Qed.

End PushToTalkBookkeeping.

Lemma X4_fallback_rotates_witness :
  let first :=
    PushToTalkChat.generate_response "09:00 AM" "Bananas are yellow"
      (PushToTalkChat.init true) in
  let second :=
    PushToTalkChat.generate_response "09:01 AM" "So are lemons" (fst first) in
  snd first = "I see what you mean. Can you elaborate on that?" /\
  snd second = "That sounds fascinating! What else can you tell me?" /\
  snd first <> snd second.
Proof.
  apply (X4_fallback_rotates "09:00 AM" "09:01 AM" "Bananas are yellow"
           "So are lemons" (PushToTalkChat.init true)); reflexivity.
Defined.

Section PushToTalkFailures.
Import PushToTalkChat PushToTalkSpec.

Lemma push_to_talk_capture_raises (e : capture_env) s ex :
  snd (listen_with_push_to_talk e s) = Raise ex -> is_Exception ex = false.
Proof.
  destruct s as [self w].
  unfold listen_with_push_to_talk, process_with_whisper, process_with_google.
  run_monad. rewrite worker_appends. cbn [fst snd].
  split_cases; cbn [snd]; intros [= <-]; try done.
Qed.

Lemma push_to_talk_synthesize_raises (e : synth_env) text s ex :
  snd (synthesize_response e text s) = Raise ex -> is_Exception ex = false.
Proof.
  destruct s as [self w]. unfold synthesize_response.
  run_monad. split_cases; cbn [snd]; intros [= <-]; try done.
Qed.

(** X5: a push-to-talk session never ends in an [Exception]: whatever the
    collaborators of its turns do, the only things [run_conversation] can
    raise are [KeyboardInterrupt] and [SystemExit]. *)
Theorem X5_push_to_talk_session_contains_every_Exception
    (turns : list turn_env) s ex :
  snd (run_conversation turns s) = Raise ex -> is_Exception ex = false.
Proof.
  revert s. induction turns as [|e rest IH]; intros s; [done|].
  cbn [run_conversation]. unfold mbind, M_bind, bind, mret, M_ret, ret.
  destruct (listen_with_push_to_talk (ear e) s) as [s1 [[u|]|ex1]] eqn:Hcap.
  - unfold on_self.
    destruct (Py.any_in exit_words (Py.lower u)); cbv beta;
      destruct (generate_response (clock e) u (fst s1)) as [self' response].
    + destruct (synthesize_response (voice e) response (self', snd s1))
        as [s2 [[]|ex2]] eqn:Hsyn; cbn [snd]; [done|].
      intros [= <-].
      apply (push_to_talk_synthesize_raises (voice e) response
               (self', snd s1)). by rewrite Hsyn.
    + destruct (synthesize_response (voice e) response (self', snd s1))
        as [s2 [[]|ex2]] eqn:Hsyn; cbn [snd]; [apply IH|].
      intros [= <-].
      apply (push_to_talk_synthesize_raises (voice e) response
               (self', snd s1)). by rewrite Hsyn.
  - apply IH.
  - cbn [snd]. intros [= <-].
    apply (push_to_talk_capture_raises (ear e) s). by rewrite Hcap.
Qed.

End PushToTalkFailures.

Lemma X5_push_to_talk_session_witness :
  snd (PushToTalkChat.run_conversation
         [ Scenario.push_to_talk_turn Scenario.broken_tts "hello";
           Scenario2.push_to_talk_interrupted ]
         Scenario.push_to_talk_start)
    = Raise KeyboardInterrupt /\
  is_Exception KeyboardInterrupt = false.
Proof.
  assert (H : snd (PushToTalkChat.run_conversation
                     [ Scenario.push_to_talk_turn Scenario.broken_tts "hello";
                       Scenario2.push_to_talk_interrupted ]
                     Scenario.push_to_talk_start)
              = Raise KeyboardInterrupt) by (vm_compute; reflexivity).
  split; [exact H|].
  exact (X5_push_to_talk_session_contains_every_Exception _ _ _ H).
Defined.

(** ** VoiceChat and UltraFastVoiceChat: what the capture lets through *)

Section UnexpectedErrors.

(** X6: in [VoiceChat] and in [UltraFastVoiceChat] the capture handles
    [WaitTimeoutError], [UnknownValueError] and [RequestError] only.  Any
    other exception of the microphone or of the recogniser leaves
    [listen_for_speech] and [run_conversation]: the session ends with
    that exception in the turn in which it occurs, with nothing
    synthesised in that turn and the remaining turns never run. *)
Theorem X6_unexpected_capture_error_ends_the_session ex :
  ex <> WaitTimeoutError -> ex <> UnknownValueError -> ex <> RequestError ->
  (forall (e : VoiceChat.turn_env) rest s,
      VoiceChat.recognizer_listen (VoiceChat.ear e) = Raise ex \/
      (exists audio,
          VoiceChat.recognizer_listen (VoiceChat.ear e) = Ret audio /\
          VoiceChat.recognize_google (VoiceChat.ear e) audio = Raise ex) ->
      VoiceChat.run_conversation (e :: rest) s
        = (VoiceChatSpec.listened s, Raise ex)) /\
  (forall (e : UltraFastVoiceChat.turn_env) rest s,
      UltraFastVoiceChat.recognizer_listen (UltraFastVoiceChat.ear e)
        = Raise ex \/
      (exists audio,
          UltraFastVoiceChat.recognizer_listen (UltraFastVoiceChat.ear e)
            = Ret audio /\
          UltraFastVoiceChat.recognize_google (UltraFastVoiceChat.ear e)
            audio = Raise ex) ->
      UltraFastVoiceChat.run_conversation (e :: rest) s
        = (UltraFastSpec.listened s, Raise ex)).
Proof.
  intros H1 H2 H3. split.
  - intros e rest [self w] H.
    cbn [VoiceChat.run_conversation].
    unfold VoiceChat.listen_for_speech, VoiceChatSpec.listened.
    run_monad.
    destruct H as [-> | [audio [-> ->]]]; by destruct ex.
  - intros e rest [self w] H.
    cbn [UltraFastVoiceChat.run_conversation].
    unfold UltraFastVoiceChat.listen_for_speech, UltraFastSpec.listened.
    run_monad.
    destruct H as [-> | [audio [-> ->]]]; by destruct ex.
Qed.

End UnexpectedErrors.

Lemma X6_unexpected_capture_error_witness :
  VoiceChat.run_conversation
    [Scenario2.voice_chat_broken_ear; Scenario.voice_chat_says "hello"]
    Scenario.voice_chat_start
  = (VoiceChatSpec.listened Scenario.voice_chat_start,
     Raise (OtherException "OSError")) /\
  UltraFastVoiceChat.run_conversation
    [Scenario2.ultra_fast_broken_ear; Scenario2.ultra_fast_turn "hello"]
    Scenario.ultra_fast_start
  = (UltraFastSpec.listened Scenario.ultra_fast_start,
     Raise (OtherException "OSError")).
Proof.
  assert (H := X6_unexpected_capture_error_ends_the_session
                 (OtherException "OSError")).
  destruct H as [Hv Hu]; [discriminate | discriminate | discriminate |].
  split.
  - apply Hv. left. reflexivity.
  - apply Hu. left. reflexivity.
Defined.

(** ** UltraFastVoiceChat: a turn of the loop *)

Section UltraFastTurn.
Import UltraFastVoiceChat UltraFastSpec.

Lemma ultra_fast_listen (e : listen_env) s transcript :
  heard e = Some transcript ->
  listen_for_speech e s = (listened s, Ret (Some transcript)).
Proof.
  unfold heard, listen_for_speech, listened.
  destruct s as [self w]. run_monad.
  destruct (recognizer_listen e) as [audio|ex]; [|done].
  destruct (recognize_google e audio) as [text|ex]; [|done].
  by intros [= ->].
Qed.

Lemma ultra_fast_synthesize e text s s' r :
  synthesize_response e text s = (s', r) ->
  fst s' = fst s /\
  (exists tail,
      trace (snd s') = trace (snd s) ++ Synthesize text :: tail /\
      quiet tail) /\
  (no_interrupt e -> r = Ret tt).
Proof.
  destruct s as [self w]. unfold synthesize_response.
  run_monad. split_cases; intros [= <- <-]; cbn [fst snd fs trace];
    (split; [done | split; [trace_tail |]]).
  all: intros [Hi Hw Hp Hr]; try done.
  all: specialize (Hi text);
    match goal with
    | H : normalize ?t ?a = Raise _ |- _ =>
        pose proof (normalize_calm t a)
    | _ => idtac
    end; use_calm.
Qed.

Lemma ultra_fast_reply_is_no_farewell now draw user_input :
  ~ says_one_of exit_words user_input ->
  generate_response now draw user_input <> "Bye! See you later!".
Proof.
  intros Hno. rewrite <- exit_test_spec in Hno.
  apply not_true_is_false in Hno.
  unfold generate_response. change ["goodbye"; "bye"; "quit"; "exit"]
    with exit_words. rewrite Hno.
  repeat match goal with
         | |- context [if ?b then _ else _] => destruct b; [done|]
         end.
  pose proof (choice_In draw responses) as Hin.
  cbn [responses In] in Hin.
  intros Heq. rewrite Heq in Hin.
  assert (Hne : responses <> []) by done.
  specialize (Hin Hne). decompose [or] Hin; done.
Qed.

(** X7: a turn of [UltraFastVoiceChat.run_conversation] in which the
    recogniser understands a transcript and nothing interrupts the
    synthesis.  If the transcript contains "goodbye", "bye", "quit" or
    "exit" in any letter case, the farewell "Bye! See you later!" is
    synthesised once and the loop is left.  Otherwise the reply of
    [generate_response] is synthesised once, that reply is never the
    farewell, and the loop goes on with the next turn. *)
Theorem X7_ultra_fast_turn (e : turn_env) rest s transcript :
  heard (ear e) = Some transcript ->
  no_interrupt (voice e) ->
  exists s2 tail,
    quiet tail /\
    (says_one_of exit_words transcript ->
       run_conversation (e :: rest) s = (s2, Ret Stopped) /\
       trace (snd s2)
         = trace (snd s)
             ++ Listen :: Synthesize "Bye! See you later!" :: tail) /\
    (~ says_one_of exit_words transcript ->
       let response := generate_response (clock e) (draw e) transcript in
       run_conversation (e :: rest) s = run_conversation rest s2 /\
       trace (snd s2)
         = trace (snd s) ++ Listen :: Synthesize response :: tail /\
       response <> "Bye! See you later!").
Proof.
  intros Hheard Hcalm.
  pose proof (ultra_fast_listen (ear e) s transcript Hheard) as Hlisten.
  cbn [run_conversation]. rewrite (bind_Ret _ _ _ _ _ Hlisten).
  destruct (Py.any_in exit_words (Py.lower transcript)) eqn:Hexit.
  - destruct (synthesize_response (voice e) "Bye! See you later!"
                (listened s)) as [s2 r] eqn:Hsyn.
    destruct (ultra_fast_synthesize _ _ _ _ _ Hsyn)
      as (_ & [tail [Htrace Hq]] & Hr).
    rewrite (Hr Hcalm) in Hsyn.
    exists s2, tail. split; [done|]. split.
    + intros _. split; [by rewrite (bind_Ret _ _ _ _ _ Hsyn)|].
      rewrite Htrace. cbn [listened snd trace]. by rewrite <- app_assoc.
    + intros Hno. rewrite <- exit_test_spec in Hno. congruence.
  - cbv zeta.
    destruct (synthesize_response (voice e)
                (generate_response (clock e) (draw e) transcript)
                (listened s)) as [s2 r] eqn:Hsyn.
    destruct (ultra_fast_synthesize _ _ _ _ _ Hsyn)
      as (_ & [tail [Htrace Hq]] & Hr).
    rewrite (Hr Hcalm) in Hsyn.
    exists s2, tail. split; [done|]. split.
    + intros Hyes. rewrite <- exit_test_spec in Hyes. congruence.
    + intros Hno. split; [by rewrite (bind_Ret _ _ _ _ _ Hsyn)|].
      split; [|by apply ultra_fast_reply_is_no_farewell].
      rewrite Htrace. cbn [listened snd trace]. by rewrite <- app_assoc.
Qed.

End UltraFastTurn.

Lemma X7_ultra_fast_turn_witness :
  exists s2 tail,
    quiet tail /\
    (says_one_of UltraFastVoiceChat.exit_words "Bye for now" ->
       UltraFastVoiceChat.run_conversation
         [Scenario2.ultra_fast_turn "Bye for now"] Scenario.ultra_fast_start
         = (s2, Ret Stopped) /\
       trace (snd s2)
         = trace (snd Scenario.ultra_fast_start)
             ++ Listen :: Synthesize "Bye! See you later!" :: tail) /\
    (~ says_one_of UltraFastVoiceChat.exit_words "Bye for now" ->
       let response :=
         UltraFastVoiceChat.generate_response "09:00" 3 "Bye for now" in
       UltraFastVoiceChat.run_conversation
         [Scenario2.ultra_fast_turn "Bye for now"] Scenario.ultra_fast_start
         = UltraFastVoiceChat.run_conversation [] s2 /\
       trace (snd s2)
         = trace (snd Scenario.ultra_fast_start)
             ++ Listen :: Synthesize response :: tail /\
       response <> "Bye! See you later!").
Proof.
  apply (X7_ultra_fast_turn (Scenario2.ultra_fast_turn "Bye for now") []
           Scenario.ultra_fast_start "Bye for now").
  - reflexivity.
  - split; cbn; done.
Defined.

(** ** SmartEdgeVoiceChat: capture, synthesis and the loop *)

Section SmartEdgeFailures.
Import SmartEdgeVoiceChat.

Lemma smart_edge_whisper_raises (e : listen_env) s ex :
  snd (listen_for_speech_whisper e s) = Raise ex -> is_Exception ex = false.
Proof.
  destruct s as [self w]. unfold listen_for_speech_whisper.
  run_monad. split_cases; cbn [snd]; intros [= <-]; try done.
Qed.

Lemma smart_edge_synthesize_raises (e : synth_env) text s ex :
  snd (synthesize_response e text s) = Raise ex -> is_Exception ex = false.
Proof.
  destruct s as [self w]. unfold synthesize_response.
  run_monad. split_cases; cbn [snd]; intros [= <-]; try done.
Qed.

Lemma smart_edge_whisper_session_raises (turns : list turn_env) s ex :
  snd (run_conversation true turns s) = Raise ex -> is_Exception ex = false.
Proof.
  revert s. induction turns as [|e rest IH]; intros s; [done|].
  cbn [run_conversation listen_for_speech].
  unfold mbind, M_bind, bind, mret, M_ret, ret.
  destruct (listen_for_speech_whisper (ear e) s) as [s1 [[u|]|ex1]] eqn:Hcap.
  - unfold on_self.
    destruct (Py.any_in exit_words (Py.lower u)); cbv beta;
      destruct (generate_smart_response (mind e) u (fst s1))
        as [self' response].
    + destruct (synthesize_response (voice e) response (self', snd s1))
        as [s2 [[]|ex2]] eqn:Hsyn; cbn [snd]; [done|].
      intros [= <-].
      apply (smart_edge_synthesize_raises (voice e) response
               (self', snd s1)). by rewrite Hsyn.
    + destruct (synthesize_response (voice e) response (self', snd s1))
        as [s2 [[]|ex2]] eqn:Hsyn; cbn [snd]; [apply IH|].
      intros [= <-].
      apply (smart_edge_synthesize_raises (voice e) response
               (self', snd s1)). by rewrite Hsyn.
  - apply IH.
  - cbn [snd]. intros [= <-].
    apply (smart_edge_whisper_raises (ear e) s). by rewrite Hcap.
Qed.

(** X8: which failures a [SmartEdgeVoiceChat] session survives depends on
    the recogniser in use.  With Whisper the session never ends in an
    [Exception], whatever the collaborators do.  With Google an exception
    of the microphone or of the recogniser other than [WaitTimeoutError],
    [UnknownValueError] and [RequestError] ends the session in the turn
    in which it occurs, after the capture attempt and before any reply. *)
Theorem X8_smart_edge_failures_by_recogniser ex :
  (forall turns s,
      snd (run_conversation true turns s) = Raise ex ->
      is_Exception ex = false) /\
  (ex <> WaitTimeoutError -> ex <> UnknownValueError -> ex <> RequestError ->
   forall (e : turn_env) rest s,
     recognizer_listen (ear e) = Raise ex \/
     (exists audio,
         recognizer_listen (ear e) = Ret audio /\
         recognize_google (ear e) audio = Raise ex) ->
     run_conversation false (e :: rest) s
       = ((fst s, {| fs := fs (snd s);
                     trace := trace (snd s) ++ [Listen] |}), Raise ex)).
Proof.
  split; [intros turns s; apply smart_edge_whisper_session_raises|].
  intros H1 H2 H3 e rest [self w] H.
  cbn [run_conversation listen_for_speech].
  unfold listen_for_speech_google. run_monad.
  destruct H as [-> | [audio [-> ->]]]; by destruct ex.
Qed.

(** X9: the temp file of a Whisper capture in [SmartEdgeVoiceChat].  When
    [os.unlink] works the file is gone when the capture returns, whatever
    the transcription did, interrupts included.  When [os.unlink] fails
    with an [Exception] the capture returns [None] - a transcript that
    Whisper produced is dropped - and the file stays. *)
Theorem X9_smart_edge_whisper_temp_file (e : listen_env) s audio tmp :
  recognizer_listen e = Ret audio ->
  named_temporary_file e = Ret tmp ->
  let run := listen_for_speech_whisper e s in
  (os_unlink_result e = Ret tt -> tmp ∉ fs (snd (fst run))) /\
  (forall ex,
      os_unlink_result e = Raise ex -> is_Exception ex = true ->
      snd run = Ret None /\ tmp ∈ fs (snd (fst run))).
Proof.
  intros Hlisten Htmp. destruct s as [self w]. cbv zeta.
  unfold listen_for_speech_whisper. run_monad. rewrite Hlisten, Htmp.
  pose proof (bool_decide_eq_true_2 _ (elem_of_created tmp (fs w)))
    as Hthere.
  split.
  - intros ->.
    destruct (whisper_transcribe e audio) as [a|ex0];
      [destruct (Py.strip a)|]; cbn [fst snd fs trace]; rewrite Hthere;
      cbn [fst snd fs trace]; split_cases; cbn [fst snd fs trace];
      apply not_elem_of_removed.
  - intros ex -> Hex.
    destruct (whisper_transcribe e audio) as [a|ex0];
      [destruct (Py.strip a)|]; cbn [fst snd fs trace]; rewrite Hthere;
      cbn [fst snd fs trace]; rewrite Hex; cbn [fst snd fs trace];
      (split; [done | apply elem_of_created]).
Qed.

End SmartEdgeFailures.

Lemma X8_smart_edge_failures_witness :
  (snd (SmartEdgeVoiceChat.run_conversation true
          [ Scenario2.smart_edge_turn Scenario2.smart_edge_interrupted_ear ]
          Scenario2.smart_edge_start) = Raise KeyboardInterrupt /\
   is_Exception KeyboardInterrupt = false) /\
  SmartEdgeVoiceChat.run_conversation false
    [ Scenario2.smart_edge_turn Scenario2.smart_edge_broken_ear;
      Scenario2.smart_edge_turn (Scenario2.smart_edge_ear "hello") ]
    Scenario2.smart_edge_start
  = ((SmartEdgeVoiceChat.init, {| fs := ∅; trace := [Listen] |}),
     Raise (OtherException "OSError")).
Proof.
  assert (H : snd (SmartEdgeVoiceChat.run_conversation true
                     [ Scenario2.smart_edge_turn
                         Scenario2.smart_edge_interrupted_ear ]
                     Scenario2.smart_edge_start) = Raise KeyboardInterrupt)
    by (vm_compute; reflexivity).
  split.
  - split; [exact H|].
    exact (proj1 (X8_smart_edge_failures_by_recogniser KeyboardInterrupt)
             _ _ H).
  - apply (proj2 (X8_smart_edge_failures_by_recogniser
                    (OtherException "OSError")));
      [discriminate | discriminate | discriminate |].
    left. reflexivity.
Defined.

Lemma X9_smart_edge_whisper_temp_file_witness :
  ("/tmp/tmpk3v9x2.wav"
     ∉ fs (snd (fst (SmartEdgeVoiceChat.listen_for_speech_whisper
                       (Scenario2.smart_edge_ear "hello")
                       Scenario2.smart_edge_start)))) /\
  (let run :=
     SmartEdgeVoiceChat.listen_for_speech_whisper
       (Scenario2.smart_edge_locked_ear "hello") Scenario2.smart_edge_start in
   snd run = Ret None /\ "/tmp/tmpk3v9x2.wav" ∈ fs (snd (fst run))).
Proof.
  split.
  - apply (proj1 (X9_smart_edge_whisper_temp_file
                    (Scenario2.smart_edge_ear "hello")
                    Scenario2.smart_edge_start Scenario.chunk
                    "/tmp/tmpk3v9x2.wav" eq_refl eq_refl)).
    reflexivity.
  - apply (proj2 (X9_smart_edge_whisper_temp_file
                    (Scenario2.smart_edge_locked_ear "hello")
                    Scenario2.smart_edge_start Scenario.chunk
                    "/tmp/tmpk3v9x2.wav" eq_refl eq_refl)
             (OtherException "PermissionError")); reflexivity.
Defined.

(** ** Temp files and artifacts *)

Section TempFiles.

(** X10: a temp file that cannot be deleted after a Whisper
    transcription.  In [PushToTalkChat] the failure of [os.unlink] in the
    [finally] block replaces the result: the capture yields [None] and
    the transcript is lost.  In [CleanExitVoiceChat] the deletion is
    wrapped in a bare [except], and the transcript is returned. *)
Theorem X10_failed_deletion_of_the_temp_file audio text tmp ex :
  Py.strip text <> "" ->
  (forall (e : PushToTalkChat.capture_env) s,
      is_Exception ex = true ->
      PushToTalkChat.named_temporary_file e = Ret tmp ->
      PushToTalkChat.whisper_transcribe e audio = Ret text ->
      PushToTalkChat.os_unlink_result e = Raise ex ->
      snd (PushToTalkChat.process_with_whisper e audio s) = Ret None) /\
  (forall (e : CleanExitVoiceChat.listen_env) s,
      CleanExitVoiceChat.running (fst s) = true ->
      CleanExitVoiceChat.named_temporary_file e = Ret tmp ->
      CleanExitVoiceChat.whisper_transcribe e audio = Ret text ->
      CleanExitVoiceChat.os_unlink_result e = Raise ex ->
      snd (CleanExitVoiceChat.process_with_whisper e audio s)
        = Ret (Some (Py.strip text))).
Proof.
  intros Htext. split.
  - intros e [self w] Hex Htmp Hheard Hunlink.
    unfold PushToTalkChat.process_with_whisper. run_monad.
    rewrite Htmp, Hheard, Hunlink.
    destruct (Py.strip text); [done|]. cbn [fst snd fs trace].
    rewrite (bool_decide_eq_true_2 _ (elem_of_created tmp (fs w))).
    by rewrite Hex.
  - intros e [self w] Hrun Htmp Hheard Hunlink. cbn [fst] in Hrun.
    unfold CleanExitVoiceChat.process_with_whisper. run_monad.
    rewrite Htmp, Hrun, Hheard, Hunlink. cbn [negb fst snd fs trace].
    destruct (Py.strip text); [done|]. cbn [fst snd fs trace].
    rewrite Hrun. cbn [fst snd fs trace].
    by rewrite (bool_decide_eq_true_2 _ (elem_of_created tmp (fs w))).
Qed.

End TempFiles.

Lemma X10_failed_deletion_witness :
  snd (PushToTalkChat.process_with_whisper
         (Scenario2.held_key_locked " hello ") Scenario.chunk
         Scenario.push_to_talk_start) = Ret None /\
  snd (CleanExitVoiceChat.process_with_whisper
         (Scenario2.clean_exit_locked_ear " hello ") Scenario.chunk
         Scenario.clean_exit_start) = Ret (Some (Py.strip " hello ")).
Proof.
  assert (H := X10_failed_deletion_of_the_temp_file Scenario.chunk " hello "
                 "/tmp/tmpk3v9x2.wav" (OtherException "PermissionError")).
  destruct H as [Hp Hc]; [discriminate|].
  split.
  - apply Hp; reflexivity.
  - apply Hc; reflexivity.
Defined.

Section Artifacts.

Lemma created_then_removed (path : string) (files : gset string) :
  path ∉ files -> ({[path]} ∪ files) ∖ {[path]} = files.
Proof.
  intros Hfresh. apply set_eq. intros p.
  rewrite elem_of_difference, elem_of_union, elem_of_singleton. split.
  - intros [[-> | H] Hne]; [by destruct Hne | done].
  - intros H. split; [by right|]. by intros ->.
Qed.

Lemma same_files_but_refl paths w : same_files_but paths w w.
Proof. by intros p _. Qed.

Lemma same_files_but_created path w t :
  same_files_but [path] w {| fs := {[path]} ∪ fs w; trace := t |}.
Proof.
  intros p Hp. cbn [fs]. rewrite elem_of_union, elem_of_singleton.
  split; [|by right]. intros [-> | H]; [|done].
  destruct Hp. by left.
Qed.

Lemma same_files_but_removed path w t :
  same_files_but [path] w {| fs := fs w ∖ {[path]}; trace := t |}.
Proof.
  intros p Hp. cbn [fs]. rewrite elem_of_difference, elem_of_singleton.
  split; [by intros [H _]|]. intros H. split; [done|].
  intros ->. destruct Hp. by left.
Qed.

Lemma same_files_but_cleared path w t :
  same_files_but [path] w
    {| fs := ({[path]} ∪ fs w) ∖ {[path]}; trace := t |}.
Proof.
  intros p Hp. cbn [fs].
  rewrite elem_of_difference, elem_of_union, elem_of_singleton.
  split; [intros [[-> | H] Hne]; [by destruct Hne | done]|].
  intros H. split; [by right|]. intros ->. destruct Hp. by left.
Qed.

Lemma same_files_but_same paths w t :
  same_files_but paths w {| fs := fs w; trace := t |}.
Proof. by intros p _. Qed.

(** X11: [SmartEdgeVoiceChat.synthesize_response] and the file system.
    Whatever its collaborators do, the only path whose existence it can
    change is its output path, [temp_response.wav] in the working
    directory.  If that file did not exist before, [sf.write] succeeds or
    fails without having created the file, the player process runs to its
    end and [os.remove] works, then the file system on return is the one
    before the call.  If [sf.write] fails with an [Exception] after it
    has created the file, the call still returns normally and the file
    is left behind. *)
Theorem X11_smart_edge_synthesis_and_files (e : synth_env) text s :
  let run := SmartEdgeVoiceChat.synthesize_response e text s in
  same_files_but [SmartEdgeVoiceChat.output_path e]
    (snd s) (snd (fst run)) /\
  (forall code,
      SmartEdgeVoiceChat.output_path e ∉ fs (snd s) ->
      write_leaves_nothing e ->
      afplay e = Ret code ->
      os_remove_result e = Ret tt ->
      fs (snd (fst run)) = fs (snd s)) /\
  (forall wav wav' ex,
      tts_infer e text = Ret wav ->
      normalize (8 # 10) wav = Ret wav' ->
      sf_write_result e = Raise ex ->
      is_Exception ex = true ->
      sf_write_creates e = true ->
      snd run = Ret tt /\
      SmartEdgeVoiceChat.output_path e ∈ fs (snd (fst run))).
Proof.
  destruct s as [self w]. cbv zeta.
  unfold SmartEdgeVoiceChat.synthesize_response. run_monad.
  split; [|split].
  - split_cases; cbn [fst snd];
      first [ apply same_files_but_same
            | apply same_files_but_created
            | apply same_files_but_cleared ].
  - intros code Hfresh Hwrite -> ->. unfold write_leaves_nothing in Hwrite.
    destruct (sf_write_result e); [|rewrite Hwrite];
      split_cases; cbn [fst snd fs] in *; try done;
      try (by apply created_then_removed).
    all: match goal with
         | Hgone : bool_decide _ = false |- _ =>
             apply bool_decide_eq_false in Hgone; destruct Hgone;
             apply elem_of_created
         end.
  - intros wav wav' ex -> -> -> Hex ->. cbn [fst snd fs trace].
    rewrite Hex. cbn [fst snd fs]. split; [done | apply elem_of_created].
Qed.

(** X12: a TTS engine that returns no samples.  In [PushToTalkChat],
    [SmartEdgeVoiceChat] and [UltraFastVoiceChat] the normalisation step
    raises on the empty array ([np.max] has no value for it); the
    [except] clause swallows that, so the call returns normally having
    written and played nothing.  [VoiceChat] and [CleanExitVoiceChat]
    do not normalise: they hand the empty waveform to [sf.write]. *)
Theorem X12_empty_waveform (e : synth_env) text :
  tts_infer e text = Ret [] ->
  let silent (w : world) : world :=
    {| fs := fs w; trace := trace w ++ [Synthesize text; Infer text] |} in
  (forall s, PushToTalkChat.synthesize_response e text s
             = ((fst s, silent (snd s)), Ret tt)) /\
  (forall s, SmartEdgeVoiceChat.synthesize_response e text s
             = ((fst s, silent (snd s)), Ret tt)) /\
  (forall s, UltraFastVoiceChat.synthesize_response e text s
             = ((fst s, silent (snd s)), Ret tt)) /\
  (forall s, In (Write (VoiceChat.output_path e) [])
               (trace (snd (fst (VoiceChat.synthesize_response e text s))))) /\
  (forall s, CleanExitVoiceChat.running (fst s) = true ->
             In (Write (CleanExitVoiceChat.output_path e) [])
               (trace (snd (fst (CleanExitVoiceChat.synthesize_response
                                   e text s))))).
Proof.
  intros Hmute. cbv zeta. repeat split.
  - intros [self w]. unfold PushToTalkChat.synthesize_response.
    run_monad. rewrite Hmute. cbn. by rewrite <- app_assoc.
  - intros [self w]. unfold SmartEdgeVoiceChat.synthesize_response.
    run_monad. rewrite Hmute. cbn. by rewrite <- app_assoc.
  - intros [self w]. unfold UltraFastVoiceChat.synthesize_response.
    run_monad. rewrite Hmute. cbn. by rewrite <- app_assoc.
  - intros [self w]. unfold VoiceChat.synthesize_response.
    run_monad. rewrite Hmute.
    split_cases; cbn [fst snd fs trace]; rewrite ?in_app_iff; cbn [In];
      tauto.
  - intros [self w] Hrun. cbn [fst] in Hrun.
    unfold CleanExitVoiceChat.synthesize_response.
    run_monad. rewrite Hrun, Hmute. cbn [negb fst snd fs trace].
    split_cases; cbn [fst snd fs trace]; rewrite ?in_app_iff; cbn [In];
      tauto.
Qed.

End Artifacts.

Lemma X11_smart_edge_synthesis_witness :
  fs (snd (fst (SmartEdgeVoiceChat.synthesize_response Scenario.studio
                  "Hello!" Scenario2.smart_edge_start)))
  = fs (snd Scenario2.smart_edge_start) /\
  (let run :=
     SmartEdgeVoiceChat.synthesize_response Scenario2.full_disk "Hello!"
       Scenario2.smart_edge_start in
   snd run = Ret tt /\
   SmartEdgeVoiceChat.output_path Scenario2.full_disk ∈ fs (snd (fst run))).
Proof.
  split.
  - apply (proj1 (proj2 (X11_smart_edge_synthesis_and_files Scenario.studio
                           "Hello!" Scenario2.smart_edge_start)) 0%Z).
    + apply (bool_decide_unpack _). vm_compute. exact I.
    + exact I.
    + reflexivity.
    + reflexivity.
  - apply (proj2 (proj2 (X11_smart_edge_synthesis_and_files
                           Scenario2.full_disk "Hello!"
                           Scenario2.smart_edge_start))
             [1 # 2; - (1 # 4)]%Q
             (map (fun x => (x / (1 # 2) * (8 # 10))%Q) [1 # 2; - (1 # 4)]%Q)
             (OtherException "LibsndfileError")); reflexivity.
Defined.

Lemma X12_empty_waveform_witness :
  PushToTalkChat.synthesize_response Scenario2.mute_tts "Hello!"
    Scenario.push_to_talk_start
  = ((PushToTalkChat.init true,
      {| fs := ∅; trace := [Synthesize "Hello!"; Infer "Hello!"] |}), Ret tt).
Proof.
  apply (proj1 (X12_empty_waveform Scenario2.mute_tts "Hello!" eq_refl)
           Scenario.push_to_talk_start).
Defined.

(** ** SmartEdgeVoiceChat: bookkeeping and a turn of the loop *)

Section SmartEdgeBookkeeping.
Import SmartEdgeVoiceChat SmartEdgeSpec.

Lemma extract_keywords_topics text topic :
  In topic (extract_keywords text) -> In topic (map fst topics).
Proof.
  unfold extract_keywords. rewrite !in_map_iff.
  intros [tw [Hfst Hin]]. exists tw. split; [done|].
  apply list_elem_of_In. apply list_elem_of_In in Hin.
  by apply list_elem_of_filter in Hin as [_ Hin].
Qed.

(** X13: the bookkeeping of [generate_smart_response] over any sequence
    of calls.  The history gains exactly the user's utterances, in
    order, and [response_count] the number of calls.  [topics_discussed]
    only grows; every topic whose keywords occur in one of the
    utterances is in it afterwards; and nothing enters it but the nine
    topic names. *)
Theorem X13_smart_edge_bookkeeping (calls : list (string * reply_env)) self :
  conversation_history (after calls self)
    = conversation_history self
        ++ map (fun call => ("user", fst call)) calls /\
  response_count (after calls self)
    = (response_count self + length calls)%nat /\
  topics_discussed self ⊆ topics_discussed (after calls self) /\
  (forall utterance e topic,
      In (utterance, e) calls -> In topic (extract_keywords utterance) ->
      topic ∈ topics_discussed (after calls self)) /\
  (forall topic,
      topic ∈ topics_discussed (after calls self) ->
      topic ∈ topics_discussed self \/ In topic (map fst topics)).
Proof.
  revert self. induction calls as [|[utterance e] rest IH]; intros self.
  - cbn [after map length]. rewrite app_nil_r.
    split; [done|]. split; [lia|]. split; [done|].
    split; [by intros ? ? ? []|]. intros topic H. by left.
  - cbn [after].
    destruct (IH (fst (generate_smart_response e utterance self)))
      as (Hh & Hc & Hsub & Hall & Honly).
    cbn [generate_smart_response fst conversation_history response_count
         topics_discussed] in *.
    split; [rewrite Hh; cbn [map fst]; by rewrite <- app_assoc|].
    split; [rewrite Hc; cbn [length]; lia|].
    split.
    { intros topic Htopic. apply Hsub, elem_of_union. by left. }
    split.
    { intros u env topic [[= -> ->] | Hin] Hkey.
      - apply Hsub, elem_of_union. right.
        by apply elem_of_list_to_set, list_elem_of_In.
      - by apply (Hall u env). }
    intros topic Htopic.
    destruct (Honly topic Htopic) as [Hold | Hname]; [|by right].
    apply elem_of_union in Hold as [Hold | Hnew]; [by left|].
    right. apply elem_of_list_to_set, list_elem_of_In in Hnew.
    by apply (extract_keywords_topics utterance).
Qed.

End SmartEdgeBookkeeping.

Section SmartEdgeTurn.
Import SmartEdgeVoiceChat.

Lemma smart_edge_synthesize e text s s' r :
  synthesize_response e text s = (s', r) ->
  fst s' = fst s /\
  (exists tail,
      trace (snd s') = trace (snd s) ++ Synthesize text :: tail /\
      quiet tail) /\
  (no_interrupt e -> r = Ret tt).
Proof.
  destruct s as [self w]. unfold synthesize_response.
  run_monad. split_cases; intros [= <- <-]; cbn [fst snd fs trace];
    (split; [done | split; [trace_tail |]]).
  all: intros [Hi Hw Hp Hr]; try done.
  all: specialize (Hi text);
    match goal with
    | H : normalize ?t ?a = Raise _ |- _ =>
        pose proof (normalize_calm t a)
    | _ => idtac
    end; use_calm.
Qed.

(** X14: a turn of [SmartEdgeVoiceChat.run_conversation] in which the
    capture, with either recogniser, understands a transcript and
    nothing interrupts the synthesis.  The transcript always goes through
    [generate_smart_response]: its bookkeeping is done and its reply is
    synthesised once, also when the transcript is an exit phrase.  The
    loop is left after the turn if and only if the transcript contains
    "goodbye", "quit", "exit", "stop" or "bye" in any letter case. *)
Theorem X14_smart_edge_turn use_whisper (e : turn_env) rest s s1 transcript :
  listen_for_speech use_whisper (ear e) s = (s1, Ret (Some transcript)) ->
  no_interrupt (voice e) ->
  let answered := generate_smart_response (mind e) transcript (fst s1) in
  exists s2 tail,
    fst s2 = fst answered /\
    trace (snd s2) = trace (snd s1) ++ Synthesize (snd answered) :: tail /\
    quiet tail /\
    (says_one_of exit_words transcript ->
       run_conversation use_whisper (e :: rest) s = (s2, Ret Stopped)) /\
    (~ says_one_of exit_words transcript ->
       run_conversation use_whisper (e :: rest) s
         = run_conversation use_whisper rest s2).
Proof.
  intros Hlisten Hcalm. cbv zeta.
  cbn [run_conversation]. rewrite (bind_Ret _ _ _ _ _ Hlisten).
  destruct (generate_smart_response (mind e) transcript (fst s1))
    as [self' response] eqn:Hgen.
  assert (Hon : on_self (generate_smart_response (mind e) transcript) s1
                = ((self', snd s1), Ret response)).
  { unfold on_self. by rewrite Hgen. }
  destruct (synthesize_response (voice e) response (self', snd s1))
    as [s2 r] eqn:Hsyn.
  destruct (smart_edge_synthesize _ _ _ _ _ Hsyn)
    as (Hself & [tail [Htrace Hq]] & Hr).
  rewrite (Hr Hcalm) in Hsyn.
  exists s2, tail. cbn [fst snd] in *.
  split; [done|]. split; [done|]. split; [done|].
  rewrite <- !exit_test_spec.
  destruct (Py.any_in exit_words (Py.lower transcript)).
  - split; [|done]. intros _.
    rewrite (bind_Ret _ _ _ _ _ Hon). by rewrite (bind_Ret _ _ _ _ _ Hsyn).
  - split; [done|]. intros _.
    rewrite (bind_Ret _ _ _ _ _ Hon). by rewrite (bind_Ret _ _ _ _ _ Hsyn).
Qed.

End SmartEdgeTurn.

Lemma X14_smart_edge_turn_witness :
  let e := Scenario2.smart_edge_turn (Scenario2.smart_edge_ear "Please stop") in
  let s1 : SmartEdgeVoiceChat.t * world :=
    (SmartEdgeVoiceChat.init,
     {| fs := ∅; trace := [Listen; Remove "/tmp/tmpk3v9x2.wav"] |}) in
  let answered :=
    SmartEdgeVoiceChat.generate_smart_response (Scenario.monday 3)
      "Please stop" SmartEdgeVoiceChat.init in
  exists s2 tail,
    fst s2 = fst answered /\
    trace (snd s2) = trace (snd s1) ++ Synthesize (snd answered) :: tail /\
    quiet tail /\
    (says_one_of SmartEdgeVoiceChat.exit_words "Please stop" ->
       SmartEdgeVoiceChat.run_conversation true [e] Scenario2.smart_edge_start
         = (s2, Ret Stopped)) /\
    (~ says_one_of SmartEdgeVoiceChat.exit_words "Please stop" ->
       SmartEdgeVoiceChat.run_conversation true [e] Scenario2.smart_edge_start
         = SmartEdgeVoiceChat.run_conversation true [] s2).
Proof.
  intros e s1 answered.
  apply (X14_smart_edge_turn true e [] Scenario2.smart_edge_start s1
           "Please stop").
  - vm_compute. reflexivity.
  - split; cbn; done.
Defined.

(** ** What a Whisper capture returns *)

Section Transcripts.

Lemma strip_fixed raw c rest :
  Py.strip raw = String c rest ->
  String c rest <> "" /\ Py.strip (String c rest) = String c rest.
Proof.
  intros H. split; [done|]. rewrite <- H. apply strip_by_idempotent.
Qed.

(** X15: a Whisper capture never returns an empty or padded transcript.
    Whenever [SmartEdgeVoiceChat.listen_for_speech_whisper],
    [PushToTalkChat.process_with_whisper] or
    [CleanExitVoiceChat.process_with_whisper] return a transcript, it is
    not the empty string and has no white space at either end: an
    empty result of the transcription is turned into [None]. *)
Theorem X15_whisper_transcripts_are_stripped transcript :
  (forall (e : SmartEdgeVoiceChat.listen_env) s,
      snd (SmartEdgeVoiceChat.listen_for_speech_whisper e s)
        = Ret (Some transcript) ->
      transcript <> "" /\ Py.strip transcript = transcript) /\
  (forall (e : PushToTalkChat.capture_env) audio s,
      snd (PushToTalkChat.process_with_whisper e audio s)
        = Ret (Some transcript) ->
      transcript <> "" /\ Py.strip transcript = transcript) /\
  (forall (e : CleanExitVoiceChat.listen_env) audio s,
      snd (CleanExitVoiceChat.process_with_whisper e audio s)
        = Ret (Some transcript) ->
      transcript <> "" /\ Py.strip transcript = transcript).
Proof.
  split; [|split].
  - intros e [self w]. unfold SmartEdgeVoiceChat.listen_for_speech_whisper.
    run_monad. split_cases; cbn [snd]; intros [= <-];
      eapply strip_fixed; eassumption.
  - intros e audio [self w]. unfold PushToTalkChat.process_with_whisper.
    run_monad. split_cases; cbn [snd]; intros [= <-];
      eapply strip_fixed; eassumption.
  - intros e audio [self w].
    unfold CleanExitVoiceChat.process_with_whisper.
    run_monad. split_cases; cbn [snd]; intros [= <-];
      eapply strip_fixed; eassumption.
Qed.

End Transcripts.

Lemma X15_whisper_transcripts_witness :
  snd (SmartEdgeVoiceChat.listen_for_speech_whisper
         (Scenario2.smart_edge_ear "hello there ")
         Scenario2.smart_edge_start) = Ret (Some "hello there") /\
  "hello there" <> "" /\ Py.strip "hello there" = "hello there".
Proof.
  assert (H : snd (SmartEdgeVoiceChat.listen_for_speech_whisper
                     (Scenario2.smart_edge_ear "hello there ")
                     Scenario2.smart_edge_start) = Ret (Some "hello there"))
    by (vm_compute; reflexivity).
  split; [exact H|].
  exact (proj1 (X15_whisper_transcripts_are_stripped "hello there") _ _ H).
Defined.

(** ** CleanExitVoiceChat: what [cleanup] removes *)

Section Cleanup.
Import CleanExitVoiceChat CleanExitSpec.





(** The files after the loop: those that no entry of the listing made it
    remove. *)
Lemma sweep_files c (listing : list string) w path :
  path ∈ fs (fst (sweep c listing w)) <->
  path ∈ fs w /\ ~ exists file, In file listing /\ swept c file path.
Proof.
  revert w. induction listing as [|file rest IH]; intros w.
  - cbn. split; [|by intros [H _]]. intros H. split; [done|].
    by intros (file & [] & _).
  - cbn [sweep]. unfold remove_listed. run_monad.
    destruct (Py.startswith "temp_response_" file && Py.endswith ".wav" file)
      eqn:Hmatch.
    2:{ rewrite IH. split; intros [Hin Hno]; (split; [done|]).
        - intros (f & [<- | Hf] & Hs); [|by apply Hno; exists f].
          destruct Hs as (Hyes & _). congruence.
        - intros (f & Hf & Hs). apply Hno. exists f.
          split; [by right|done]. }
    destruct (bool_decide (path_join (gettempdir c) file ∈ fs w))
      eqn:Hpresent;
      [destruct (remove_fails c (path_join (gettempdir c) file)) eqn:Hfail|];
      cbn [fst snd fs trace];
      match goal with
      | |- context [sweep c rest ?w0] => rewrite (IH w0)
      end; cbn [fs].
    + split; intros [Hin Hno]; (split; [done|]).
      * intros (f & [<- | Hf] & Hs); [|by apply Hno; exists f].
        destruct Hs as (_ & -> & Hok). congruence.
      * intros (f & Hf & Hs). apply Hno. exists f. split; [by right|done].
    + rewrite elem_of_difference, elem_of_singleton.
      split.
      * intros [[Hin Hne] Hno]. split; [done|].
        intros (f & [<- | Hf] & Hs); [|by apply Hno; exists f].
        by destruct Hs as (_ & -> & _).
      * intros [Hin Hno]. split; [split; [done|]|].
        -- intros ->. apply Hno. exists file. split; [by left|].
           by split.
        -- intros (f & Hf & Hs). apply Hno. exists f. split; [by right|done].
    + apply bool_decide_eq_false in Hpresent.
      split; intros [Hin Hno]; (split; [done|]).
      * intros (f & [<- | Hf] & Hs); [|by apply Hno; exists f].
        destruct Hs as (_ & -> & _). done.
      * intros (f & Hf & Hs). apply Hno. exists f. split; [by right|done].
Qed.

(** The listing holds the names of the files directly in the temp
    directory. *)
Lemma listing_spec temp_dir (files : gset string) file :
  In file (omap (name_in_dir temp_dir) (elements files)) <->
  exists path, path ∈ files /\ name_in_dir temp_dir path = Some file.
Proof.
  rewrite <- list_elem_of_In, list_elem_of_omap.
  split; intros (path & Hin & Hname); exists path;
    (split; [by apply elem_of_elements | done]).
Qed.

(** What the whole step does to the files. *)
Lemma remove_temp_files_files c w :
  let after := fst (remove_temp_files c w) in
  trace after = trace w ++ map Remove (sweep_calls c (fs w)) /\
  match listdir_error c with
  | Some what =>
      fs after = fs w /\
      snd (remove_temp_files c w) = Raise (OtherException what)
  | None =>
      snd (remove_temp_files c w) = Ret tt /\
      forall path,
        path ∈ fs after <->
        path ∈ fs w /\
        ~ (is_temp_response (gettempdir c) path = true /\
           remove_fails c path = false)
  end.
Proof.
  cbv zeta. split.
  { by destruct (remove_temp_files_run c w) as (files & r & -> & _). }
  unfold remove_temp_files, os_listdir.
  destruct (listdir_error c) as [what|]; run_monad; [done|].
  set (listing := omap (name_in_dir (gettempdir c)) (elements (fs w))).
  pose proof (sweep_files c listing w) as Hfiles.
  destruct (sweep_run c listing w) as [files Hrun].
  rewrite Hrun in *. cbn [fst snd fs trace] in *.
  split; [done|]. intros path. rewrite Hfiles.
  split; intros [Hin Hno]; (split; [done|]).
  - intros [Htemp Hok]. apply Hno. unfold is_temp_response in Htemp.
    destruct (name_in_dir (gettempdir c) path) as [file|] eqn:Hname;
      [|done].
    exists file. split; [apply listing_spec; by exists path|].
    split; [done|]. split; [|done].
    by apply name_in_dir_spec in Hname as [-> _].
  - intros (file & Hlisted & Hmatch & -> & Hok). apply Hno.
    split; [|done]. unfold is_temp_response.
    apply listing_spec in Hlisted as (path & _ & Hname).
    apply name_in_dir_spec in Hname as [-> Hslash].
    assert (Hname : name_in_dir (gettempdir c)
                      (path_join (gettempdir c) file) = Some file)
      by by apply name_in_dir_spec.
    by rewrite Hname.
Qed.


Lemma digits_have_no_slash (d : Decimal.uint) :
  Py.contains "/" (NilEmpty.string_of_uint d) = false.
Proof.
  induction d; cbn [NilEmpty.string_of_uint]; [done|..];
    by rewrite contains_char_String, IHd.
Qed.

Lemma number_has_no_slash (d : Decimal.uint) :
  Py.contains "/" (NilZero.string_of_uint d) = false.
Proof.
  destruct d; [done|..]; apply digits_have_no_slash.
Qed.

Lemma str_of_Z_has_no_slash (n : Z) : Py.contains "/" (Py.str_of_Z n) = false.
Proof.
  unfold Py.str_of_Z. destruct (Z.to_int n) as [d|d];
    cbn [NilZero.string_of_int].
  - apply number_has_no_slash.
  - by rewrite contains_char_String, number_has_no_slash.
Qed.

Lemma cleanup_keeps c (signals : list Z) s path :
  path ∈ fs (snd s) ->
  is_temp_response (gettempdir c) path = false ->
  path ∈ fs (snd (fst (cleanup c signals s))).
Proof.
  intros Hin Hother. revert s Hin.
  induction signals as [|signum later IH]; intros [self w] Hin.
  - cbn [cleanup]. run_monad.
    match goal with
    | |- context [remove_temp_files c ?w0] =>
        pose proof (remove_temp_files_files c w0) as [_ Hfiles];
        destruct (remove_temp_files c w0) as [w1 r1]
    end.
    cbn [fst snd fs trace] in *.
    destruct (listdir_error c) as [what|].
    + destruct Hfiles as [Hfs ->]. cbn [is_Exception fst snd]. congruence.
    + destruct Hfiles as [-> Hfs]. cbn [fst snd]. apply Hfs.
      split; [done|]. intros [H _]. congruence.
  - cbn [cleanup]. run_monad.
    match goal with
    | |- context [cleanup c later ?s0] =>
        pose proof (IH s0 Hin) as Hkept;
        destruct (cleanup c later s0) as [s1 [[]|ex]]
    end; cbn [fst snd] in *; [done|].
    by destruct (is_Exception ex).
Qed.

(** X17: the sweep of [cleanup] misses the artifacts of this very
    script.  [synthesize_response] writes [temp_response_<ms>.wav] into
    the working directory, [cleanup] looks in the temp directory: unless
    the two directories are the same, an artifact that is still there
    when [cleanup] runs - with or without signals arriving meanwhile -
    is there afterwards. *)
Theorem X17_cleanup_misses_the_artifacts_of_the_script
    c (e : synth_env) (signals : list Z) s :
  path_join (getcwd e) "" <> path_join (gettempdir c) "" ->
  output_path e ∈ fs (snd s) ->
  output_path e ∈ fs (snd (fst (cleanup c signals s))).
Proof.
  intros Hdirs Hin. apply cleanup_keeps; [done|].
  unfold is_temp_response.
  destruct (name_in_dir (gettempdir c) (output_path e)) as [file|] eqn:Hname;
    [|done].
  apply name_in_dir_spec in Hname as [Hpath Hslash].
  unfold output_path, abspath in Hpath.
  apply path_join_unique in Hpath as [Hdir _]; [done| |done].
  rewrite !contains_char_app, str_of_Z_has_no_slash. reflexivity.
Qed.

End Cleanup.


Lemma X17_cleanup_misses_the_artifacts_witness :
  let s : CleanExitVoiceChat.t * world :=
    (CleanExitVoiceChat.init,
     fresh_world {[ CleanExitVoiceChat.output_path Scenario.studio ]}) in
  CleanExitVoiceChat.output_path Scenario.studio
    ∈ fs (snd (fst (CleanExitVoiceChat.cleanup Scenario.temp_dir [15%Z] s))).
Proof.
  intros s.
  apply (X17_cleanup_misses_the_artifacts_of_the_script Scenario.temp_dir
           Scenario.studio [15%Z] s).
  - discriminate.
  - apply (bool_decide_unpack _). vm_compute. exact I.
Defined.

(** ** CleanExitVoiceChat: sessions without signals *)

Section UndisturbedSessions.
Import CleanExitVoiceChat CleanExitSpec.

Ltac use_calm_ear :=
  repeat match goal with
         | H : forall audio, calm (?f audio), E : ?f ?a = Raise _ |- _ =>
             pose proof (H a) as Hc; rewrite E in Hc; cbn in Hc;
             try congruence; clear E
         end;
  use_calm.

(** A capture that no signal interrupts and in which no collaborator
    raises an interrupt returns, and does not clean up. *)
Lemma clean_exit_listen_returns c (e : listen_env) s :
  signal e = None -> calm_ear e ->
  exists s1 answer,
    listen_for_speech c e s = (s1, Ret answer) /\
    cleanups s1 = cleanups s.
Proof.
  intros Hsignal [Hl Ht Hw Hu Hg].
  pose proof (listen_keeps_cleanups c e s Hsignal) as Hcount.
  destruct (listen_for_speech c e s) as [s1 [answer|ex]] eqn:Hrun.
  - by exists s1, answer.
  - exfalso. clear Hcount. destruct s as [self w].
    unfold listen_for_speech, process_with_whisper, process_with_google
      in Hrun.
    revert Hrun. run_monad. rewrite Hsignal.
    split_cases; intros [= <- <-]; use_calm_ear;
      unfold calm, is_Exception in *; congruence.
Qed.

Lemma clean_exit_synthesize_returns (e : synth_env) text s :
  no_interrupt e ->
  snd (synthesize_response e text s) = Ret tt.
Proof.
  intros [Hi Hw Hp Hr]. destruct s as [self w]. unfold synthesize_response.
  run_monad. specialize (Hi text).
  split_cases; cbn [snd]; try done; use_calm.
Qed.

Lemma undisturbed_loop c (turns : list turn_env) s :
  Forall calm_turn turns ->
  exists s1 ending,
    conversation_loop c turns s = (s1, Ret ending) /\
    cleanups s1 = cleanups s.
Proof.
  intros Hcalm. revert s.
  induction Hcalm as [|e rest (Hsignal & Hear & Hvoice) _ IH]; intros s.
  - cbn [conversation_loop]. unfold mbind, M_bind, bind, self_gets, gets.
    cbn. destruct (running (fst s)); cbn; by eauto.
  - rewrite conversation_loop_cons.
    destruct (negb (running (fst s))); [by eauto|].
    destruct (clean_exit_listen_returns c (ear e) s Hsignal Hear)
      as (s1 & answer & -> & Hn1).
    destruct (negb (running (fst s1))); [by eauto|].
    destruct answer as [text|].
    + destruct (Py.any_in exit_words (Py.lower text)).
      * match goal with
        | |- context [synthesize_response ?v ?r ?s0] =>
            pose proof (clean_exit_synthesize_returns v r s0 Hvoice) as Hr;
            pose proof (synthesize_keeps_cleanups v r s0) as Hn2;
            destruct (synthesize_response v r s0) as [s2 r2]
        end.
        cbn [fst snd] in *. subst r2. exists s2, Stopped.
        split; [done | congruence].
      * match goal with
        | |- context [synthesize_response ?v ?r ?s0] =>
            pose proof (clean_exit_synthesize_returns v r s0 Hvoice) as Hr;
            pose proof (synthesize_keeps_cleanups v r s0) as Hn2;
            destruct (synthesize_response v r s0) as [s2 r2]
        end.
        cbn [fst snd] in *. subst r2.
        destruct (IH s2) as (s3 & ending & -> & Hn3).
        exists s3, ending. split; [done|].
        unfold cleanups in *. cbn [fst snd] in *. congruence.
    + destruct (IH s1) as (s3 & ending & -> & Hn3).
      exists s3, ending. split; [done | congruence].
Qed.

(** X18: a [CleanExitVoiceChat] session that no signal and no interrupt
    disturbs.  [main] returns normally.  Either the loop is still waiting
    for input, and then [cleanup] has not been entered and [running] is
    still set; or the loop has been left, and then [cleanup] has been
    entered exactly once - by the [finally] block - and the process ends
    with status 0. *)
Theorem X18_undisturbed_session_cleans_up_once c (turns : list turn_env) s :
  Forall calm_turn turns ->
  let run := main c turns [] s in
  (snd run = Ret Listening /\
   cleanups (fst run) = cleanups s /\
   running (fst (fst run)) = true) \/
  (snd run = Ret Stopped /\
   cleanups (fst run) = (cleanups s + 1)%nat /\
   exit_status (snd run) = Some 0%Z).
Proof.
  intros Hcalm. cbv zeta.
  destruct (undisturbed_loop c turns s Hcalm) as (s1 & ending & Hloop & Hn).
  unfold main, run_conversation, try_finally, try_except, mret, M_ret, ret.
  rewrite Hloop. destruct ending.
  - right. unfold oracle.
    destruct (cleanup_runs c [] s1) as [Hcount [Hr _]].
    destruct (cleanup c [] s1) as [s2 r2]. cbn [fst snd length] in *.
    subst r2. cbn [fst snd exit_status].
    split; [done|]. split; [lia | done].
  - left. cbn [fst snd]. split; [done|]. split; [done|].
    by destruct (still_listening c turns s s1 Hloop).
Qed.

(** X19: a [KeyboardInterrupt] raised in the main thread while the
    capture waits for the microphone.  [listen_for_speech] catches it and
    clears [running]; the loop is left without replying, [cleanup] runs
    once, and [main] returns normally: the later turns never run and
    nothing is synthesised.  The event log gains the capture, the call
    of [cleanup] and the removals of its sweep, nothing else. *)
Theorem X19_keyboard_interrupt_in_the_capture c (e : turn_env) rest s :
  running (fst s) = true ->
  signal (ear e) = None ->
  recognizer_listen (ear e) = Raise KeyboardInterrupt ->
  let run := main c (e :: rest) [] s in
  snd run = Ret Stopped /\
  running (fst (fst run)) = false /\
  trace (snd (fst run))
    = trace (snd s) ++ [Listen; Cleanup]
        ++ map Remove (CleanExitSpec.sweep_calls c (fs (snd s))) /\
  exit_status (snd run) = Some 0%Z.
Proof.
  intros Hrun Hsignal Hlisten. destruct s as [self w]. cbn [fst] in Hrun.
  assert (Hloop : conversation_loop c (e :: rest) (self, w)
                  = ((set_running false self,
                      {| fs := fs w; trace := trace w ++ [Listen] |}),
                     Ret Stopped)).
  { rewrite conversation_loop_cons. cbn [fst]. rewrite Hrun. cbn [negb].
    unfold listen_for_speech. run_monad.
    rewrite Hrun, Hsignal, Hlisten. reflexivity. }
  cbv zeta.
  unfold main, run_conversation, try_finally, try_except, oracle,
    except_Exception, mret, M_ret, ret.
  rewrite Hloop. cbn [cleanup]. run_monad.
  match goal with
  | |- context [remove_temp_files c ?w0] =>
      destruct (remove_temp_files_run c w0)
        as (files & r & -> & [-> | [what ->]])
  end;
    cbn [is_Exception fst snd fs trace running set_running exit_status];
    repeat split; by rewrite <- !app_assoc.
Qed.

End UndisturbedSessions.

Lemma X18_undisturbed_session_witness :
  let run :=
    CleanExitVoiceChat.main Scenario.temp_dir
      [ Scenario.clean_exit_turn None "hello";
        Scenario.clean_exit_turn None "ok, bye" ] []
      Scenario.clean_exit_start in
  (snd run = Ret Listening /\
   cleanups (fst run) = cleanups Scenario.clean_exit_start /\
   CleanExitVoiceChat.running (fst (fst run)) = true) \/
  (snd run = Ret Stopped /\
   cleanups (fst run) = (cleanups Scenario.clean_exit_start + 1)%nat /\
   CleanExitVoiceChat.exit_status (snd run) = Some 0%Z).
Proof.
  apply (X18_undisturbed_session_cleans_up_once Scenario.temp_dir
           [ Scenario.clean_exit_turn None "hello";
             Scenario.clean_exit_turn None "ok, bye" ]
           Scenario.clean_exit_start).
  repeat (apply Forall_cons_2;
          [split; [reflexivity | split; split; cbn; done] |]).
  apply Forall_nil_2.
Defined.

Lemma X19_keyboard_interrupt_witness :
  let run :=
    CleanExitVoiceChat.main Scenario.temp_dir
      [ Scenario2.clean_exit_ctrl_c; Scenario.clean_exit_turn None "hello" ] []
      Scenario.clean_exit_start in
  snd run = Ret Stopped /\
  CleanExitVoiceChat.running (fst (fst run)) = false /\
  trace (snd (fst run))
    = trace (snd Scenario.clean_exit_start) ++ [Listen; Cleanup]
        ++ map Remove
             (CleanExitSpec.sweep_calls Scenario.temp_dir
                (fs (snd Scenario.clean_exit_start))) /\
  CleanExitVoiceChat.exit_status (snd run) = Some 0%Z.
Proof.
  apply (X19_keyboard_interrupt_in_the_capture Scenario.temp_dir
           Scenario2.clean_exit_ctrl_c
           [Scenario.clean_exit_turn None "hello"]
           Scenario.clean_exit_start); reflexivity.
Defined.

(** ** The conversation history of VoiceChat and CleanExitVoiceChat *)

Section Histories.






Import CleanExitVoiceChat.



Lemma clean_exit_synthesize_self (e : synth_env) text s :
  fst (fst (synthesize_response e text s)) = fst s.
Proof.
  destruct s as [self w]. unfold synthesize_response.
  run_monad. by split_cases.
Qed.



End Histories.


(** ** CleanExitVoiceChat stays offline *)

Section Offline.
Import CleanExitVoiceChat CleanExitOffline.

Lemma cleanup_use_whisper c (signals : list Z) s :
  use_whisper (fst (fst (cleanup c signals s))) = use_whisper (fst s).
Proof.
  revert s. induction signals as [|signum later IH]; intros [self w].
  - cbn [cleanup]. run_monad.
    match goal with
    | |- context [remove_temp_files c ?w0] =>
        destruct (remove_temp_files_run c w0)
          as (files & r & -> & [-> | [what ->]])
    end; done.
  - cbn [cleanup]. run_monad.
    match goal with
    | |- context [cleanup c later ?s0] =>
        pose proof (IH s0) as Hkept;
        destruct (cleanup c later s0) as [s1 [[]|ex]]
    end; cbn [fst snd] in *; [done|].
    by destruct (is_Exception ex).
Qed.

Lemma listen_use_whisper c (e : listen_env) s :
  use_whisper (fst (fst (listen_for_speech c e s))) = use_whisper (fst s).
Proof.
  destruct s as [self w].
  unfold listen_for_speech, signal_handler, process_with_whisper,
    process_with_google.
  run_monad. destruct (running self); cbn [negb]; [|done].
  destruct (signal e) as [[signum later]|].
  - match goal with
    | |- context [cleanup c later ?s0] =>
        pose proof (cleanup_use_whisper c later s0) as Hkept;
        destruct (cleanup c later s0) as [s1 [[]|ex]]
    end; cbn [fst snd use_whisper set_running] in *;
      split_cases; cbn [fst snd use_whisper set_running] in *;
      congruence.
  - split_cases; done.
Qed.

Lemma listen_without_google c google (e : listen_env) s :
  use_whisper (fst s) = true ->
  listen_for_speech c (with_google google e) s = listen_for_speech c e s.
Proof.
  destruct s as [self w]. cbn [fst]. intros Huse.
  unfold listen_for_speech, process_with_whisper, with_google.
  cbn [signal recognizer_listen named_temporary_file whisper_transcribe
       os_unlink_result].
  run_monad. destruct (running self) eqn:Hrun; cbn [negb]; [|done].
  destruct (signal e) as [[signum later]|].
  - match goal with
    | |- context [signal_handler c later signum ?s0] =>
        destruct (signal_handler_runs c later signum s0) as [Hr _];
        destruct (signal_handler c later signum s0) as [s1 r1]
    end.
    cbn [snd] in Hr. by subst r1.
  - destruct (recognizer_listen e); cbn [fst snd]; [|done].
    rewrite Hrun. cbn [negb fst snd]. rewrite Huse. reflexivity.
Qed.

Lemma loop_without_google c google (turns : list turn_env) s :
  use_whisper (fst s) = true ->
  conversation_loop c (map (turn_with_google google) turns) s
    = conversation_loop c turns s /\
  use_whisper (fst (fst (conversation_loop c turns s))) = true.
Proof.
  revert s. induction turns as [|e rest IH]; intros s Huse.
  - split; [done|]. cbn [conversation_loop].
    unfold mbind, M_bind, bind, self_gets, gets. cbn.
    by destruct (running (fst s)).
  - cbn [map]. rewrite !conversation_loop_cons.
    cbn [turn_with_google ear voice].
    rewrite (listen_without_google c google (ear e) s Huse).
    destruct (negb (running (fst s))); [done|].
    pose proof (listen_use_whisper c (ear e) s) as Hlisten.
    destruct (listen_for_speech c (ear e) s) as [s1 [answer|ex]];
      cbn [fst snd] in Hlisten; [|split; [done | cbn [fst snd]; congruence]].
    assert (Huse1 : use_whisper (fst s1) = true) by congruence.
    destruct (negb (running (fst s1))); [done|].
    destruct answer as [u|]; [|by apply IH].
    destruct (Py.any_in exit_words (Py.lower u)).
    + match goal with
      | |- context [synthesize_response ?v ?r ?s0] =>
          pose proof (clean_exit_synthesize_self v r s0) as Hsyn;
          destruct (synthesize_response v r s0) as [s2 [[]|ex]]
      end; cbn [fst snd] in *; split; congruence.
    + match goal with
      | |- context [synthesize_response ?v ?r ?s0] =>
          pose proof (clean_exit_synthesize_self v r s0) as Hsyn;
          destruct (synthesize_response v r s0) as [s2 [[]|ex]]
      end; cbn [fst snd generate_response append_history use_whisper]
             in Hsyn.
      * apply IH. rewrite Hsyn. by cbn.
      * split; [done|]. cbn [fst snd]. rewrite Hsyn. by cbn.
Qed.

(** X21: [CleanExitVoiceChat] never consults the Google recogniser.
    [__init__] sets [use_whisper] unconditionally and nothing clears it:
    in a session that starts with the flag set, the flag is set at the
    end, and exchanging the Google recogniser of every turn for any
    other - one that always fails, say - changes neither the result nor
    the final state of [main]. *)
Theorem X21_clean_exit_never_consults_google
    c google (turns : list turn_env) final_signals s :
  use_whisper (fst s) = true ->
  main c (map (turn_with_google google) turns) final_signals s
    = main c turns final_signals s /\
  use_whisper (fst (fst (main c turns final_signals s))) = true.
Proof.
  intros Huse.
  destruct (loop_without_google c google turns s Huse) as [Hsame Hflag].
  unfold main, run_conversation, try_finally, try_except, oracle,
    except_Exception, mret, M_ret, ret.
  rewrite Hsame. split; [done|].
  destruct (conversation_loop c turns s) as [s1 [[]|ex]];
    cbn [fst snd] in *.
  - pose proof (cleanup_use_whisper c final_signals s1) as Hc.
    destruct (cleanup c final_signals s1) as [s2 [[]|ex2]];
      cbn [fst snd] in *; [congruence|].
    destruct (is_Exception ex2); cbn [fst snd]; congruence.
  - done.
  - pose proof (cleanup_use_whisper c final_signals s1) as Hc.
    destruct ex; cbn [fst snd];
      destruct (cleanup c final_signals s1) as [s2 [[]|ex2]];
      cbn [fst snd is_Exception] in *; try congruence;
      destruct (is_Exception ex2); cbn [fst snd]; congruence.
Qed.

End Offline.

Lemma X21_clean_exit_never_consults_google_witness :
  let offline := fun _ : AudioData => @Raise string RequestError in
  let turns :=
    [ Scenario.clean_exit_turn None "hello";
      Scenario.clean_exit_turn (Some (2%Z, [])) "never heard" ] in
  CleanExitVoiceChat.main Scenario.temp_dir
    (map (CleanExitOffline.turn_with_google offline) turns) []
    Scenario.clean_exit_start
  = CleanExitVoiceChat.main Scenario.temp_dir turns [] Scenario.clean_exit_start
  /\
  CleanExitVoiceChat.use_whisper
    (fst (fst (CleanExitVoiceChat.main Scenario.temp_dir turns []
                 Scenario.clean_exit_start))) = true.
Proof.
  intros offline turns.
  apply (X21_clean_exit_never_consults_google Scenario.temp_dir offline turns
           [] Scenario.clean_exit_start).
  reflexivity.
Defined.

(** ** VoiceChat: the order of the rules *)

Section RuleOrder.
Import VoiceChat.

(** X22: in [VoiceChat.generate_response] the rule for question words
    comes before the rule for the clock.  An utterance that contains
    "what", "who", "where", "when", "why" or "how" in any letter case -
    "What time is it?" - is answered by one of the first three canned
    replies, the same whatever the clock reads and whatever [random]
    draws: it is never told the time. *)
Theorem X22_question_words_shadow_the_clock user_input :
  says_one_of ["what"; "who"; "where"; "when"; "why"; "how"] user_input ->
  exists reply,
    In reply
      [ "Hello! Nice to meet you. How are you doing today?";
        "I'm doing great, thank you for asking! I'm excited to have this conversation with you.";
        "That's an interesting question. I'm still learning, but I'd be happy to discuss it with you." ]
    /\ forall now draw, generate_response now draw user_input = reply.
Proof.
  intros Hq%exit_test_spec. unfold generate_response. cbv zeta.
  rewrite Hq.
  destruct (Py.any_in ["hello"; "hi"; "hey"; "good morning";
                       "good afternoon"] (Py.lower user_input)).
  { eexists. split; [left; reflexivity | done]. }
  destruct (Py.any_in ["how are you"; "how do you do"; "how's it going"]
              (Py.lower user_input)).
  { eexists. split; [right; left; reflexivity | done]. }
  eexists. split; [right; right; left; reflexivity | done].
Qed.

End RuleOrder.

Lemma X22_question_words_witness :
  exists reply,
    In reply
      [ "Hello! Nice to meet you. How are you doing today?";
        "I'm doing great, thank you for asking! I'm excited to have this conversation with you.";
        "That's an interesting question. I'm still learning, but I'd be happy to discuss it with you." ]
    /\ forall now draw,
         VoiceChat.generate_response now draw "What time is it?" = reply.
Proof.
  apply (X22_question_words_shadow_the_clock "What time is it?").
  apply exit_test_spec. reflexivity.
Defined.

(** ** The normalisation step at its edges *)

Section NormalisationEdges.

(** X23: the normalisation step of [synthesize_response].  It raises
    exactly on the empty waveform; otherwise it returns a waveform with
    the same number of samples; and a waveform in which every sample is
    zero has peak zero and is returned as it is - the guard keeps the
    division away from it. *)
Theorem X23_normalisation_edges target wav :
  (forall ex, normalize target wav = Raise ex <-> 
              wav = [] /\ ex = OtherException "ValueError") /\
  (forall wav', normalize target wav = Ret wav' ->
                length wav' = length wav) /\
  (wav <> [] -> Forall (fun x => (x == 0)%Q) wav ->
   normalize target wav = Ret wav).
Proof.
  split; [|split].
  - intros ex. unfold normalize, peak. destruct wav as [|x wav].
    + cbn. split; [by intros [= <-] | by intros [_ ->]].
    + destruct (np_max_is_Some (map Qabs (x :: wav))) as [m ->]; [done|].
      destruct (Qlt_le_dec 0 m); split; try done; by intros [? _].
  - intros wav'. unfold normalize.
    destruct (peak wav) as [p|]; [|done].
    destruct (Qlt_le_dec 0 p); intros [= <-]; [|done].
    by rewrite length_map.
  - intros Hne Hzero.
    destruct (np_max_is_Some (map Qabs wav)) as [p Hp].
    { by destruct wav. }
    apply (normalize_silent wav p target Hp).
    destruct (peak_attained wav p Hp) as (x & Hx & ->).
    rewrite List.Forall_forall in Hzero. rewrite (Hzero x Hx). reflexivity.
Qed.

End NormalisationEdges.

Lemma X23_normalisation_edges_witness :
  normalize (8 # 10) [0; 0; 0]%Q = Ret [0; 0; 0]%Q.
Proof.
  apply (proj2 (proj2 (X23_normalisation_edges (8 # 10) [0; 0; 0]%Q))).
  - discriminate.
  - repeat constructor.
Defined.
